(** * Voice agent server: turn taking, streaming replies and the workspace bridge

    A shallow embedding of [server.js] (the [call-start] handler and its
    transcript callback, the [audio-stream] handler, [handleUserMessage],
    [startTTSWorker], the [/webhook/n8n-response] route, the [call-end] and
    [disconnect] handlers and the cleanup interval), of the token stream of
    [services/llm.js], of [WebhookService] and of the status and event
    handling of the subscription service, with the properties of the design
    document proved or refuted on it and further properties of the code.

    Conventions.  A JavaScript string is a [string]; one character stands for
    one UTF-16 code unit below 256.  [Date.now()] is an integer number of
    milliseconds, a [Z].  A transcript confidence is a double, given by its
    exact value, a rational.  What [JSON.parse] reads is a value over strings
    of code units of any size and over doubles.  A callback
    that runs to completion between two suspension points is a function from
    state to state; what the outside world answers (the clock, the generation
    provider, the synthesis provider, [Math.random]) is an argument. *)

From Stdlib Require Import ZArith QArith String Ascii List Bool Lia DecimalString.
From stdpp Require Import base option list gmap strings.
Import ListNotations.

Local Open Scope string_scope.
Local Open Scope list_scope.
Local Open Scope Z_scope.

#[local] Set Warnings "-register-all".

(** ** JavaScript string primitives used by the server *)

Module JS.

(** White space as [String.prototype.trim] sees it, on code units below 256:
    TAB, LF, VT, FF, CR, SPACE and NBSP. *)
Definition isWhiteSpace (c : ascii) : bool :=
  let n := nat_of_ascii c in
  (Nat.leb 9 n && Nat.leb n 13) || Nat.eqb n 32 || Nat.eqb n 160.

Fixpoint trimStart (s : string) : string :=
  match s with
  | EmptyString => EmptyString
  | String c s' => if isWhiteSpace c then trimStart s' else s
  end.

Fixpoint trimEnd (s : string) : string :=
  match s with
  | EmptyString => EmptyString
  | String c s' =>
      match trimEnd s' with
      | EmptyString => if isWhiteSpace c then EmptyString else String c EmptyString
      | r => String c r
      end
  end.

Definition trim (s : string) : string := trimEnd (trimStart s).

(** [text.startsWith(p)] *)
Definition startsWith (text p : string) : bool := String.prefix p text.

(** [s.includes(sub)] *)
Definition includes (s sub : string) : bool :=
  match String.index 0 sub s with
  | Some _ => true
  | None => false
  end.

(** [/[.!?]$/.test(s)]: the last code unit is a full stop, an exclamation
    mark or a question mark. *)
Definition isTerminal (c : ascii) : bool :=
  (Ascii.eqb c "."%char || Ascii.eqb c "!"%char || Ascii.eqb c "?"%char)%bool.

Fixpoint endsWithTerminal (s : string) : bool :=
  match s with
  | EmptyString => false
  | String c EmptyString => isTerminal c
  | String _ s' => endsWithTerminal s'
  end.

(** Truthiness of a string and of a number. *)
Definition truthyString (s : string) : bool :=
  match s with EmptyString => false | _ => true end.

Definition truthyNumber (n : Z) : bool := negb (Z.eqb n 0).

(** [c > q] on confidences. *)
Definition Qgtb (c q : Q) : bool := negb (Qle_bool c q).

End JS.

(** ** The transcript handler installed by [call-start]

    The handler closes over six variables.  Each trigger creates a pipeline
    controller with an [aborted] flag of its own; the flags live in a store
    indexed by the order of creation, and [currentPipeline] holds an index into
    it, so that a controller that has been replaced can still be consulted by
    the turn that owns it. *)

Module Trigger.

Record TranscriptData := {
  text : string;
  is_final : bool;
  speech_final : bool;
  confidence : Q
}.

Record CallState := {
  transcriptBuffer : string;
  isProcessing : bool;
  aiSpeaking : bool;
  currentPipeline : option nat;
  lastProcessedText : string;
  lastTriggerTime : Z;
  abortedFlags : gmap nat bool;
  nextPipeline : nat
}.

(** The variables as [call-start] initialises them. *)
Definition initial : CallState := {|
  transcriptBuffer := "";
  isProcessing := false;
  aiSpeaking := false;
  currentPipeline := None;
  lastProcessedText := "";
  lastTriggerTime := 0;
  abortedFlags := ∅;
  nextPipeline := 0
|}.

(** [pipeline.isAborted()] for the controller created [p]-th. *)
Definition isAborted (st : CallState) (p : nat) : bool :=
  default false (abortedFlags st !! p).

(** What one run of the handler does besides updating the variables. *)
Inductive Action :=
| EmitBargeIn
| EmitTranscript (buffered : string)
| StartTurn (textToProcess : string) (pipeline : nat).

(** The doubles that the literals [0.85] and [0.8] denote, by their exact
    values: [7656119366529843 * 2 ^ -53] and [3602879701896397 * 2 ^ -52].
    The confidence of an event is a double too, given by its exact value, so
    that [>] on the two doubles is [>] on the two rationals. *)
Definition confidence085 : Q := 7656119366529843 # 9007199254740992.
Definition confidence08 : Q := 3602879701896397 # 4503599627370496.

Definition shouldTrigger (d : TranscriptData) : bool :=
  is_final d
  || (JS.Qgtb (confidence d) confidence085 && speech_final d)
  || (Z.ltb 15 (Z.of_nat (String.length (text d)))
      && JS.endsWithTerminal (text d)
      && JS.Qgtb (confidence d) confidence08).

Definition bargeInDetected (st : CallState) (d : TranscriptData) : bool :=
  aiSpeaking st
  && Z.ltb 5 (Z.of_nat (String.length (JS.trim (text d))))
  && negb (JS.startsWith (text d) (lastProcessedText st)).

(** The callback given to [session.deepgram.onTranscript]; [now] is the
    value [Date.now()] returns in this run. *)
Definition onTranscript (st : CallState) (d : TranscriptData) (now : Z)
  : CallState * list Action :=
  if bargeInDetected st d then
    ({| transcriptBuffer := text d;
        isProcessing := false;
        aiSpeaking := false;
        currentPipeline := None;
        lastProcessedText := "";
        lastTriggerTime := 0;
        abortedFlags :=
          match currentPipeline st with
          | Some p => <[p := true]> (abortedFlags st)
          | None => abortedFlags st
          end;
        nextPipeline := nextPipeline st |},
     [EmitBargeIn])
  else if isProcessing st then (st, [])
  else
    let buffer := text d in
    let st1 := {| transcriptBuffer := buffer;
                  isProcessing := false;
                  aiSpeaking := aiSpeaking st;
                  currentPipeline := currentPipeline st;
                  lastProcessedText := lastProcessedText st;
                  lastTriggerTime := lastTriggerTime st;
                  abortedFlags := abortedFlags st;
                  nextPipeline := nextPipeline st |} in
    let timeSinceLastTrigger := now - lastTriggerTime st in
    let isSameText := String.eqb (text d) (lastProcessedText st) in
    let isRapidFire := Z.ltb timeSinceLastTrigger 500 in
    if isSameText || isRapidFire then (st1, [])
    else if shouldTrigger d
            && Z.ltb 0 (Z.of_nat (String.length (JS.trim buffer))) then
      let p := nextPipeline st in
      ({| transcriptBuffer := "";
          isProcessing := true;
          aiSpeaking := true;
          currentPipeline := Some p;
          lastProcessedText := text d;
          lastTriggerTime := now;
          abortedFlags := <[p := false]> (abortedFlags st);
          nextPipeline := S p |},
       [EmitTranscript buffer; StartTurn buffer p])
    else (st1, []).

(** The [finally] callback of the turn run by pipeline [p]. *)
Definition turnFinished (st : CallState) (p : nat) : CallState :=
  {| transcriptBuffer := transcriptBuffer st;
     isProcessing := false;
     aiSpeaking := false;
     currentPipeline := None;
     lastProcessedText :=
       if isAborted st p then lastProcessedText st else "";
     lastTriggerTime := lastTriggerTime st;
     abortedFlags := abortedFlags st;
     nextPipeline := nextPipeline st |}.

(** What happens to one call, in order of arrival. *)
Inductive Event :=
| Transcript (d : TranscriptData) (now : Z)
| TurnFinished (p : nat).

(** What an observer records for each event. *)
Inductive Outcome :=
| Fired (now : Z) (eventText : string) (pipeline : nat)
| Interrupted
| Ignored
| Finished (pipeline : nat) (clearedText : bool).

Definition firedPipeline (acts : list Action) : option nat :=
  match acts with
  | [EmitTranscript _; StartTurn _ p] => Some p
  | _ => None
  end.

Definition step (st : CallState) (e : Event) : CallState * Outcome :=
  match e with
  | Transcript d now =>
      let '(st', acts) := onTranscript st d now in
      (st',
       match acts with
       | [EmitBargeIn] => Interrupted
       | [EmitTranscript _; StartTurn _ p] => Fired now (text d) p
       | _ => Ignored
       end)
  | TurnFinished p => (turnFinished st p, Finished p (negb (isAborted st p)))
  end.

Fixpoint run (st : CallState) (es : list Event) : CallState * list Outcome :=
  match es with
  | [] => (st, [])
  | e :: es' =>
      let '(st1, o) := step st e in
      let '(st2, os) := run st1 es' in
      (st2, o :: os)
  end.

Definition outcomes (st : CallState) (es : list Event) : list Outcome :=
  snd (run st es).

Definition isFired (o : Outcome) : bool :=
  match o with Fired _ _ _ => true | _ => false end.

Definition isInterrupted (o : Outcome) : bool :=
  match o with Interrupted => true | _ => false end.

Definition isCleared (o : Outcome) : bool :=
  match o with Finished _ true => true | _ => false end.

(** Neither a trigger nor a barge-in. *)
Definition quiet (o : Outcome) : bool := negb (isFired o) && negb (isInterrupted o).

(** While the assistant is speaking, a controller is installed and it has not
    been aborted: the two are set together and reset together. *)
Definition speakingHasPipeline (st : CallState) : Prop :=
  aiSpeaking st = true ->
  exists p, currentPipeline st = Some p /\ isAborted st p = false.

(** The triggers of a run, with the clock reading and the text of the event. *)
Definition triggers (os : list Outcome) : list (Z * string) :=
  omap (fun o => match o with Fired t x _ => Some (t, x) | _ => None end) os.

(** The design document's two properties of the triggers of a run: successive
    triggers are 500 ms apart, and successive triggers carry different texts. *)
Definition triggersSpaced (l : list (Z * string)) : Prop :=
  forall i t1 x1 t2 x2,
    l !! i = Some (t1, x1) -> l !! S i = Some (t2, x2) -> 500 <= t2 - t1.

Definition triggersDistinct (l : list (Z * string)) : Prop :=
  forall i t1 x1 t2 x2,
    l !! i = Some (t1, x1) -> l !! S i = Some (t2, x2) -> x2 <> x1.

(** Sample events: a final transcript, of confidence 0.9375, and an interim
    one, of confidence 0.625. *)
Definition finalEvent (t : string) : TranscriptData :=
  {| text := t; is_final := true; speech_final := true; confidence := 15 # 16 |}.

Definition interimEvent (t : string) : TranscriptData :=
  {| text := t; is_final := false; speech_final := false; confidence := 5 # 8 |}.

(** The user interrupts the reply to a first utterance, then the interrupting
    utterance is finalised. *)
Definition bargeInRun : list Event :=
  [ Transcript (finalEvent "Hello there.") 1700000001000;
    Transcript (interimEvent "wait stop please") 1700000001100;
    Transcript (finalEvent "wait stop please") 1700000001200 ].

(** The user says the same thing twice, one reply apart. *)
Definition repeatRun : list Event :=
  [ Transcript (finalEvent "Yes.") 1700000001000;
    TurnFinished 0;
    Transcript (finalEvent "Yes.") 1700000002000 ].

(** The user interrupts the reply to a first utterance, the interrupted turn
    ends while its successor runs, the repeated utterance is ignored and a new
    one triggers. *)
Definition replacedRun : list Event :=
  bargeInRun
  ++ [ TurnFinished 0;
       Transcript (finalEvent "wait stop please") 1700000001500;
       Transcript (finalEvent "Tell me about pricing.") 1700000001900 ].

(** *** The calls of one session

    Each [call-start] runs the body of its handler again: it creates the
    variables anew and installs a new callback on a new recogniser.  It does
    not disconnect the recogniser of a call that was not ended, whose callback
    and turns go on with the variables of their own call. *)
Inductive SessionEvent :=
| CallStart
| OnCall (call : nat) (e : Event).

(** The variables of the calls of a session, oldest call first, and what each
    event comes to, with the call it belongs to.  An event of a call that was
    not started reaches no callback. *)
Fixpoint sessionRun (calls : list CallState) (es : list SessionEvent)
  : list CallState * list (nat * Outcome) :=
  match es with
  | [] => (calls, [])
  | CallStart :: rest => sessionRun (calls ++ [initial]) rest
  | OnCall k e :: rest =>
      match calls !! k with
      | Some st =>
          let '(st', o) := step st e in
          let '(final, os) := sessionRun (<[k := st']> calls) rest in
          (final, (k, o) :: os)
      | None => sessionRun calls rest
      end
  end.

(** A session starts with no call. *)
Definition sessionOutcomes (es : list SessionEvent) : list (nat * Outcome) :=
  snd (sessionRun [] es).

(** The outcomes of one call of a session. *)
Definition callOutcomes (k : nat) (os : list (nat * Outcome)) : list Outcome :=
  omap (fun ko => if Nat.eqb (fst ko) k then Some (snd ko) else None) os.

(** The client starts a call twice; the recogniser of each call hears the
    same utterance. *)
Definition twoCallsRun : list SessionEvent :=
  [ CallStart;
    OnCall 0 (Transcript (finalEvent "Hello there.") 1700000001000);
    CallStart;
    OnCall 1 (Transcript (finalEvent "Hello there.") 1700000001400) ].

End Trigger.

(** ** Numbers: IEEE 754 doubles

    The numbers of JavaScript, as far as [JSON.parse] can return them and
    [String] can print them. *)

Module Double.

(** A double other than [NaN]: [Finite s m e] is [m * 2 ^ e], negated when
    [s], with [m < 2 ^ 53], [-1074 <= e <= 971] and [2 ^ 52 <= m] unless
    [e = -1074]; zero is [m = 0]. *)
Inductive t :=
| Finite (negative : bool) (mantissa : Z) (exponent : Z)
| Infinite (negative : bool).

(** [base ^ n] for [n >= 0]. *)
Definition power (base n : Z) : Z :=
  if Z.eqb base 2 then Z.shiftl 1 n else base ^ n.

(** [base ^ n <= num / den], for positive [num] and [den]. *)
Definition reaches (base n num den : Z) : bool :=
  if Z.leb 0 n then Z.leb (power base n * den) num else Z.leb den (num * power base (- n)).

(** From a guess [n], the [n] with [base ^ n <= num / den < base ^ (n + 1)]. *)
Fixpoint settle (fuel : nat) (base n num den : Z) : Z :=
  match fuel with
  | O => n
  | S f =>
      if reaches base (n + 1) num den then settle f base (n + 1) num den
      else if reaches base n num den then n
      else settle f base (n - 1) num den
  end.

Definition floorLog2 (num den : Z) : Z :=
  settle 3 2 (Z.log2 num - Z.log2 den) num den.

Definition floorLog10 (num den : Z) : Z :=
  let p := Z.log2 num - Z.log2 den in
  settle (4 + Z.to_nat (Z.abs p)) 10 (p * 30103 / 100000) num den.

(** [num / den] rounded to the nearest integer, a tie to the even one. *)
Definition roundHalfEven (num den : Z) : Z :=
  let k := num / den in
  match Z.compare (2 * (num mod den)) den with
  | Lt => k
  | Gt => k + 1
  | Eq => if Z.even k then k else k + 1
  end.

(** The double nearest to [num / den], for positive [num] and [den]. *)
Definition nearest (negative : bool) (num den : Z) : t :=
  let q := Z.max (floorLog2 num den - 52) (-1074) in
  let m := if Z.leb 0 q then roundHalfEven num (Z.shiftl den q)
           else roundHalfEven (Z.shiftl num (- q)) den in
  let '(m, q) := if Z.eqb m (Z.shiftl 1 53) then (Z.shiftl 1 52, q + 1) else (m, q) in
  if Z.ltb 971 q then Infinite negative else Finite negative m q.

(** The number of decimal digits of a positive integer. *)
Definition decimalDigits (n : Z) : Z := floorLog10 n 1 + 1.

(** The double a decimal literal denotes: [digits * 10 ^ exp10], rounded. *)
Definition ofDecimal (negative : bool) (digits exp10 : Z) : t :=
  if Z.eqb digits 0 then Finite negative 0 (-1074)
  else
    let size := decimalDigits digits + exp10 in
    if Z.ltb 309 size then Infinite negative
    else if Z.ltb size (-324) then Finite negative 0 (-1074)
    else if Z.leb 0 exp10 then nearest negative (digits * 10 ^ exp10) 1
    else nearest negative digits (10 ^ (- exp10)).

Definition isZero (x : t) : bool :=
  match x with
  | Finite _ m _ => Z.eqb m 0
  | Infinite _ => false
  end.

(** The exact value of a finite double, in lowest terms. *)
Definition exact (x : t) : option Q :=
  match x with
  | Finite negative m q =>
      let m := if negative then - m else m in
      Some (if Z.leb 0 q then Z.shiftl m q # 1
            else Qred (m # Z.to_pos (Z.shiftl 1 (- q))))
  | Infinite _ => None
  end.

Definition showZ (n : Z) : string := DecimalString.NilZero.string_of_int (Z.to_int n).

Fixpoint zeros (n : nat) : string :=
  match n with
  | O => ""
  | S k => String "0" (zeros k)
  end.

(** The integer [s] and the power of ten [t] of the decimal with [k] digits
    nearest to [m * 2 ^ q] among those that denote it, if there is one. *)
Definition candidate (m q k : Z) : option (Z * Z) :=
  let num := if Z.leb 0 q then Z.shiftl m q else m in
  let den := if Z.leb 0 q then 1 else Z.shiftl 1 (- q) in
  let t := floorLog10 num den + 1 - k in
  let num' := if Z.leb 0 t then num else num * 10 ^ (- t) in
  let den' := if Z.leb 0 t then den * 10 ^ t else den in
  let lo := num' / den' in
  let hi := lo + 1 in
  let denotes s :=
    match ofDecimal false s t with
    | Finite _ m' q' => Z.eqb m' m && Z.eqb q' q
    | Infinite _ => false
    end in
  match denotes lo, denotes hi with
  | true, true =>
      match Z.compare (2 * (num' mod den')) den' with
      | Lt => Some (lo, t)
      | Gt => Some (hi, t)
      | Eq => Some (if Z.even lo then lo else hi, t)
      end
  | true, false => Some (lo, t)
  | false, true => Some (hi, t)
  | false, false => None
  end.

(** The first [k] that has a candidate; seventeen digits always do. *)
Fixpoint shortest (fuel : nat) (m q k : Z) : Z * Z :=
  match fuel with
  | O => (m, 0)
  | S f =>
      match candidate m q k with
      | Some st => st
      | None => shortest f m q (k + 1)
      end
  end.

(** Trailing zeros moved from [s] to the power of ten. *)
Fixpoint strip (fuel : nat) (s t : Z) : Z * Z :=
  match fuel with
  | O => (s, t)
  | S f => if Z.eqb (s mod 10) 0 then strip f (s / 10) (t + 1) else (s, t)
  end.

(** [Number::toString(x)] in radix 10: the shortest decimal that denotes
    [x], the nearest one when there are several, in the layout of the
    language. *)
Definition toString (x : t) : string :=
  match x with
  | Infinite negative => if negative then "-Infinity" else "Infinity"
  | Finite negative m q =>
      if Z.eqb m 0 then "0"
      else
        let '(s, t) := shortest 17 m q 1 in
        let '(s, t) := strip 17 s t in
        let digits := showZ s in
        let k := Z.of_nat (String.length digits) in
        let n := k + t in
        (if negative then "-" else "")
        +:+ (if Z.leb k n && Z.leb n 21 then digits +:+ zeros (Z.to_nat (n - k))
            else if Z.ltb 0 n && Z.leb n 21 then
              String.substring 0 (Z.to_nat n) digits +:+ "."
              +:+ String.substring (Z.to_nat n) (Z.to_nat (k - n)) digits
            else if Z.ltb (-6) n && Z.leb n 0 then
              "0." +:+ zeros (Z.to_nat (- n)) +:+ digits
            else
              let e := n - 1 in
              String.substring 0 1 digits
              +:+ (if Z.eqb k 1 then "" else "." +:+ String.substring 1 (Z.to_nat (k - 1)) digits)
              +:+ "e" +:+ (if Z.leb 0 e then "+" else "-") +:+ showZ (Z.abs e))
  end.

End Double.


(** ** JSON texts, as [JSON.stringify] writes and [JSON.parse] reads them

    The texts the program handles are strings of the embedding; what
    [JSON.parse] reads from one may hold any code unit and any double. *)

Module Json.

(** A JavaScript string as [JSON.parse] may return it: its UTF-16 code units,
    which an escape [\uXXXX] can take beyond 255. *)
Definition text := list N.

(** The code units of a string of the embedding. *)
Definition units (s : string) : text := List.map N_of_ascii (list_ascii_of_string s).

(** A JSON value over strings of type [S]; [NaN] is not one. *)
Inductive tree (S : Type) :=
| JNull
| JBool (b : bool)
| JNumber (x : Double.t)
| JString (s : S)
| JArray (items : list (tree S))
| JObject (members : list (S * tree S)).

Arguments JNull {S}.
Arguments JBool {S} b.
Arguments JNumber {S} x.
Arguments JString {S} s.
Arguments JArray {S} items.
Arguments JObject {S} members.

(** What the program builds from its own strings, and what [JSON.parse]
    returns.  The members of an object are kept as written. *)
Definition document := tree string.
Definition value := tree text.

Fixpoint widen (v : document) : value :=
  match v with
  | JNull => JNull
  | JBool b => JBool b
  | JNumber x => JNumber x
  | JString s => JString (units s)
  | JArray items => JArray (List.map widen items)
  | JObject members => JObject (List.map (fun kv => (units (fst kv), widen (snd kv))) members)
  end.

Definition dquote : ascii := "034"%char.
Definition backslash : ascii := "092"%char.

Definition hexDigit (n : nat) : ascii :=
  match n with
  | 0 => "0" | 1 => "1" | 2 => "2" | 3 => "3" | 4 => "4" | 5 => "5" | 6 => "6"
  | 7 => "7" | 8 => "8" | 9 => "9" | 10 => "a" | 11 => "b" | 12 => "c"
  | 13 => "d" | 14 => "e" | _ => "f"
  end%nat%char.

(** One code unit inside a quoted JSON string. *)
Definition escapeChar (c : ascii) : string :=
  let n := nat_of_ascii c in
  if Ascii.eqb c dquote then String backslash (String dquote "")
  else if Ascii.eqb c backslash then String backslash (String backslash "")
  else if Nat.eqb n 8 then String backslash "b"
  else if Nat.eqb n 9 then String backslash "t"
  else if Nat.eqb n 10 then String backslash "n"
  else if Nat.eqb n 12 then String backslash "f"
  else if Nat.eqb n 13 then String backslash "r"
  else if Nat.ltb n 32 then
    String backslash
      (String "u" (String "0" (String "0"
        (String (hexDigit (n / 16)) (String (hexDigit (n mod 16)) "")))))
  else String c "".

Fixpoint escape (s : string) : string :=
  match s with
  | EmptyString => EmptyString
  | String c r => escapeChar c +:+ escape r
  end.

Definition quoted (s : string) : string :=
  String dquote (escape s +:+ String dquote "").

(** [JSON.stringify(v)] for a value without [undefined] in it; a number that
    is not finite is written [null]. *)
Fixpoint stringify (v : document) : string :=
  match v with
  | JNull => "null"
  | JBool true => "true"
  | JBool false => "false"
  | JNumber (Double.Infinite _) => "null"
  | JNumber x => Double.toString x
  | JString s => quoted s
  | JArray items =>
      "[" +:+ String.concat "," (List.map stringify items) +:+ "]"
  | JObject members =>
      "{" +:+ String.concat ","
               (List.map (fun kv => quoted (fst kv) +:+ ":" +:+ stringify (snd kv)) members)
          +:+ "}"
  end.

Definition isJsonSpace (c : N) : bool :=
  N.eqb c 32 || N.eqb c 9 || N.eqb c 10 || N.eqb c 13.

Fixpoint skipWs (s : text) : text :=
  match s with
  | c :: r => if isJsonSpace c then skipWs r else s
  | [] => []
  end.

Definition hexValue (c : N) : option N :=
  if N.leb 48 c && N.leb c 57 then Some (c - 48)%N
  else if N.leb 97 c && N.leb c 102 then Some (c - 87)%N
  else if N.leb 65 c && N.leb c 70 then Some (c - 55)%N
  else None.

(** The rest of a quoted string, after the opening quote: the string read and
    what follows the closing quote. *)
Fixpoint parseString (s : text) : option (text * text) :=
  match s with
  | [] => None
  | c :: r =>
      if N.eqb c 34 then Some ([], r)
      else if N.eqb c 92 then
        match r with
        | e :: r1 =>
            let continue (x : N) (rest : option (text * text)) :=
              match rest with
              | Some (t, r') => Some (x :: t, r')
              | None => None
              end in
            if N.eqb e 34 then continue 34%N (parseString r1)
            else if N.eqb e 92 then continue 92%N (parseString r1)
            else if N.eqb e 47 then continue 47%N (parseString r1)
            else if N.eqb e 98 then continue 8%N (parseString r1)
            else if N.eqb e 116 then continue 9%N (parseString r1)
            else if N.eqb e 110 then continue 10%N (parseString r1)
            else if N.eqb e 102 then continue 12%N (parseString r1)
            else if N.eqb e 114 then continue 13%N (parseString r1)
            else if N.eqb e 117 then
              match r1 with
              | h1 :: h2 :: h3 :: h4 :: r2 =>
                  match hexValue h1, hexValue h2, hexValue h3, hexValue h4 with
                  | Some a, Some b, Some c', Some d =>
                      continue (4096 * a + 256 * b + 16 * c' + d)%N (parseString r2)
                  | _, _, _, _ => None
                  end
              | _ => None
              end
            else None
        | [] => None
        end
      else if N.ltb c 32 then None
      else
        match parseString r with
        | Some (t, r') => Some (c :: t, r')
        | None => None
        end
  end.

Definition isDigit (c : N) : bool := N.leb 48 c && N.leb c 57.

(** A run of digits, most significant first, added to [acc]; [count] is the
    number of digits read. *)
Fixpoint parseDigits (acc count : Z) (s : text) : Z * Z * text :=
  match s with
  | c :: r =>
      if isDigit c then parseDigits (10 * acc + Z.of_N (c - 48)) (count + 1) r
      else (acc, count, s)
  | [] => (acc, count, s)
  end.

(** The fraction of a number: nothing, or a point and at least one digit. *)
Definition parseFraction (int : Z) (s : text) : option (Z * Z * text) :=
  match s with
  | 46%N :: r =>
      let '(digits, count, rest) := parseDigits int 0 r in
      if Z.eqb count 0 then None else Some (digits, count, rest)
  | _ => Some (int, 0, s)
  end.

(** The exponent of a number: nothing, or [e] or [E], a sign or none, and at
    least one digit. *)
Definition parseExponent (s : text) : option (Z * text) :=
  let digitsAfter (negative : bool) (r : text) :=
    let '(e, count, rest) := parseDigits 0 0 r in
    if Z.eqb count 0 then None else Some (if negative then - e else e, rest) in
  match s with
  | c :: r =>
      if N.eqb c 101 || N.eqb c 69 then
        match r with
        | 43%N :: r' => digitsAfter false r'
        | 45%N :: r' => digitsAfter true r'
        | _ => digitsAfter false r
        end
      else Some (0, s)
  | [] => Some (0, s)
  end.

(** A number: an optional minus sign; [0] or a run of digits that does not
    start with [0]; a fraction or none; an exponent or none. *)
Definition parseNumber (s : text) : option (Double.t * text) :=
  let '(negative, body) :=
    match s with
    | 45%N :: r => (true, r)
    | _ => (false, s)
    end in
  match body with
  | c :: r =>
      if negb (isDigit c) then None
      else
        let '(int, _, afterInt) :=
          if N.eqb c 48 then (0, 1, r) else parseDigits 0 0 body in
        match parseFraction int afterInt with
        | Some (digits, count, afterFraction) =>
            match parseExponent afterFraction with
            | Some (e, rest) => Some (Double.ofDecimal negative digits (e - count), rest)
            | None => None
            end
        | None => None
        end
  | [] => None
  end.

(** [s] without [word] at its start. *)
Fixpoint dropPrefix (word s : text) : option text :=
  match word, s with
  | [], _ => Some s
  | w :: word', c :: s' => if N.eqb w c then dropPrefix word' s' else None
  | _ :: _, [] => None
  end.

Definition expect (word : string) (v : value) (s : text) : option (value * text) :=
  match dropPrefix (units word) s with
  | Some rest => Some (v, rest)
  | None => None
  end.

(** A value, the elements of an array after its bracket, the members of an
    object after its brace.  [fuel] bounds the nesting and the number of
    elements. *)
Fixpoint parseValue (fuel : nat) (s : text) {struct fuel} : option (value * text) :=
  match fuel with
  | O => None
  | S f =>
      match skipWs s with
      | [] => None
      | c :: r =>
          if N.eqb c 123 then
            match skipWs r with
            | 125%N :: r' => Some (JObject [], r')
            | _ =>
                match parseMembers f r with
                | Some (ms, r') => Some (JObject ms, r')
                | None => None
                end
            end
          else if N.eqb c 91 then
            match skipWs r with
            | 93%N :: r' => Some (JArray [], r')
            | _ =>
                match parseElements f r with
                | Some (vs, r') => Some (JArray vs, r')
                | None => None
                end
            end
          else if N.eqb c 34 then
            match parseString r with
            | Some (t, r') => Some (JString t, r')
            | None => None
            end
          else if N.eqb c 116 then expect "true" (JBool true) (c :: r)
          else if N.eqb c 102 then expect "false" (JBool false) (c :: r)
          else if N.eqb c 110 then expect "null" JNull (c :: r)
          else
            match parseNumber (c :: r) with
            | Some (x, r') => Some (JNumber x, r')
            | None => None
            end
      end
  end
with parseElements (fuel : nat) (s : text) {struct fuel} : option (list value * text) :=
  match fuel with
  | O => None
  | S f =>
      match parseValue f s with
      | Some (v, r) =>
          match skipWs r with
          | 44%N :: r' =>
              match parseElements f r' with
              | Some (vs, r'') => Some (v :: vs, r'')
              | None => None
              end
          | 93%N :: r' => Some ([v], r')
          | _ => None
          end
      | None => None
      end
  end
with parseMembers (fuel : nat) (s : text) {struct fuel}
  : option (list (text * value) * text) :=
  match fuel with
  | O => None
  | S f =>
      match skipWs s with
      | c :: r =>
          if N.eqb c 34 then
            match parseString r with
            | Some (k, r1) =>
                match skipWs r1 with
                | 58%N :: r2 =>
                    match parseValue f r2 with
                    | Some (v, r3) =>
                        match skipWs r3 with
                        | 44%N :: r4 =>
                            match parseMembers f r4 with
                            | Some (ms, r5) => Some ((k, v) :: ms, r5)
                            | None => None
                            end
                        | 125%N :: r4 => Some ([(k, v)], r4)
                        | _ => None
                        end
                    | None => None
                    end
                | _ => None
                end
            | None => None
            end
          else None
      | [] => None
      end
  end.

(** [JSON.parse] on the code units of a text: [None] stands for the
    [SyntaxError]. *)
Definition read (t : text) : option value :=
  match parseValue (2 * List.length t + 2) t with
  | Some (v, rest) =>
      match skipWs rest with
      | [] => Some v
      | _ => None
      end
  | None => None
  end.

(** [JSON.parse(text)] on a string of the embedding. *)
Definition parse (text : string) : option value := read (units text).

Fixpoint sameText (a b : text) : bool :=
  match a, b with
  | [], [] => true
  | x :: a', y :: b' => N.eqb x y && sameText a' b'
  | _, _ => false
  end.

(** The value of the last member named [key], [JSON.parse] keeping the last
    duplicate. *)
Fixpoint lookupMember {S V : Type} (same : S -> S -> bool) (key : S)
    (members : list (S * V)) : option V :=
  match members with
  | [] => None
  | (k, v) :: rest =>
      match lookupMember same key rest with
      | Some v' => Some v'
      | None => if same k key then Some v else None
      end
  end.

(** [v[key]] on a parsed value, for a name that no prototype defines:
    the member of an object, [undefined] ([None]) on anything else that is
    not [null]. *)
Definition property (v : value) (key : string) : option value :=
  match v with
  | JObject members => lookupMember sameText (units key) members
  | _ => None
  end.

(** Truthiness of a parsed value. *)
Definition truthy (v : value) : bool :=
  match v with
  | JNull => false
  | JBool b => b
  | JNumber x => negb (Double.isZero x)
  | JString s => match s with [] => false | _ => true end
  | JArray _ | JObject _ => true
  end.

(** [parts.join(sep)] *)
Fixpoint join (sep : text) (parts : list text) : text :=
  match parts with
  | [] => []
  | [x] => x
  | x :: rest => x ++ sep ++ join sep rest
  end.

End Json.

(** ** Sessions, the registry and what a handler does to the outside *)

Module Server.

Inductive Role := user | assistant.

Record Message := { role : Role; content : string }.

(** [session.pendingWorkspaceAction] when it is an object. *)
Record PendingAction := {
  toolCallId : option Json.value;
  args : Json.value;
  timestamp : Z
}.

(** A session object.  [pendingWorkspaceAction] is [None] when the property is
    missing or [null]; [disconnectedAt] is [None] when it is missing; [deepgram]
    tells whether the property holds a service. *)
Record Session := {
  conversationHistory : list Message;
  deepgram : bool;
  isCallActive : bool;
  lastActivity : Z;
  pendingWorkspaceAction : option PendingAction;
  disconnectedAt : option Z
}.

Definition setHistory (h : list Message) (s : Session) : Session :=
  {| conversationHistory := h; deepgram := deepgram s;
     isCallActive := isCallActive s; lastActivity := lastActivity s;
     pendingWorkspaceAction := pendingWorkspaceAction s;
     disconnectedAt := disconnectedAt s |}.

Definition setPending (p : option PendingAction) (s : Session) : Session :=
  {| conversationHistory := conversationHistory s; deepgram := deepgram s;
     isCallActive := isCallActive s; lastActivity := lastActivity s;
     pendingWorkspaceAction := p;
     disconnectedAt := disconnectedAt s |}.

Definition setDisconnectedAt (t : Z) (s : Session) : Session :=
  {| conversationHistory := conversationHistory s; deepgram := deepgram s;
     isCallActive := isCallActive s; lastActivity := lastActivity s;
     pendingWorkspaceAction := pendingWorkspaceAction s;
     disconnectedAt := Some t |}.

(** [conversationHistory.push({ role, content })] *)
Definition pushMessage (r : Role) (c : string) (s : Session) : Session :=
  setHistory (conversationHistory s ++ [{| role := r; content := c |}]) s.

(** What the client receives on its socket. *)
Inductive ClientEvent :=
| AiResponse (text : string) (partial : bool)
| AudioResponse (audio : string)
| Status (text : string)
| ErrorEvent (message : string).

(** What a handler does besides changing sessions, in the order it does it. *)
Inductive Effect :=
| Respond (httpStatus : Z)
| Emit (socketId : string) (ev : ClientEvent)
| GenerateResponse (history : list Message)
| StreamResponse (history : list Message)
| AddChunk (chunk : string)
| Push (item : string)
| CloseQueue
| AwaitWorker
| TextToSpeech (text : string)
| SendGoogleWorkspaceAction (actionData : Json.value) (sessionId : string)
| DeepgramDisconnect (sessionId : string).

(** The process-wide state.  [objects] holds every session object by the id
    of the socket it was created for; [activeSessions] lists the keys of the
    [Map] of that name in insertion order, each key being mapped to the object
    of the same id; [sockets] is the set of connected socket ids. *)
Record State := {
  objects : gmap string Session;
  activeSessions : list string;
  sockets : gset string
}.

(** [activeSessions.get(id)] *)
Definition registryGet (st : State) (id : string) : option Session :=
  if decide (id ∈ activeSessions st) then objects st !! id else None.

(** [activeSessions.delete(id)] *)
Definition registryDelete (id : string) (st : State) : State :=
  {| objects := objects st;
     activeSessions := List.filter (fun k => negb (String.eqb k id)) (activeSessions st);
     sockets := sockets st |}.

(** An assignment to a property of the session object of socket [id]. *)
Definition updateObject (id : string) (s : Session) (st : State) : State :=
  {| objects := <[id := s]> (objects st);
     activeSessions := activeSessions st;
     sockets := sockets st |}.

Definition hasPending (s : Session) : bool :=
  match pendingWorkspaceAction s with Some _ => true | None => false end.

(** The handler of a new connection, when the services of the session are
    constructed without error. *)
Definition onConnection (st : State) (id : string) (now : Z) : State :=
  {| objects :=
       <[id := {| conversationHistory := []; deepgram := false;
                  isCallActive := false; lastActivity := now;
                  pendingWorkspaceAction := None; disconnectedAt := None |}]>
         (objects st);
     activeSessions :=
       if decide (id ∈ activeSessions st) then activeSessions st
       else activeSessions st ++ [id];
     sockets := {[id]} ∪ sockets st |}.

(** The [call-end] handler of the socket [id]. *)
Definition onCallEnd (st : State) (id : string) (now : Z) : State * list Effect :=
  match objects st !! id with
  | Some s =>
      (updateObject id
         {| conversationHistory := conversationHistory s; deepgram := false;
            isCallActive := false; lastActivity := now;
            pendingWorkspaceAction := pendingWorkspaceAction s;
            disconnectedAt := disconnectedAt s |} st,
       (if deepgram s then [DeepgramDisconnect id] else [])
         ++ [Emit id (Status "Call ended")])
  | None => (st, [])
  end.

(** The [disconnect] handler of the socket [id]; the socket has left
    [io.sockets.sockets] when it runs. *)
Definition onDisconnect (st : State) (id : string) (now : Z) : State * list Effect :=
  let st0 := {| objects := objects st; activeSessions := activeSessions st;
                sockets := sockets st ∖ {[id]} |} in
  match objects st !! id with
  | Some s =>
      (if hasPending s then updateObject id (setDisconnectedAt now s) st0
       else registryDelete id st0,
       if deepgram s then [DeepgramDisconnect id] else [])
  | None => (st0, [])
  end.

Definition truthyOptNumber (t : option Z) : bool :=
  match t with Some n => JS.truthyNumber n | None => false end.

(** The test the cleanup interval makes on one session. *)
Definition cleaned (now : Z) (s : Session) : bool :=
  if truthyOptNumber (disconnectedAt s) then
    Z.ltb (60 * 1000) (now - default 0 (disconnectedAt s))
  else
    negb (isCallActive s)
    && JS.truthyNumber (lastActivity s)
    && Z.ltb (30 * 60 * 1000) (now - lastActivity s).

Definition cleanedId (st : State) (now : Z) (id : string) : bool :=
  match objects st !! id with
  | Some s => cleaned now s
  | None => false
  end.

(** One run of the cleanup interval. *)
Definition cleanup (st : State) (now : Z) : State * list Effect :=
  ({| objects := objects st;
      activeSessions := List.filter (fun id => negb (cleanedId st now id)) (activeSessions st);
      sockets := sockets st |},
   List.flat_map
     (fun id =>
        match objects st !! id with
        | Some s => if cleaned now s && deepgram s then [DeepgramDisconnect id] else []
        | None => []
        end)
     (activeSessions st)).

(** The cleanup interval run at each of [times] in turn, with nothing else
    happening in between. *)
Definition sweeps (st : State) (times : list Z) : State :=
  List.fold_left (fun st now => fst (cleanup st now)) times st.

(** *** The route [POST /webhook/n8n-response] *)

(** [req.body.sessionId]: missing (or [null]), a string, or something else. *)
Inductive SessionIdField := SidAbsent | SidText (s : string) | SidOther.

(** The request body; [status] is [None] unless it is a string, [summary] is
    [None] when missing and otherwise a string. *)
Record CallbackBody := {
  sessionId : SessionIdField;
  status : option string;
  summary : option string
}.

(** The loop over [activeSessions.entries()] that stops at the first session
    with a truthy [pendingWorkspaceAction]. *)
Fixpoint firstPending (objs : gmap string Session) (ids : list string)
  : option (string * Session) :=
  match ids with
  | [] => None
  | id :: rest =>
      match objs !! id with
      | Some s => if hasPending s then Some (id, s) else firstPending objs rest
      | None => firstPending objs rest
      end
  end.

(** The session the callback is for and the id it is known by;
    [sid] is the trimmed id, [None] when the body has none. *)
Definition resolveSession (st : State) (sid : option string) : option (string * Session) :=
  match sid with
  | Some id =>
      match registryGet st id with
      | Some s => Some (id, s)
      | None => firstPending (objects st) (activeSessions st)
      end
  | None => firstPending (objects st) (activeSessions st)
  end.

Definition q : string := String Json.dquote "".

(** The message that carries the result into the conversation. *)
Definition systemMessage (summary : string) : string :=
  "[System: You completed the Google Workspace task. The result is: " +:+ q +:+ summary +:+ q +:+ ".

CRITICAL: Respond in FIRST PERSON as if YOU did the work yourself. Use " +:+ q +:+ "I" +:+ q +:+ ", not " +:+ q +:+ "they" +:+ q +:+ " or " +:+ q +:+ "the agent" +:+ q +:+ ".
Take ownership of the action. Don't reveal there's another system involved.

Examples:
- BAD: " +:+ q +:+ "They can add the appointment, but they need you to confirm..." +:+ q +:+ "
- GOOD: " +:+ q +:+ "I can add the appointment, but I need you to confirm..." +:+ q +:+ "

- BAD: " +:+ q +:+ "The system found 5 emails..." +:+ q +:+ "
- GOOD: " +:+ q +:+ "I found 5 emails..." +:+ q +:+ "

Summarize naturally in 1-2 sentences. Be helpful and conversational.]".

Definition errorReply : string :=
  "I ran into an issue completing that task. Could you try again?".

Definition doneReply : string := "All done! I completed that task for you.".

Definition isSuccessWithSummary (body : CallbackBody) : bool :=
  match status body, summary body with
  | Some st, Some sm => String.eqb st "success" && JS.truthyString sm
  | _, _ => false
  end.

Definition isError (body : CallbackBody) : bool :=
  match status body with
  | Some st => String.eqb st "error"
  | None => false
  end.

(** The reply to speak, the history after it, and the calls made to the
    generation provider; [llmReply] is what [generateResponse] resolves to,
    [None] when it rejects. *)
Definition summarise (body : CallbackBody) (llmReply : option string) (s : Session)
  : string * Session * list Effect :=
  if isSuccessWithSummary body then
    let sm := default "" (summary body) in
    let s1 := pushMessage user (systemMessage sm) s in
    let responseText := default sm llmReply in
    (responseText, pushMessage assistant responseText s1,
     [GenerateResponse (conversationHistory s1)])
  else if isError body then
    (errorReply, pushMessage assistant errorReply s, [])
  else
    (doneReply, pushMessage assistant doneReply s, []).

(** [rawSessionId?.trim()] when it does not throw. *)
Definition requestedId (field : SessionIdField) : option string :=
  match field with
  | SidText raw => Some (JS.trim raw)
  | _ => None
  end.

(** The route handler.  [llmReply] and [audio] are the outcomes of the calls to
    the generation and synthesis providers, should the handler make them.  A
    [sessionId] that is neither missing nor a string makes [trim] throw, which
    the handler answers with 500. *)
Definition n8nResponse (st : State) (body : CallbackBody)
    (llmReply : option string) (audio : option string) : State * list Effect :=
  match sessionId body with
  | SidOther => (st, [Respond 500])
  | field =>
      match resolveSession st (requestedId field) with
      | None => (st, [Respond 404])
      | Some (actualSessionId, session) =>
          if decide (actualSessionId ∈ sockets st) then
            let '(responseText, session1, calls) := summarise body llmReply session in
            (updateObject actualSessionId (setPending None session1) st,
             [Respond 200] ++ calls
             ++ [Emit actualSessionId (AiResponse responseText true);
                 TextToSpeech responseText]
             ++ match audio with
                | Some a => [Emit actualSessionId (AudioResponse a)]
                | None => []
                end
             ++ [Emit actualSessionId (Status "Listening...")])
          else
            (updateObject actualSessionId (setPending None session) st,
             [Respond 200])
      end
  end.

(** Sample data: a session that waits for a result, and registries with it. *)
Definition waitingSession (lastSeen : Z) : Session :=
  {| conversationHistory :=
       [ {| role := user; content := "Book a room for Friday." |};
         {| role := assistant; content := "On it, give me a moment." |} ];
     deepgram := false;
     isCallActive := false;
     lastActivity := lastSeen;
     pendingWorkspaceAction :=
       Some {| toolCallId := Some (Json.widen (Json.JString "call_1"));
               args := Json.widen
                         (Json.JObject [("action", Json.JString "calendar");
                                        ("request", Json.JString "Book a room for Friday")]);
               timestamp := lastSeen |};
     disconnectedAt := None |}.

Definition idleSession (lastSeen : Z) : Session :=
  {| conversationHistory := []; deepgram := false; isCallActive := false;
     lastActivity := lastSeen; pendingWorkspaceAction := None;
     disconnectedAt := None |}.

(** Two connected sockets, the second one waiting for a result. *)
Definition sampleState : State :=
  {| objects :=
       <["sockA" := idleSession 1700000020000]>
         (<["sockB" := waitingSession 1700000030000]> ∅);
     activeSessions := ["sockA"; "sockB"];
     sockets := {["sockA"; "sockB"]} |}.

End Server.

(** ** The sentence segmenter *)

(** What [handleUserMessage] asks of a segmenter: a fresh instance per turn,
    [addChunk] returning the sentences completed by the chunk, and
    [getRemainder] returning the text not yet emitted. *)
Class Segmenter := {
  detector : Type;
  newDetector : detector;
  addChunk : detector -> string -> detector * list string;
  getRemainder : detector -> string
}.

Module SentenceDetector.

(** Modelled from the spec: the boundaries of [utils/sentence-detector.js],
    which is not among the sources.  The design document asks that
    sentence-terminal punctuation be treated as boundaries and that a chunk
    may split a word or a run of punctuation.  This gives the sentences
    completed in [s] and the text left over, [cur] being the sentence under
    way: a boundary lies after a run of terminal punctuation that is followed
    by another character; a run that ends the text may still grow with the
    next chunk and stays in the remainder. *)
Fixpoint segments (cur s : string) : list string * string :=
  match s with
  | EmptyString => ([], cur)
  | String c r =>
      let cur' := cur +:+ String c "" in
      if JS.isTerminal c then
        match r with
        | EmptyString => ([], cur')
        | String d _ =>
            if JS.isTerminal d then segments cur' r
            else (cur' :: fst (segments "" r), snd (segments "" r))
        end
      else segments cur' r
  end.

(** Modelled from the spec: [addChunk(text)] of the class [SentenceDetector]
    of [utils/sentence-detector.js], which is not among the sources.  The
    design document gives its contract: it consumes an incremental text
    stream, buffers internally, emits each completed sentence once and in
    order, and retains the unflushed remainder.  The state is the buffered
    text. *)
Definition addChunk (buffer text : string) : string * list string :=
  (snd (segments "" (buffer +:+ text)), fst (segments "" (buffer +:+ text))).

(** Modelled from the spec: [getRemainder()], the trailing text not yet
    terminated. *)
Definition getRemainder (buffer : string) : string := buffer.

(** Feeding the chunks of a stream in order: the sentences emitted, over all
    chunks, and the final state. *)
Fixpoint feed (buffer : string) (chunks : list string) : list string * string :=
  match chunks with
  | [] => ([], buffer)
  | chunk :: rest =>
      let '(buffer1, sentences) := addChunk buffer chunk in
      let '(more, final) := feed buffer1 rest in
      (sentences ++ more, final)
  end.

End SentenceDetector.

#[export] Instance sentenceDetector : Segmenter := {|
  detector := string;
  newDetector := "";
  addChunk := SentenceDetector.addChunk;
  getRemainder := SentenceDetector.getRemainder
|}.

(** ** The synthesis dispatch queue and its worker *)

Module AsyncQueue.

(** Modelled from the spec: [utils/async-queue.js], the class [AsyncQueue], is
    not among the sources.  The design document gives its contract: an
    ordered, closable work queue; [push] is a non-blocking enqueue; [close]
    signals that no more items come; the iteration hands the items over in
    submission order and suspends the consumer until an item is available or
    the queue is closed and drained. *)
Record t := {
  items : list string;
  closed : bool
}.

(** Modelled from the spec: [new AsyncQueue()], open and empty. *)
Definition empty : t := {| items := []; closed := false |}.

(** Modelled from the spec: [push(item)] puts the item behind the others. *)
Definition push (item : string) (q : t) : t :=
  {| items := items q ++ [item]; closed := closed q |}.

(** Modelled from the spec: [close()]. *)
Definition close (q : t) : t := {| items := items q; closed := true |}.

(** What the iteration does when the consumer asks for the next item. *)
Inductive Next :=
| Item (item : string) (rest : t)
| Done
| Suspended.

(** Modelled from the spec: one step of [for await (const item of queue)]:
    the oldest item if there is one, the end if the queue is closed and
    drained, and otherwise the consumer stays suspended. *)
Definition next (q : t) : Next :=
  match items q with
  | item :: rest => Item item {| items := rest; closed := closed q |}
  | [] => if closed q then Done else Suspended
  end.

End AsyncQueue.

Module Tts.

(** Where the worker stands: suspended in the iteration of the queue,
    suspended in [textToSpeech] for a sentence, or returned. *)
Inductive Worker :=
| Waiting
| Synthesizing (sentence : string)
| Returned.

(** The queue, the worker of [startTTSWorker] and the synthesis provider
    during one turn.  [aborted] is the flag of the pipeline controller;
    [inFlight] lists the synthesis requests the provider has not answered yet;
    [emitted] is what the worker sent to the socket, oldest first.  [pushed],
    [taken] and [spoken] observe the run: the items pushed, the items the
    worker received, and the sentences whose audio was sent with that audio,
    each oldest first. *)
Record Sys := {
  ttsQueue : AsyncQueue.t;
  aborted : bool;
  worker : Worker;
  sentenceCount : nat;
  inFlight : list string;
  emitted : list Server.ClientEvent;
  pushed : list string;
  taken : list string;
  spoken : list (string * string)
}.

Definition initial : Sys := {|
  ttsQueue := AsyncQueue.empty; aborted := false; worker := Waiting;
  sentenceCount := 0; inFlight := []; emitted := [];
  pushed := []; taken := []; spoken := []
|}.

(** The items waiting in the queue. *)
Definition queue (s : Sys) : list string := AsyncQueue.items (ttsQueue s).

(** What can happen next: the producer pushes or closes, the controller is
    aborted, the iteration resumes the worker with the next item or with the
    end of the queue, the provider answers the request in flight with audio or
    with an error. *)
Inductive Label :=
| Push (item : string)
| Close
| Abort
| Resume
| Answer (audio : option string).

(** The body of the loop of [startTTSWorker] from the item received up to the
    call of [textToSpeech]; [rest] is the queue without the item. *)
Definition receive (s : Sys) (sentence : string) (rest : AsyncQueue.t) : Sys :=
  if aborted s then
    {| ttsQueue := rest; aborted := aborted s; worker := Returned;
       sentenceCount := sentenceCount s; inFlight := inFlight s;
       emitted := emitted s;
       pushed := pushed s; taken := taken s ++ [sentence]; spoken := spoken s |}
  else if negb (JS.truthyString sentence) then
    {| ttsQueue := rest; aborted := aborted s; worker := Returned;
       sentenceCount := sentenceCount s; inFlight := inFlight s;
       emitted := emitted s;
       pushed := pushed s; taken := taken s ++ [sentence]; spoken := spoken s |}
  else
    {| ttsQueue := rest; aborted := aborted s;
       worker := Synthesizing sentence;
       sentenceCount := S (sentenceCount s);
       inFlight := inFlight s ++ [sentence];
       emitted :=
         emitted s
         ++ (if Nat.eqb (S (sentenceCount s)) 1
             then [Server.Status "AI is speaking..."] else []);
       pushed := pushed s; taken := taken s ++ [sentence]; spoken := spoken s |}.

(** The rest of the loop body, from the answer of [textToSpeech]. *)
Definition resumeAfterSynthesis (s : Sys) (sentence : string) (audio : option string) : Sys :=
  let pending := List.filter (fun r => negb (String.eqb r sentence)) (inFlight s) in
  match audio with
  | Some a =>
      if aborted s then
        {| ttsQueue := ttsQueue s; aborted := aborted s;
           worker := Returned; sentenceCount := sentenceCount s;
           inFlight := pending; emitted := emitted s;
           pushed := pushed s; taken := taken s; spoken := spoken s |}
      else
        {| ttsQueue := ttsQueue s; aborted := aborted s;
           worker := Waiting; sentenceCount := sentenceCount s;
           inFlight := pending;
           emitted := emitted s ++ [Server.AudioResponse a];
           pushed := pushed s; taken := taken s; spoken := spoken s ++ [(sentence, a)] |}
  | None =>
      {| ttsQueue := ttsQueue s; aborted := aborted s;
         worker := Waiting; sentenceCount := sentenceCount s;
         inFlight := pending; emitted := emitted s;
         pushed := pushed s; taken := taken s; spoken := spoken s |}
  end.

(** One step; [None] when the step cannot happen in this state. *)
Definition step (s : Sys) (l : Label) : option Sys :=
  match l with
  | Push item =>
      Some {| ttsQueue := AsyncQueue.push item (ttsQueue s); aborted := aborted s;
              worker := worker s; sentenceCount := sentenceCount s;
              inFlight := inFlight s; emitted := emitted s;
              pushed := pushed s ++ [item]; taken := taken s; spoken := spoken s |}
  | Close =>
      Some {| ttsQueue := AsyncQueue.close (ttsQueue s); aborted := aborted s;
              worker := worker s; sentenceCount := sentenceCount s;
              inFlight := inFlight s; emitted := emitted s;
              pushed := pushed s; taken := taken s; spoken := spoken s |}
  | Abort =>
      Some {| ttsQueue := ttsQueue s; aborted := true;
              worker := worker s; sentenceCount := sentenceCount s;
              inFlight := inFlight s; emitted := emitted s;
              pushed := pushed s; taken := taken s; spoken := spoken s |}
  | Resume =>
      match worker s with
      | Waiting =>
          match AsyncQueue.next (ttsQueue s) with
          | AsyncQueue.Item sentence rest => Some (receive s sentence rest)
          | AsyncQueue.Done =>
              Some {| ttsQueue := ttsQueue s; aborted := aborted s;
                      worker := Returned; sentenceCount := sentenceCount s;
                      inFlight := inFlight s; emitted := emitted s;
                      pushed := pushed s; taken := taken s; spoken := spoken s |}
          | AsyncQueue.Suspended => None
          end
      | _ => None
      end
  | Answer audio =>
      match worker s with
      | Synthesizing sentence => Some (resumeAfterSynthesis s sentence audio)
      | _ => None
      end
  end.

Fixpoint run (s : Sys) (ls : list Label) : option Sys :=
  match ls with
  | [] => Some s
  | l :: rest =>
      match step s l with
      | Some s' => run s' rest
      | None => None
      end
  end.

(** The requests in flight are the one the worker waits for, if any. *)
Definition oneInFlight (s : Sys) : Prop :=
  match worker s with
  | Synthesizing sentence => inFlight s = [sentence]
  | _ => inFlight s = []
  end.

(** The audio sent to the socket, oldest first. *)
Definition audioEvents (evs : list Server.ClientEvent) : list string :=
  omap (fun e => match e with Server.AudioResponse a => Some a | _ => None end) evs.

(** The queue is first in, first out; audio is sent for received sentences
    only, in the order received, and the audio on the socket is that audio. *)
Definition fifo (s : Sys) : Prop :=
  pushed s = taken s ++ queue s
  /\ audioEvents (emitted s) = (spoken s).*2
  /\ match worker s with
     | Synthesizing sentence =>
         exists before,
           taken s = before ++ [sentence] /\ (spoken s).*1 `sublist_of` before
     | _ => (spoken s).*1 `sublist_of` taken s
     end.

(** The start of a run: two sentences pushed with an empty item between
    them, the first sentence synthesized and sent. *)
Definition emptyItemNext : list Label :=
  [ Push "Hello."; Push ""; Push "World."; Resume; Answer (Some "audio-1") ].

End Tts.

(** ** The token stream of the generation provider *)

Module Llm.

(** One entry of [delta.tool_calls]; [functionName] and [functionArguments]
    are [tc.function?.name] and [tc.function?.arguments]. *)
Record ToolCallDelta := {
  index : option nat;
  id : option string;
  functionName : option string;
  functionArguments : option string
}.

(** One chunk of the provider's stream: [choices[0]?.delta?.content],
    [choices[0]?.delta?.tool_calls] and [choices[0]?.finish_reason]. *)
Record StreamChunk := {
  content : option string;
  tool_calls : option (list ToolCallDelta);
  finish_reason : option string
}.

(** A value of the map [toolCalls]. *)
Record ToolCall := {
  callId : string;
  name : option string;
  argsBuffer : string
}.

Definition truthyOptString (s : option string) : bool :=
  match s with Some t => JS.truthyString t | None => false end.

(** [toolCalls.set(key, v)]: a new key goes last, a known key keeps its place. *)
Fixpoint mapSet (key : nat) (v : ToolCall) (m : list (nat * ToolCall)) : list (nat * ToolCall) :=
  match m with
  | [] => [(key, v)]
  | (k, w) :: rest => if Nat.eqb k key then (k, v) :: rest else (k, w) :: mapSet key v rest
  end.

(** [toolCalls.get(key).argsBuffer += more], nothing when the key is unknown. *)
Fixpoint appendArgs (key : nat) (more : string) (m : list (nat * ToolCall))
  : list (nat * ToolCall) :=
  match m with
  | [] => []
  | (k, w) :: rest =>
      if Nat.eqb k key
      then (k, {| callId := callId w; name := name w;
                  argsBuffer := argsBuffer w +:+ more |}) :: rest
      else (k, w) :: appendArgs key more rest
  end.

(** The body of the loop over [delta.tool_calls] for one entry. *)
Definition absorb (m : list (nat * ToolCall)) (tc : ToolCallDelta) : list (nat * ToolCall) :=
  let i := default 0%nat (index tc) in
  let m1 :=
    if truthyOptString (id tc)
    then mapSet i {| callId := default "" (id tc); name := functionName tc; argsBuffer := "" |} m
    else m in
  if truthyOptString (functionArguments tc)
  then appendArgs i (default "" (functionArguments tc)) m1
  else m1.

(** The properties of one element of [completedToolCalls], all strings;
    [JSON.stringify] leaves out a [name] that is undefined. *)
Definition completedMembers (tc : ToolCall) : list (string * string) :=
  [("id", callId tc)]
  ++ match name tc with Some n => [("name", n)] | None => [] end
  ++ [("arguments", argsBuffer tc)].

Definition completed (tc : ToolCall) : Json.document :=
  Json.JObject (List.map (fun kv => (fst kv, Json.JString (snd kv))) (completedMembers tc)).

(** The text yielded at the end of a stream that calls tools. *)
Definition toolCallsPayload (m : list (nat * ToolCall)) : string :=
  Json.stringify
    (Json.JObject [("__tool_calls", Json.JArray (List.map (fun kv => completed (snd kv)) m))]).

(** What [streamOpenAIResponse] yields for the chunks of the provider's
    stream, [toolCalls] being the map so far. *)
Fixpoint streamOpenAIResponse (toolCalls : list (nat * ToolCall)) (chunks : list StreamChunk)
  : list string :=
  match chunks with
  | [] => []
  | chunk :: rest =>
      let toolCalls1 :=
        match tool_calls chunk with
        | Some tcs => List.fold_left absorb tcs toolCalls
        | None => toolCalls
        end in
      (if truthyOptString (content chunk) then [default "" (content chunk)] else [])
      ++ (match finish_reason chunk with
          | Some reason =>
              if String.eqb reason "tool_calls" && negb (Nat.eqb (List.length toolCalls1) 0)
              then [toolCallsPayload toolCalls1] else []
          | None => []
          end)
      ++ streamOpenAIResponse toolCalls1 rest
  end.

Inductive Provider := openai | gemini.

(** What [streamResponse] yields: the OpenAI stream, or the whole reply of
    Gemini as one chunk. *)
Definition streamResponse (provider : Provider) (chunks : list StreamChunk)
    (geminiReply : string) : list string :=
  match provider with
  | openai => streamOpenAIResponse [] chunks
  | gemini => [geminiReply]
  end.

(** A stream that says a sentence and then calls the workspace tool, the
    arguments arriving in two pieces. *)
Definition calendarStream : list StreamChunk :=
  [ {| content := Some "Let me check that for you."; tool_calls := None;
       finish_reason := None |};
    {| content := None;
       tool_calls := Some [ {| index := Some 0%nat; id := Some "call_1";
                               functionName := Some "google_workspace_action";
                               functionArguments := Some "" |} ];
       finish_reason := None |};
    {| content := None;
       tool_calls := Some [ {| index := Some 0%nat; id := None; functionName := None;
                               functionArguments :=
                                 Some ("{" +:+ Json.quoted "action" +:+ ":"
                                       +:+ Json.quoted "calendar" +:+ ",") |} ];
       finish_reason := None |};
    {| content := None;
       tool_calls := Some [ {| index := Some 0%nat; id := None; functionName := None;
                               functionArguments :=
                                 Some (Json.quoted "request" +:+ ":"
                                       +:+ Json.quoted "What is on my calendar tomorrow"
                                       +:+ "}") |} ];
       finish_reason := None |};
    {| content := None; tool_calls := None; finish_reason := Some "tool_calls" |} ].

(** The tool call that stream completes. *)
Definition calendarCall : ToolCall :=
  {| callId := "call_1"; name := Some "google_workspace_action";
     argsBuffer :=
       Json.stringify
         (Json.JObject [("action", Json.JString "calendar");
                        ("request", Json.JString "What is on my calendar tomorrow")]) |}.

(** What the stream yields when that call completes. *)
Definition calendarPayload : string := toolCallsPayload [(0%nat, calendarCall)].

(** A call whose arguments the provider writes with an escape for a code unit
    above 255 and with a number that has a fraction: the object with the
    members [action], [request] and [priority], the request having a right
    single quotation mark, written as the escape u2019, and the priority
    being [1.5]. *)
Definition escapedArguments : string :=
  "{" +:+ Json.quoted "action" +:+ ":" +:+ Json.quoted "gmail" +:+ ","
  +:+ Json.quoted "request" +:+ ":"
  +:+ String Json.dquote
        ("Send John" +:+ String Json.backslash "u2019s report" +:+ String Json.dquote "")
  +:+ "," +:+ Json.quoted "priority" +:+ ":1.5}".

Definition escapedCall : ToolCall :=
  {| callId := "call_2"; name := Some "google_workspace_action";
     argsBuffer := escapedArguments |}.

End Llm.

(** ** One turn: [handleUserMessage] *)

Module Turn.
Import Server.

(** [String(v)] for a parsed value, as [JSON.parse] applies it to an argument
    that is not a string. *)
Fixpoint toJsString (v : Json.value) : Json.text :=
  match v with
  | Json.JNull => Json.units "null"
  | Json.JBool true => Json.units "true"
  | Json.JBool false => Json.units "false"
  | Json.JNumber x => Json.units (Double.toString x)
  | Json.JString s => s
  | Json.JArray items =>
      Json.join (Json.units ",")
        (List.map (fun x => match x with Json.JNull => [] | _ => toJsString x end) items)
  | Json.JObject _ => Json.units "[object Object]"
  end.

(** [JSON.parse(x)] for a property [x] that may be undefined. *)
Definition parseProperty (x : option Json.value) : option Json.value :=
  match x with
  | Some v => Json.read (toJsString v)
  | None => None
  end.

(** The flag of the pipeline controller as the turn sees it.  The flag can
    only change while the turn is suspended; [abortAt = Some a] says that it is
    set during the suspension number [a] of the turn, counting from 0, and
    [None] that it is never set or that there is no controller.  [k] is the
    number of the last suspension the turn has resumed from. *)
Definition isAborted (abortAt : option nat) (k : nat) : bool :=
  match abortAt with
  | Some a => Nat.leb a k
  | None => false
  end.

(** The test on a chunk that [includes('__tool_call')]: the value of
    [toolData.__tool_call] when the chunk parses and that property is truthy. *)
Definition toolCallIn (chunk : string) : option Json.value :=
  if JS.includes chunk "__tool_call" then
    match Json.parse chunk with
    | Some toolData =>
        match Json.property toolData "__tool_call" with
        | Some call => if Json.truthy call then Some call else None
        | None => None
        end
    | None => None
    end
  else None.

(** The variables of the turn while the stream is consumed. *)
Record Consumed `{Segmenter} := {
  fullResponse : string;
  toolCallDetected : option Json.value;
  detectorState : detector;
  effects : list Effect;
  suspensions : nat;
  leftEarly : bool
}.

(** The loop over the stream.  The chunk at hand was awaited in the suspension
    number [k].  The tests of the flag inside the loop body come after the one
    at its top with no suspension between, and give the same answer.
    [leftEarly] tells that the loop was left by [break], before the stream
    ended. *)
Fixpoint consume `{Segmenter} (socketId : string) (abortAt : option nat)
    (chunks : list string) (k : nat) (full : string) (call : option Json.value)
    (d : detector) (log : list Effect) : Consumed :=
  match chunks with
  | [] =>
      {| fullResponse := full; toolCallDetected := call; detectorState := d;
         effects := log; suspensions := k; leftEarly := false |}
  | chunk :: rest =>
      if isAborted abortAt k then
        {| fullResponse := full; toolCallDetected := call; detectorState := d;
           effects := log; suspensions := k; leftEarly := true |}
      else
        match toolCallIn chunk with
        | Some found => consume socketId abortAt rest (S k) full (Some found) d log
        | None =>
            let '(d1, sentences) := addChunk d chunk in
            consume socketId abortAt rest (S k) (full +:+ chunk) call d1
              (log ++ [AddChunk chunk]
               ++ List.flat_map
                    (fun sentence => [Emit socketId (AiResponse sentence true); Push sentence])
                    sentences)
        end
  end.

Definition acknowledgments : list string :=
  [ "On it, give me a moment.";
    "Let me check that for you.";
    "Sure thing, one second.";
    "Got it, checking now." ].

Definition errorMsg : string :=
  "Sorry, I couldn't process that request. Please try again.".

Definition failureEffects (socketId : string) : list Effect :=
  [ Emit socketId (ErrorEvent "Failed to generate response");
    Emit socketId (Status "Error - Please try again") ].

Definition isWorkspaceAction (call : Json.value) : bool :=
  match Json.property call "name" with
  | Some (Json.JString n) => Json.sameText n (Json.units "google_workspace_action")
  | _ => false
  end.

(** [handleUserMessage(socket, session, userMessage, pipeline)].

    [stream] is what the generation provider yields and [streamFails] tells
    whether it then throws, which the turn sees unless it left the stream;
    [abortAt] is the schedule of the abort flag; [tts] is the answer of the
    synthesis provider to a text, [None] for a failure; [random] is
    [Math.floor(Math.random() * 4)]; [now] is [Date.now()].  The result is the
    session object afterwards and what the turn did, the work of the worker
    excepted. *)
Definition handleUserMessage `{Segmenter} (socketId : string) (session : Session)
    (userMessage : string) (stream : list string) (streamFails : bool)
    (abortAt : option nat) (tts : string -> option string) (random : nat) (now : Z)
  : Session * list Effect :=
  let session1 := pushMessage user userMessage session in
  let start :=
    [ Emit socketId (Status "AI is thinking...");
      StreamResponse (conversationHistory session1) ] in
  let c := consume socketId abortAt stream 0 "" None newDetector start in
  if streamFails && negb (leftEarly c) then
    (session1, effects c ++ [CloseQueue; AwaitWorker] ++ failureEffects socketId)
  else
    let k := suspensions c in
    let remainder := getRemainder (detectorState c) in
    let flush := JS.truthyString remainder && negb (isAborted abortAt k) in
    let full := if flush then fullResponse c +:+ remainder else fullResponse c in
    let log :=
      effects c
      ++ (if flush then [Emit socketId (AiResponse remainder true); Push remainder] else [])
      ++ [CloseQueue; AwaitWorker] in
    let joined := S k in
    let finish :=
      if isAborted abortAt joined then (session1, log)
      else (pushMessage assistant full session1,
            log ++ [Emit socketId (Status "Listening...")]) in
    match toolCallDetected c with
    | Some call =>
        if negb (isAborted abortAt joined) && isWorkspaceAction call then
          match parseProperty (Json.property call "arguments") with
          | Some args =>
              let acknowledgment := nth random acknowledgments "" in
              (pushMessage assistant acknowledgment
                 (setPending
                    (Some {| toolCallId := Json.property call "id";
                             args := args; timestamp := now |})
                    session1),
               log
               ++ [ Emit socketId (AiResponse acknowledgment true);
                    Emit socketId (Status "Processing your request...");
                    TextToSpeech acknowledgment ]
               ++ match tts acknowledgment with
                  | Some audio => [Emit socketId (AudioResponse audio)]
                  | None => []
                  end
               ++ [ SendGoogleWorkspaceAction args socketId;
                    Emit socketId (Status "Listening...") ])
          | None =>
              (session1,
               log
               ++ [ Emit socketId (AiResponse errorMsg true); TextToSpeech errorMsg ]
               ++ match tts errorMsg with
                  | Some audio =>
                      [ Emit socketId (AudioResponse audio);
                        Emit socketId (Status "Listening...") ]
                  | None => failureEffects socketId
                  end)
          end
        else finish
    | None => finish
    end.

(** The effects by which a turn hands a request to the bridge. *)
Definition isDispatch (e : Effect) : bool :=
  match e with
  | SendGoogleWorkspaceAction _ _ => true
  | _ => false
  end.

End Turn.

(** ** The audio stream of a connection: the [audio-stream] handler *)

Module Audio.

(** The variables the connection handler keeps for the audio stream.
    [call-start] resets them to [reset]. *)
Record AudioState := {
  audioChunkCount : nat;
  audioBuffer : list string;
  deepgramReady : bool
}.

Definition reset : AudioState :=
  {| audioChunkCount := 0; audioBuffer := []; deepgramReady := false |}.

(** [audioBuffer.push(audioData)] followed by the safety limit: past 20
    chunks the oldest one is shifted out. *)
Definition bufferChunk (buffer : list string) (audioData : string) : list string :=
  let pushed := buffer ++ [audioData] in
  if Nat.ltb 20 (length pushed) then List.tl pushed else pushed.

(** One run of the handler for the chunk [audioData], a base64 text.
    [listening] tells whether [session.deepgram && session.isCallActive] holds
    and [readyState] is what [session.deepgram.getReadyState()] returns.  The
    result is the variables afterwards and the chunks handed to
    [session.deepgram.send], in order, each one decoded from base64 on the
    way. *)
Definition audioStream (st : AudioState) (audioData : string) (listening : bool)
    (readyState : nat) : AudioState * list string :=
  let count := S (audioChunkCount st) in
  if listening then
    if Nat.eqb readyState 1 then
      if negb (Nat.eqb (length (audioBuffer st)) 0) && negb (deepgramReady st) then
        ({| audioChunkCount := count; audioBuffer := []; deepgramReady := true |},
         audioBuffer st ++ [audioData])
      else
        ({| audioChunkCount := count; audioBuffer := audioBuffer st;
            deepgramReady := deepgramReady st |},
         [audioData])
    else
      ({| audioChunkCount := count;
          audioBuffer := bufferChunk (audioBuffer st) audioData;
          deepgramReady := deepgramReady st |},
       [])
  else
    ({| audioChunkCount := count; audioBuffer := audioBuffer st;
        deepgramReady := deepgramReady st |},
     []).

(** One arrival: the chunk and what the handler finds. *)
Record Arrival := {
  audioData : string;
  listening : bool;
  readyState : nat
}.

(** The handler over the arrivals of a call: the variables at the end and
    everything sent, in order. *)
Fixpoint receiveAll (st : AudioState) (arrivals : list Arrival) : AudioState * list string :=
  match arrivals with
  | [] => (st, [])
  | a :: rest =>
      let '(st1, sent) := audioStream st (audioData a) (listening a) (readyState a) in
      let '(st2, more) := receiveAll st1 rest in
      (st2, sent ++ more)
  end.

(** An arrival while the transcription socket is still connecting. *)
Definition connecting (chunk : string) : Arrival :=
  {| audioData := chunk; listening := true; readyState := 0 |}.

(** An arrival while it is open. *)
Definition open (chunk : string) : Arrival :=
  {| audioData := chunk; listening := true; readyState := 1 |}.

(** The last [n] elements of a list. *)
Definition lastN (n : nat) (l : list string) : list string :=
  List.skipn (length l - n) l.

End Audio.

(** ** Shapes of stream chunks *)

Module Deltas.
Import Llm.

(** What a chunk makes [streamOpenAIResponse] yield for its [delta.content]. *)
Definition textOf (chunk : StreamChunk) : list string :=
  if truthyOptString (content chunk) then [default "" (content chunk)] else [].

(** The chunk that opens the call [callId] at [index], as the provider sends
    it: id and function name, with or without a first piece of arguments. *)
Definition opening (i : nat) (callId : string) (functionName : option string)
    (first : option string) : StreamChunk :=
  {| content := None;
     tool_calls := Some [ {| index := Some i; id := Some callId;
                             functionName := functionName;
                             functionArguments := first |} ];
     finish_reason := None |}.

(** A chunk that carries one more piece of the arguments of the call at
    [index]. *)
Definition fragment (i : nat) (piece : string) : StreamChunk :=
  {| content := None;
     tool_calls := Some [ {| index := Some i; id := None; functionName := None;
                             functionArguments := Some piece |} ];
     finish_reason := None |}.

(** The last chunk of a stream that calls tools. *)
Definition finish : StreamChunk :=
  {| content := None; tool_calls := None; finish_reason := Some "tool_calls" |}.

(** The deltas of a chunk. *)
Definition deltasOf (chunk : StreamChunk) : list ToolCallDelta :=
  default [] (tool_calls chunk).

End Deltas.

(** ** Reading the log of a turn *)

Module TurnLog.
Import Server.

(** The items handed to the synthesis queue, in order. *)
Definition pushes (log : list Effect) : list string :=
  List.flat_map (fun e => match e with Push item => [item] | _ => [] end) log.

(** The texts sent to the client as [ai-response], in order. *)
Definition responses (log : list Effect) : list string :=
  List.flat_map
    (fun e => match e with Emit _ (AiResponse text _) => [text] | _ => [] end) log.

(** [ttsQueue.close()] and [await ttsWorkerPromise]. *)
Definition isQueueEnd (e : Effect) : bool :=
  match e with
  | CloseQueue | AwaitWorker => true
  | _ => false
  end.

(** What the loop over the stream does for a chunk: hand it to the detector,
    send a sentence to the client, queue a sentence. *)
Definition isStreaming (e : Effect) : bool :=
  match e with
  | AddChunk _ | Push _ | Emit _ (AiResponse _ true) => true
  | _ => false
  end.

(** What hands something to the detector or to the queue. *)
Definition feedsQueue (e : Effect) : bool :=
  match e with
  | AddChunk _ | Push _ => true
  | _ => false
  end.

(** The detector after the chunks of a stream. *)
Fixpoint fed `{Segmenter} (d : detector) (chunks : list string) : detector :=
  match chunks with
  | [] => d
  | chunk :: rest => fed (fst (addChunk d chunk)) rest
  end.

End TurnLog.

(** ** Starting a call: the [call-start] handler *)

Module Call.
Import Server.

Definition greetingText : string :=
  "Hey there! I'm Tessa from Apex Solutions. I'm here to help you learn about our AI automation platform. What can I help you with today?".

(** What the handler meets: whether [new DeepgramService()] returns, whether
    the registration of the callbacks and [connect()] succeed, the module's
    [prerecordedGreeting] ([None] for [null]) and what the synthesis provider
    answers for the greeting ([None] when it rejects). *)
Record Startup := {
  constructed : bool;
  connected : bool;
  prerecordedGreeting : option string;
  greetingAudio : option string
}.

Definition setCall (active service : bool) (s : Session) : Session :=
  {| conversationHistory := conversationHistory s; deepgram := service;
     isCallActive := active; lastActivity := lastActivity s;
     pendingWorkspaceAction := pendingWorkspaceAction s;
     disconnectedAt := disconnectedAt s |}.

Definition startFailed (id : string) : list Effect :=
  [Emit id (ErrorEvent "Failed to start call")].

(** The [call-start] handler of the socket [id] on its session object.  The
    greeting is sent as [ai-response] without a [partial] member, which is
    written [false] here. *)
Definition onCallStart (s : Session) (id : string) (w : Startup) : Session * list Effect :=
  let s1 := setCall true (deepgram s) s in
  if negb (constructed w) then (s1, startFailed id)
  else
    let s2 := setCall true true s in
    if negb (connected w) then (s2, startFailed id)
    else
      let s3 := pushMessage assistant greetingText s2 in
      let said := [ Emit id (Status "Connected - Start speaking!");
                    Emit id (AiResponse greetingText false) ] in
      if Llm.truthyOptString (prerecordedGreeting w) then
        (s3, said ++ [Emit id (AudioResponse (default "" (prerecordedGreeting w)))])
      else
        (s3, said ++ [TextToSpeech greetingText]
             ++ match greetingAudio w with
                | Some audio => [Emit id (AudioResponse audio)]
                | None => startFailed id
                end).

(** The HTTP answers of a handler. *)
Definition isRespond (e : Effect) : bool :=
  match e with
  | Respond _ => true
  | _ => false
  end.

(** What a handler sends to the socket [id]. *)
Definition sentTo (id : string) (log : list Effect) : list ClientEvent :=
  List.flat_map
    (fun e => match e with
              | Emit k ev => if String.eqb k id then [ev] else []
              | _ => []
              end) log.

End Call.

(** ** The bridge to the workflow engine: [WebhookService] *)

Module Webhook.

Record Service := {
  bookingWebhookUrl : option string;
  googleWorkspaceWebhookUrl : string;
  textChatWebhookUrl : string
}.

Definition defaultWorkspaceUrl : string :=
  "https://n8nsaved-production.up.railway.app/webhook/voiceaimcp".

(** [new WebhookService()]; the arguments are the values of
    [process.env.N8N_WEBHOOK_URL] and
    [process.env.N8N_GOOGLE_WORKSPACE_WEBHOOK_URL], [None] when unset. *)
Definition create (bookingEnv workspaceEnv : option string) : Service :=
  {| bookingWebhookUrl := bookingEnv;
     googleWorkspaceWebhookUrl :=
       if Llm.truthyOptString workspaceEnv then default "" workspaceEnv
       else defaultWorkspaceUrl;
     textChatWebhookUrl := "https://n8nsaved-production.up.railway.app/webhook/textchat" |}.

(** A call of [axios.post]: the address, the members of the body in order
    and the timeout. *)
Record Request := {
  url : string;
  body : list (string * Json.value);
  timeout : Z
}.

(** How a method of the service ends: it returns [{ success: true, data }] or
    throws an error with a message. *)
Inductive Outcome :=
| Sent (data : Json.value)
| Failed (message : string).

(** One member of a body; one whose value is [undefined] is left out when the
    body is serialised. *)
Definition member (key : string) (v : option Json.value) : list (string * Json.value) :=
  match v with
  | Some x => [(key, x)]
  | None => []
  end.

(** [sendGoogleWorkspaceAction(actionData, sessionId)].  [post] is what
    [axios.post] answers, [None] when it throws; [timestamp] is
    [new Date().toISOString()].  Reading a property of [null] throws inside the
    [try], before the call of [axios.post]. *)
Definition sendGoogleWorkspaceAction (service : Service)
    (post : Request -> option Json.value) (timestamp : string)
    (actionData : Json.value) (sessionId : string) : list Request * Outcome :=
  match actionData with
  | Json.JNull => ([], Failed "Failed to execute Google Workspace action")
  | _ =>
      let request :=
        {| url := googleWorkspaceWebhookUrl service;
           body := [ ("sessionId", Json.JString (Json.units sessionId));
                     ("userId", Json.JString (Json.units sessionId)) ]
                   ++ member "action" (Json.property actionData "action")
                   ++ member "request" (Json.property actionData "request")
                   ++ [ ("timestamp", Json.JString (Json.units timestamp)) ];
           timeout := 30000 |} in
      ([request],
       match post request with
       | Some data => Sent data
       | None => Failed "Failed to execute Google Workspace action"
       end)
  end.

(** [sendBooking(bookingData)] *)
Definition sendBooking (service : Service) (post : Request -> option Json.value)
    (timestamp : string) (bookingData : Json.value) : list Request * Outcome :=
  if negb (Llm.truthyOptString (bookingWebhookUrl service)) then
    ([], Failed "Booking webhook URL not configured")
  else
    match bookingData with
    | Json.JNull => ([], Failed "Failed to register booking")
    | _ =>
        let request :=
          {| url := default "" (bookingWebhookUrl service);
             body := member "name" (Json.property bookingData "name")
                     ++ member "datetime" (Json.property bookingData "datetime")
                     ++ member "details" (Json.property bookingData "details")
                     ++ [ ("timestamp", Json.JString (Json.units timestamp)) ];
             timeout := 10000 |} in
        ([request],
         match post request with
         | Some data => Sent data
         | None => Failed "Failed to register booking"
         end)
    end.

(** The requests the service makes for the dispatches of a log. *)
Definition requestsOf (service : Service) (post : Request -> option Json.value)
    (timestamp : string) (log : list Server.Effect) : list Request :=
  List.flat_map
    (fun e => match e with
              | Server.SendGoogleWorkspaceAction actionData sessionId =>
                  fst (sendGoogleWorkspaceAction service post timestamp actionData sessionId)
              | _ => []
              end) log.

(** A value of a body as the receiver reads it. *)
Definition read (request : Request) (key : string) : option Json.value :=
  Json.lookupMember String.eqb key (body request).

End Webhook.

(** ** Subscriptions: the billing service *)

Module Billing.

(** A row of the table [subscriptions], with the columns the service reads
    back.  A time is the time value, in milliseconds, of the stored ISO
    string; [None] is [null]. *)
Record Row := {
  stripe_customer_id : option string;
  stripe_subscription_id : option string;
  plan_type : option string;
  status : option string;
  trial_ends_at : option Z;
  current_period_end : option Z;
  cancel_at_period_end : option bool
}.

(** The columns of an [update]; [None] for a column it does not set.  A time
    is the time value of the ISO string sent. *)
Record Changes := {
  setSubscriptionId : option string;
  setStatus : option string;
  setTrialEndsAt : option Z;
  setCurrentPeriodStart : option Z;
  setCurrentPeriodEnd : option Z;
  setCancelAtPeriodEnd : option bool
}.

(** [supabase.from('subscriptions').update(changes).eq('user_id', userId)] *)
Inductive Write :=
| Update (userId : string) (changes : Changes).

Definition statusOnly (s : string) : Changes :=
  {| setSubscriptionId := None; setStatus := Some s; setTrialEndsAt := None;
     setCurrentPeriodStart := None; setCurrentPeriodEnd := None;
     setCancelAtPeriodEnd := None |}.

(** What an update does to the row of the user [userId], in the columns that
    are read back: it sets the columns it names when it selects that user, and
    nothing otherwise. *)
Definition apply (userId : string) (row : Row) (w : Write) : Row :=
  match w with
  | Update u changes =>
      if String.eqb u userId then
        {| stripe_customer_id := stripe_customer_id row;
           stripe_subscription_id :=
             match setSubscriptionId changes with
             | Some x => Some x
             | None => stripe_subscription_id row
             end;
           plan_type := plan_type row;
           status := match setStatus changes with
                     | Some x => Some x
                     | None => status row
                     end;
           trial_ends_at := match setTrialEndsAt changes with
                            | Some x => Some x
                            | None => trial_ends_at row
                            end;
           current_period_end := match setCurrentPeriodEnd changes with
                                 | Some x => Some x
                                 | None => current_period_end row
                                 end;
           cancel_at_period_end := match setCancelAtPeriodEnd changes with
                                   | Some x => Some x
                                   | None => cancel_at_period_end row
                                   end |}
      else row
  end.

(** What [getSubscriptionStatus] returns; [trialExpired] is [false] where the
    object has no such member. *)
Record Report := {
  hasSubscription : bool;
  reportedStatus : option string;
  planType : option string;
  trialExpired : bool;
  trialEndsAt : option Z;
  currentPeriodEnd : option Z;
  cancelAtPeriodEnd : option bool
}.

Definition statusIs (row : Row) (s : string) : bool :=
  match status row with
  | Some x => String.eqb x s
  | None => false
  end.

(** [getSubscriptionStatus(userId)].  [selected] is the row the query
    returns, [None] when it answers with an error or without a row; [now] is
    the time value of [new Date()]. *)
Definition getSubscriptionStatus (userId : string) (selected : option Row) (now : Z)
  : Report * list Write :=
  match selected with
  | None =>
      ({| hasSubscription := false; reportedStatus := Some "none"; planType := None;
          trialExpired := false; trialEndsAt := None; currentPeriodEnd := None;
          cancelAtPeriodEnd := None |}, [])
  | Some row =>
      let expired :=
        statusIs row "trialing"
        && match trial_ends_at row with
           | Some trialEnd => Z.ltb trialEnd now
           | None => false
           end in
      if expired then
        ({| hasSubscription := false; reportedStatus := Some "expired";
            planType := plan_type row; trialExpired := true; trialEndsAt := None;
            currentPeriodEnd := None; cancelAtPeriodEnd := None |},
         [Update userId (statusOnly "expired")])
      else
        ({| hasSubscription := statusIs row "active" || statusIs row "trialing";
            reportedStatus := status row; planType := plan_type row;
            trialExpired := false; trialEndsAt := trial_ends_at row;
            currentPeriodEnd := current_period_end row;
            cancelAtPeriodEnd := cancel_at_period_end row |}, [])
  end.

(** A time of a Stripe object: a whole number of seconds, [null], or no such
    property. *)
Inductive Seconds :=
| Missing
| Null
| At (seconds : Z).

(** A Stripe subscription, with what the handlers read: [metadataUserId] is
    [metadata.supabase_user_id], [None] when the metadata have no such
    member. *)
Record Subscription := {
  subscriptionId : string;
  metadataUserId : option string;
  subscriptionStatus : string;
  trial_end : Seconds;
  period_start : Seconds;
  period_end : Seconds;
  cancels : bool
}.

(** Whether a time is truthy: a number other than zero. *)
Definition truthySeconds (x : Seconds) : bool :=
  match x with
  | At t => JS.truthyNumber t
  | _ => false
  end.

(** The time value of [new Date(x * 1000)], [None] for an invalid date:
    [undefined * 1000] is [NaN], [null * 1000] is [0], and a time value beyond
    8.64e15 ms either way is no date. *)
Definition dateOf (x : Seconds) : option Z :=
  match x with
  | Missing => None
  | Null => Some 0
  | At t => if Z.leb (Z.abs (t * 1000)) 8640000000000000 then Some (t * 1000) else None
  end.

(** [handleSubscriptionUpdate(subscription)]; [None] when it throws, which it
    does when [toISOString] is called on an invalid date (a [RangeError]),
    before anything is written. *)
Definition handleSubscriptionUpdate (subscription : Subscription)
  : option (list Write) :=
  if Llm.truthyOptString (metadataUserId subscription) then
    let periodStart := dateOf (period_start subscription) in
    let periodEnd := dateOf (period_end subscription) in
    let trialEnd :=
      if truthySeconds (trial_end subscription)
      then Some (dateOf (trial_end subscription)) else None in
    match trialEnd with
    | Some None => None
    | _ =>
        match periodStart, periodEnd with
        | Some periodStart, Some periodEnd =>
            Some [ Update (default "" (metadataUserId subscription))
                     {| setSubscriptionId := Some (subscriptionId subscription);
                        setStatus := Some (subscriptionStatus subscription);
                        setTrialEndsAt := mjoin trialEnd;
                        setCurrentPeriodStart := Some periodStart;
                        setCurrentPeriodEnd := Some periodEnd;
                        setCancelAtPeriodEnd := Some (cancels subscription) |} ]
        | _, _ => None
        end
    end
  else Some [].

(** The three handlers that only set the status. *)
Definition setStatusFor (subscription : Subscription) (s : string) : list Write :=
  if Llm.truthyOptString (metadataUserId subscription) then
    [Update (default "" (metadataUserId subscription)) (statusOnly s)]
  else [].

(** [handleWebhook(event)].  [subscription] is [event.data.object] for an
    event about a subscription and what [stripe.subscriptions.retrieve]
    answers for an event about an invoice, [None] when that call throws, in
    which case the handler throws too. *)
Definition handleWebhook (type : string) (subscription : option Subscription)
  : option (list Write) :=
  if String.eqb type "customer.subscription.created"
     || String.eqb type "customer.subscription.updated" then
    subscription ≫= handleSubscriptionUpdate
  else if String.eqb type "customer.subscription.deleted" then
    (fun s => setStatusFor s "canceled") <$> subscription
  else if String.eqb type "invoice.payment_succeeded" then
    (fun s => setStatusFor s "active") <$> subscription
  else if String.eqb type "invoice.payment_failed" then
    (fun s => setStatusFor s "past_due") <$> subscription
  else Some [].

(** The row of a user after some writes. *)
Definition written (userId : string) (row : Row) (writes : list Write) : Row :=
  List.fold_left (apply userId) writes row.

(** A user on a trial that ended at [trialEnd]. *)
Definition trialRow (trialEnd : Z) : Row :=
  {| stripe_customer_id := None; stripe_subscription_id := None;
     plan_type := Some "trial"; status := Some "trialing";
     trial_ends_at := Some trialEnd; current_period_end := Some trialEnd;
     cancel_at_period_end := None |}.

(** A paid subscription as Stripe sends it, and the same without the start of
    its period. *)
Definition paidSubscription : Subscription :=
  {| subscriptionId := "sub_1"; metadataUserId := Some "user-1";
     subscriptionStatus := "active"; trial_end := Null;
     period_start := At 1700000000; period_end := At 1702592000;
     cancels := false |}.

Definition undatedSubscription : Subscription :=
  {| subscriptionId := "sub_1"; metadataUserId := Some "user-1";
     subscriptionStatus := "active"; trial_end := Null;
     period_start := Missing; period_end := At 1702592000;
     cancels := false |}.

End Billing.

(** * Properties *)

(** ** String primitives *)

Lemma startsWith_empty text : JS.startsWith text "" = true.
Proof. unfold JS.startsWith. destruct text; reflexivity. Qed.

(** ** The transcript handler *)

Section TriggerFacts.
Import Trigger.

(** The handler has three kinds of result: a barge-in, a trigger, nothing. *)
Lemma onTranscript_cases st d now :
  let '(st', acts) := onTranscript st d now in
  (bargeInDetected st d = true /\ acts = [EmitBargeIn] /\ aiSpeaking st' = false)
  \/ (bargeInDetected st d = false /\ isProcessing st = false
      /\ currentPipeline st' = Some (nextPipeline st)
      /\ isAborted st' (nextPipeline st) = false
      /\ acts = [EmitTranscript (text d); StartTurn (text d) (nextPipeline st)]
      /\ String.eqb (text d) (lastProcessedText st) = false
      /\ Z.ltb (now - lastTriggerTime st) 500 = false
      /\ lastTriggerTime st' = now /\ lastProcessedText st' = text d)
  \/ (bargeInDetected st d = false /\ acts = []
      /\ lastTriggerTime st' = lastTriggerTime st
      /\ lastProcessedText st' = lastProcessedText st
      /\ aiSpeaking st' = aiSpeaking st
      /\ currentPipeline st' = currentPipeline st
      /\ abortedFlags st' = abortedFlags st).
Proof.
  unfold onTranscript.
  destruct (bargeInDetected st d) eqn:Hb; [left; done|].
  destruct (isProcessing st) eqn:Hp; [right; right; done|].
  destruct (String.eqb (text d) (lastProcessedText st)) eqn:Hs; cbn [orb];
    [right; right; done|].
  destruct (Z.ltb (now - lastTriggerTime st) 500) eqn:Hr; [right; right; done|].
  destruct (shouldTrigger d && _) eqn:Ht; [right; left|right; right; done].
  repeat split; try done. unfold isAborted; cbn. by rewrite lookup_insert_eq.
Qed.

(** A trigger is at least 500 ms after the recorded trigger time, on a text
    other than the recorded one, and records its own time and text. *)
Lemma fired_step st e st' now x p :
  step st e = (st', Fired now x p) ->
  500 <= now - lastTriggerTime st
  /\ x <> lastProcessedText st
  /\ lastTriggerTime st' = now
  /\ lastProcessedText st' = x.
Proof.
  destruct e as [d t|q]; cbn [step]; [|intros [= _ ?]; done].
  pose proof (onTranscript_cases st d t) as H.
  destruct (onTranscript st d t) as [st1 acts].
  destruct H as [(_ & -> & _)|[(_ & _ & _ & _ & -> & Hs & Hr & Ht & Hx)|(_ & -> & _)]];
    intros [= <- <- <- _]; try done.
  apply String.eqb_neq in Hs. apply Z.ltb_ge in Hr. done.
Qed.

(** Any other step that is not a barge-in keeps the recorded trigger time,
    and keeps the recorded text unless it is the un-aborted end of a turn. *)
Lemma quiet_step st e st' o :
  step st e = (st', o) ->
  isFired o = false -> isInterrupted o = false ->
  lastTriggerTime st' = lastTriggerTime st
  /\ (isCleared o = false -> lastProcessedText st' = lastProcessedText st).
Proof.
  destruct e as [d t|q]; cbn [step].
  - pose proof (onTranscript_cases st d t) as H.
    destruct (onTranscript st d t) as [st1 acts].
    destruct H as [(_ & -> & _)|[(_ & _ & _ & _ & -> & _)|(_ & -> & Ht & Hx & _)]];
      intros [= <- <-]; try done.
  - intros [= <- <-] _ _. split; [done|].
    cbn. destruct (isAborted st q); done.
Qed.

Lemma run_cons st e es :
  run st (e :: es) =
  (fst (run (fst (step st e)) es), snd (step st e) :: snd (run (fst (step st e)) es)).
Proof.
  cbn [run]. destruct (step st e) as [st1 o]. cbn [fst snd].
  destruct (run st1 es); done.
Qed.

Lemma outcomes_cons st e es :
  outcomes st (e :: es) = snd (step st e) :: outcomes (fst (step st e)) es.
Proof. unfold outcomes. rewrite run_cons. done. Qed.

Lemma next_trigger_after es : forall st mid t2 x2 p2 rest,
  outcomes st es = (mid ++ Fired t2 x2 p2 :: rest) ->
  forallb quiet mid = true ->
  500 <= t2 - lastTriggerTime st
  /\ (forallb (fun o => negb (isCleared o)) mid = true ->
      x2 <> lastProcessedText st).
Proof.
  induction es as [|e es IH]; intros st mid t2 x2 p2 rest Hout Hq.
  { destruct mid; discriminate. }
  rewrite outcomes_cons in Hout.
  destruct (step st e) as [st1 o] eqn:Hstep; cbn [fst snd] in Hout.
  destruct mid as [|o' mid]; cbn in Hout; injection Hout as -> Hout.
  - apply fired_step in Hstep. destruct Hstep as (H1 & H2 & _). auto.
  - cbn in Hq. apply andb_prop in Hq as [Ho Hq].
    unfold quiet in Ho. apply andb_prop in Ho as [Hf Hi].
    apply negb_true_iff in Hf, Hi.
    destruct (quiet_step _ _ _ _ Hstep Hf Hi) as [Ht Hx].
    destruct (IH st1 mid t2 x2 p2 rest Hout Hq) as [IH1 IH2].
    rewrite Ht in IH1. split; [done|].
    cbn. intros Hc. apply andb_prop in Hc as [Hc1 Hc2].
    apply negb_true_iff in Hc1. rewrite <- (Hx Hc1). auto.
Qed.

Lemma speakingHasPipeline_step st e :
  speakingHasPipeline st -> speakingHasPipeline (fst (step st e)).
Proof.
  intros Inv. destruct e as [d t|q]; cbn [step]; [|intros ?; done].
  pose proof (onTranscript_cases st d t) as H.
  destruct (onTranscript st d t) as [st1 acts]; cbn [fst].
  destruct H as [(_ & _ & Hs)|[(_ & _ & Hc & Ha & _)|(_ & _ & _ & _ & Hs & Hc & Hf)]].
  - intros Hsp. rewrite Hs in Hsp. discriminate.
  - intros _. eauto.
  - intros Hsp. rewrite Hs in Hsp. destruct (Inv Hsp) as (p & Hp & Ha).
    exists p. unfold isAborted in *. rewrite Hc, Hf. done.
Qed.

Lemma speakingHasPipeline_run es : forall st,
  speakingHasPipeline st -> speakingHasPipeline (fst (run st es)).
Proof.
  induction es as [|e es IH]; intros st Inv; [done|].
  rewrite run_cons; cbn [fst]. apply IH, speakingHasPipeline_step, Inv.
Qed.

(** The thresholds of [shouldTrigger] are the doubles its literals denote. *)
Lemma thresholds_are_doubles :
  Double.exact (Double.ofDecimal false 85 (-2)) = Some confidence085
  /\ Double.exact (Double.ofDecimal false 8 (-1)) = Some confidence08
  /\ Double.exact (Double.ofDecimal false 9375 (-4)) = Some (confidence (finalEvent ""))
  /\ Double.exact (Double.ofDecimal false 625 (-3)) = Some (confidence (interimEvent "")).
Proof. vm_compute. done. Qed.

(** While the flag [aiSpeaking] is set: in the course of any call, when a
    transcript event arrives while the flag is set, its trimmed text is longer
    than 5 and it does not start with the last processed text, the handler
    aborts the installed pipeline controller (which had not been aborted),
    emits the barge-in signal once and nothing else, sets the transcript
    buffer to the event's text, clears the last processed text and the last
    trigger time, and starts no turn. *)
Lemma barge_in_when_flag_set (history : list Event) (d : TranscriptData) (now : Z) :
  let st := fst (run initial history) in
  aiSpeaking st = true ->
  5 < Z.of_nat (String.length (JS.trim (text d))) ->
  JS.startsWith (text d) (lastProcessedText st) = false ->
  exists p,
    currentPipeline st = Some p
    /\ isAborted st p = false
    /\ isAborted (fst (onTranscript st d now)) p = true
    /\ snd (onTranscript st d now) = [EmitBargeIn]
    /\ (forall t q, StartTurn t q ∉ snd (onTranscript st d now))
    /\ snd (step st (Transcript d now)) = Interrupted
    /\ transcriptBuffer (fst (onTranscript st d now)) = text d
    /\ lastProcessedText (fst (onTranscript st d now)) = ""
    /\ lastTriggerTime (fst (onTranscript st d now)) = 0
    /\ currentPipeline (fst (onTranscript st d now)) = None
    /\ aiSpeaking (fst (onTranscript st d now)) = false
    /\ isProcessing (fst (onTranscript st d now)) = false.
Proof.
  intros st Hsp Hlen Hpre.
  assert (Inv : speakingHasPipeline st).
  { apply speakingHasPipeline_run. intros ?; discriminate. }
  destruct (Inv Hsp) as (p & Hp & Ha). exists p.
  assert (Hb : bargeInDetected st d = true).
  { unfold bargeInDetected. rewrite Hsp, Hpre.
    apply Z.ltb_lt in Hlen. rewrite Hlen. done. }
  cbn [step]. unfold onTranscript. rewrite Hb, Hp. cbn [fst snd].
  repeat split; try done.
  - unfold isAborted; cbn. by rewrite lookup_insert_eq.
  - intros t q Hin. apply list_elem_of_singleton in Hin. discriminate.
Qed.

(** The installed controller belongs to a turn that was started with the flag
    [aiSpeaking] and that was not aborted. *)
Lemma installed_step st e :
  (forall p, currentPipeline st = Some p -> aiSpeaking st = true /\ isAborted st p = false) ->
  forall p, currentPipeline (fst (step st e)) = Some p ->
            aiSpeaking (fst (step st e)) = true /\ isAborted (fst (step st e)) p = false.
Proof.
  intros Inv p. destruct e as [d t|q]; cbn [step]; [|done].
  unfold onTranscript.
  destruct (bargeInDetected st d); [done|].
  destruct (isProcessing st); [apply Inv|].
  destruct (_ || _); cbn [fst].
  { unfold isAborted. cbn. apply Inv. }
  destruct (_ && _); cbn [fst].
  - cbn. intros [= <-]. split; [done|].
    unfold isAborted; cbn. by rewrite lookup_insert_eq.
  - unfold isAborted. cbn. apply Inv.
Qed.

Lemma installed_run es : forall st,
  (forall p, currentPipeline st = Some p -> aiSpeaking st = true /\ isAborted st p = false) ->
  forall p, currentPipeline (fst (run st es)) = Some p ->
            aiSpeaking (fst (run st es)) = true /\ isAborted (fst (run st es)) p = false.
Proof.
  induction es as [|e es IH]; intros st Inv; [done|].
  rewrite run_cons; cbn [fst]. apply IH. by apply installed_step.
Qed.

(** C3. The claim holds while the flag [aiSpeaking] is set, and the flag is
    not set whenever the assistant is speaking.  In the course of any call,
    let turn [p] be the one whose controller is installed: it is speaking and
    was not aborted.  When the [finally] callback of another turn [q] runs
    (an earlier turn that a barge-in had interrupted), it clears the flag and
    uninstalls the controller, although turn [p] goes on speaking.  From then
    on a transcript event is not taken for an interruption, whatever its
    text: no barge-in signal is emitted, the event is not recorded as an
    interruption and turn [p] is not aborted. *)
Theorem barge_in_missed_after_replaced_turn_ends
    (history : list Event) (p q : nat) (d : TranscriptData) (now : Z) :
  let st := fst (run initial history) in
  let st' := turnFinished st q in
  currentPipeline st = Some p ->
  q <> p ->
  (aiSpeaking st = true /\ isAborted st p = false)
  /\ (aiSpeaking st' = false /\ currentPipeline st' = None /\ isAborted st' p = false)
  /\ bargeInDetected st' d = false
  /\ (EmitBargeIn ∉ snd (onTranscript st' d now))
  /\ isInterrupted (snd (step st' (Transcript d now))) = false
  /\ isAborted (fst (onTranscript st' d now)) p = false
  /\ transcriptBuffer (fst (onTranscript st' d now))
     = (if isFired (snd (step st' (Transcript d now))) then "" else text d).
Proof.
  intros st st' Hcur Hne.
  assert (Hsp : aiSpeaking st = true /\ isAborted st p = false).
  { apply (installed_run history initial); [intros ?; discriminate|done]. }
  destruct Hsp as [Hsp Ha].
  assert (Ha' : isAborted st' p = false) by done.
  split; [done|]. split; [done|].
  assert (Hb : bargeInDetected st' d = false) by done.
  split; [done|].
  cbn [step]. unfold onTranscript. rewrite Hb.
  change (isProcessing st') with false. cbv iota.
  destruct (_ || _); cbn [fst snd].
  { repeat split; try done. rewrite list_elem_of_In. cbn. tauto. }
  destruct (_ && _); cbn [fst snd].
  - repeat split; try done.
    + rewrite list_elem_of_In. cbn. intuition discriminate.
    + unfold isAborted in *. cbn.
      destruct (decide (nextPipeline st = p)) as [->|Hn].
      * by rewrite lookup_insert_eq.
      * by rewrite lookup_insert_ne.
  - repeat split; try done. rewrite list_elem_of_In. cbn. tauto.
Qed.

Lemma barge_in_missed_after_replaced_turn_ends_witness :
  outcomes initial bargeInRun
  = [Fired 1700000001000 "Hello there." 0; Interrupted;
     Fired 1700000001200 "wait stop please" 1]
  /\ aiSpeaking (turnFinished (fst (run initial bargeInRun)) 0) = false
  /\ snd (step (turnFinished (fst (run initial bargeInRun)) 0)
            (Transcript (interimEvent "no no cancel that") 1700000001500))
     = Ignored
  /\ snd (step (turnFinished (fst (run initial bargeInRun)) 0)
            (Transcript (finalEvent "no no cancel that") 1700000001900))
     = Fired 1700000001900 "no no cancel that" 2
  /\ (EmitBargeIn ∉ snd (onTranscript (turnFinished (fst (run initial bargeInRun)) 0)
                           (finalEvent "no no cancel that") 1700000001900))
  /\ isAborted (fst (onTranscript (turnFinished (fst (run initial bargeInRun)) 0)
                       (finalEvent "no no cancel that") 1700000001900)) 1
     = false.
Proof.
  split; [vm_compute; reflexivity|].
  destruct (barge_in_missed_after_replaced_turn_ends bargeInRun 1 0
              (finalEvent "no no cancel that") 1700000001900)
    as (_ & (Hflag & _ & _) & _ & Hemit & _ & Hkept & _);
    [vm_compute; reflexivity | lia |].
  split; [exact Hflag|].
  split; [vm_compute; reflexivity|].
  split; [vm_compute; reflexivity|].
  exact (conj Hemit Hkept).
Defined.

(** The outcomes of one call of a session are the outcomes of a run of the
    callback of that call, on the events that reach it. *)
Lemma callOutcomes_run (k : nat) (es : list SessionEvent) : forall calls,
  exists evs,
    callOutcomes k (snd (sessionRun calls es))
    = outcomes (default initial (calls !! k)) evs.
Proof.
  induction es as [|[|j e] es IH]; intros calls.
  - by exists [].
  - cbn [sessionRun]. destruct (IH (calls ++ [initial])) as [evs Hevs].
    exists evs. rewrite Hevs. f_equal.
    destruct (decide (k < length calls)%nat) as [Hlt|Hge].
    + by rewrite lookup_app_l.
    + rewrite lookup_app_r by lia. rewrite (lookup_ge_None_2 calls k) by lia.
      by destruct (k - length calls)%nat.
  - cbn [sessionRun]. destruct (calls !! j) as [st|] eqn:Hj; [|apply IH].
    destruct (step st e) as [st1 o] eqn:Hstep.
    destruct (IH (<[j := st1]> calls)) as [evs Hevs].
    destruct (sessionRun (<[j := st1]> calls) es) as [final os].
    cbn [snd] in *. unfold callOutcomes in *.
    destruct (decide (j = k)) as [->|Hjk].
    + exists (e :: evs). rewrite Hj.
      change (default initial (Some st)) with st.
      rewrite outcomes_cons, Hstep. cbn [fst snd omap list_omap].
      rewrite Nat.eqb_refl. f_equal.
      change (list_omap _ _ ?f os) with (omap f os). rewrite Hevs.
      rewrite list_lookup_insert_eq; [done|]. by apply lookup_lt_Some in Hj.
    + exists evs. cbn [fst snd omap list_omap].
      rewrite (proj2 (Nat.eqb_neq j k) Hjk).
      change (list_omap _ _ ?f os) with (omap f os). rewrite Hevs.
      by rewrite list_lookup_insert_ne.
Qed.

(** In any run of the callback of a call from any state, when two triggers
    follow each other with no barge-in between them, the second comes at least
    500 ms after the first; and its text differs from the first one's unless,
    between them, a turn finished without having been aborted. *)
Lemma spaced_from_any_state
    (st : CallState) (es : list Event) (pre mid rest : list Outcome)
    (t1 t2 : Z) (x1 x2 : string) (p1 p2 : nat) :
  outcomes st es = (pre ++ Fired t1 x1 p1 :: mid ++ Fired t2 x2 p2 :: rest) ->
  forallb quiet mid = true ->
  500 <= t2 - t1
  /\ (forallb (fun o => negb (isCleared o)) mid = true -> x2 <> x1).
Proof.
  revert st es. induction pre as [|o pre IH]; intros st es Hout Hq.
  - destruct es as [|e es]; [discriminate|].
    rewrite outcomes_cons in Hout.
    destruct (step st e) as [st1 o] eqn:Hstep; cbn [fst snd] in Hout.
    cbn in Hout. injection Hout as -> Hout.
    apply fired_step in Hstep. destruct Hstep as (_ & _ & Ht & Hx).
    destruct (next_trigger_after _ _ _ _ _ _ _ Hout Hq) as [H1 H2].
    rewrite Ht in H1. rewrite Hx in H2. done.
  - destruct es as [|e es]; [discriminate|].
    rewrite outcomes_cons in Hout. cbn in Hout. injection Hout as _ Hout.
    eapply IH; eauto.
Qed.

(** C2, as the code has it. Take any sequence of call starts, transcript
    events and turn completions of one session, and any one of its calls, that
    is, the callback that one run of [call-start] installs.  When two triggers
    of that call follow each other with no barge-in of that call between them,
    the second comes at least 500 ms after the first; and its text differs
    from the first one's unless, between them, a turn of that call finished
    without having been aborted (which clears the recorded text, as a barge-in
    does). *)
Theorem triggers_spaced_unless_interrupted
    (es : list SessionEvent) (call : nat) (pre mid rest : list Outcome)
    (t1 t2 : Z) (x1 x2 : string) (p1 p2 : nat) :
  callOutcomes call (sessionOutcomes es)
  = (pre ++ Fired t1 x1 p1 :: mid ++ Fired t2 x2 p2 :: rest) ->
  forallb quiet mid = true ->
  500 <= t2 - t1
  /\ (forallb (fun o => negb (isCleared o)) mid = true -> x2 <> x1).
Proof.
  unfold sessionOutcomes.
  destruct (callOutcomes_run call es []) as [evs ->].
  apply spaced_from_any_state.
Qed.

Lemma triggers_spaced_unless_interrupted_witness :
  sessionOutcomes (CallStart :: map (OnCall 0) replacedRun)
  = [(0%nat, Fired 1700000001000 "Hello there." 0); (0%nat, Interrupted);
     (0%nat, Fired 1700000001200 "wait stop please" 1); (0%nat, Finished 0 false);
     (0%nat, Ignored); (0%nat, Fired 1700000001900 "Tell me about pricing." 2)]
  /\ 500 <= 1700000001900 - 1700000001200
  /\ String.eqb "Tell me about pricing." "wait stop please" = false.
Proof.
  split; [vm_compute; reflexivity|].
  destruct (triggers_spaced_unless_interrupted
              (CallStart :: map (OnCall 0) replacedRun) 0
              [Fired 1700000001000 "Hello there." 0; Interrupted]
              [Finished 0 false; Ignored] []
              1700000001200 1700000001900 "wait stop please" "Tell me about pricing." 1 2)
    as [Hgap Htext]; [vm_compute; reflexivity | reflexivity |].
  split; [exact Hgap|].
  apply String.eqb_neq, Htext. reflexivity.
Defined.

(** C2, as stated, fails on three runs.  After a barge-in the cooldown is
    reset, so the interrupting utterance triggers 200 ms after the interrupted
    one.  Once a turn has finished un-aborted the recorded text is cleared, so
    the same text triggers again.  And a second [call-start] of the session
    installs a callback with a cooldown and a recorded text of its own, so
    the two calls trigger 400 ms apart on the same text, with no barge-in and
    no turn completion at all. *)
Lemma triggers_not_always_spaced :
  triggers (outcomes initial bargeInRun)
    = [(1700000001000, "Hello there."); (1700000001200, "wait stop please")]
  /\ ~ triggersSpaced (triggers (outcomes initial bargeInRun))
  /\ triggers (outcomes initial repeatRun)
     = [(1700000001000, "Yes."); (1700000002000, "Yes.")]
  /\ ~ triggersDistinct (triggers (outcomes initial repeatRun))
  /\ sessionOutcomes twoCallsRun
     = [(0%nat, Fired 1700000001000 "Hello there." 0);
        (1%nat, Fired 1700000001400 "Hello there." 0)]
  /\ ~ triggersSpaced (triggers (sessionOutcomes twoCallsRun).*2)
  /\ ~ triggersDistinct (triggers (sessionOutcomes twoCallsRun).*2).
Proof.
  assert (H1 : triggers (outcomes initial bargeInRun)
               = [(1700000001000, "Hello there."); (1700000001200, "wait stop please")])
    by (vm_compute; reflexivity).
  assert (H2 : triggers (outcomes initial repeatRun)
               = [(1700000001000, "Yes."); (1700000002000, "Yes.")])
    by (vm_compute; reflexivity).
  assert (H3 : sessionOutcomes twoCallsRun
               = [(0%nat, Fired 1700000001000 "Hello there." 0);
                  (1%nat, Fired 1700000001400 "Hello there." 0)])
    by (vm_compute; reflexivity).
  rewrite H1, H2, H3. repeat split.
  - intros H. specialize (H 0%nat _ _ _ _ eq_refl eq_refl). lia.
  - intros H. specialize (H 0%nat _ _ _ _ eq_refl eq_refl). congruence.
  - intros H. specialize (H 0%nat _ _ _ _ eq_refl eq_refl). lia.
  - intros H. specialize (H 0%nat _ _ _ _ eq_refl eq_refl). congruence.
Qed.

End TriggerFacts.

(** ** The registry and the result callback *)

Section ServerFacts.
Import Server.

(** The fallback scan returns the first registered session that has a pending
    action. *)
Lemma firstPending_spec (objs : gmap string Session) (ids : list string) id s :
  firstPending objs ids = Some (id, s) <->
  exists before after,
    ids = before ++ id :: after
    /\ objs !! id = Some s
    /\ hasPending s = true
    /\ (forall k sk, k ∈ before -> objs !! k = Some sk -> hasPending sk = false).
Proof.
  induction ids as [|k ids IH]; cbn [firstPending].
  { split; [discriminate|]. intros (b & a & H & _). destruct b; discriminate. }
  split.
  - destruct (objs !! k) as [sk|] eqn:Hk.
    + destruct (hasPending sk) eqn:Hp.
      * intros [= <- <-]. exists [], ids. repeat split; try done.
        intros ? ? Hin. by apply not_elem_of_nil in Hin.
      * intros H. apply IH in H as (b & a & -> & Hs & Hps & Hb).
        exists (k :: b), a. repeat split; try done.
        intros k' sk' Hin Hk'. apply elem_of_cons in Hin as [->|Hin]; [congruence|eauto].
    + intros H. apply IH in H as (b & a & -> & Hs & Hps & Hb).
      exists (k :: b), a. repeat split; try done.
      intros k' sk' Hin Hk'. apply elem_of_cons in Hin as [->|Hin]; [congruence|eauto].
  - intros (b & a & Hids & Hs & Hps & Hb).
    destruct b as [|k' b]; cbn in Hids; injection Hids as -> ->.
    + rewrite Hs, Hps. done.
    + assert (Hrest : firstPending objs (b ++ id :: a) = Some (id, s)).
      { apply IH. exists b, a. repeat split; try done.
        intros ? ? Hin. apply Hb. by apply elem_of_cons; right. }
      destruct (objs !! k') as [sk|] eqn:Hk; [|done].
      rewrite (Hb k' sk); [done| by apply elem_of_cons; left | done].
Qed.

Lemma firstPending_none (objs : gmap string Session) (ids : list string) :
  firstPending objs ids = None <->
  forall k sk, k ∈ ids -> objs !! k = Some sk -> hasPending sk = false.
Proof.
  induction ids as [|k ids IH]; cbn [firstPending].
  { split; [|done]. intros _ ? ? Hin. by apply not_elem_of_nil in Hin. }
  destruct (objs !! k) as [sk|] eqn:Hk.
  - destruct (hasPending sk) eqn:Hp.
    + split; [discriminate|]. intros H.
      rewrite (H k sk) in Hp; [done| by apply elem_of_cons; left | done].
    + rewrite IH. split.
      * intros H k' sk' Hin Hk'. apply elem_of_cons in Hin as [->|Hin]; [congruence|eauto].
      * intros H k' sk' Hin. apply H. by apply elem_of_cons; right.
  - rewrite IH. split.
    + intros H k' sk' Hin Hk'. apply elem_of_cons in Hin as [->|Hin]; [congruence|eauto].
    + intros H k' sk' Hin. apply H. by apply elem_of_cons; right.
Qed.

(** The handler once the session is resolved. *)
Lemma n8nResponse_resolved (st : State) (body : CallbackBody)
    (llmReply audio : option string) (id : string) (s : Session) :
  sessionId body <> SidOther ->
  resolveSession st (requestedId (sessionId body)) = Some (id, s) ->
  n8nResponse st body llmReply audio =
    if decide (id ∈ sockets st) then
      let '(responseText, session1, calls) := summarise body llmReply s in
      (updateObject id (setPending None session1) st,
       [Respond 200] ++ calls
       ++ [Emit id (AiResponse responseText true); TextToSpeech responseText]
       ++ match audio with Some a => [Emit id (AudioResponse a)] | None => [] end
       ++ [Emit id (Status "Listening...")])
    else (updateObject id (setPending None s) st, [Respond 200]).
Proof.
  intros Hsid Hres. unfold n8nResponse.
  destruct (sessionId body) eqn:Hf; try done; by rewrite Hres.
Qed.

(** C6. Take a callback whose body has a string for session id, or none; the
    id asked for is the string trimmed, and a body without one asks for none.
    Serving session [s] under id [id] is what the handler does with a session
    it has settled on: it answers 200 and clears the pending action of [s],
    and, when a socket of that id is connected, it adds the reply to the
    history of [s] and emits the reply, the audio and the status to that
    socket.  Then: if the registry has a session under the id asked for, the
    handler serves that session under that id, whatever other sessions are
    waiting; if it has none, and some session in the registry has a pending
    action, the handler serves the first such session in registry order, under
    the id it is registered with; and if it has none and no session in the
    registry has a pending action, the handler answers 404 and does nothing
    else: the state is as it was. *)
Theorem callback_resolution (st : State) (body : CallbackBody)
    (llmReply audio : option string) :
  let serves (id : string) (s : Session) :=
    n8nResponse st body llmReply audio =
      if decide (id ∈ sockets st) then
        let '(responseText, session1, calls) := summarise body llmReply s in
        (updateObject id (setPending None session1) st,
         [Respond 200] ++ calls
         ++ [Emit id (AiResponse responseText true); TextToSpeech responseText]
         ++ match audio with Some a => [Emit id (AudioResponse a)] | None => [] end
         ++ [Emit id (Status "Listening...")])
      else (updateObject id (setPending None s) st, [Respond 200]) in
  let noExactMatch :=
    forall id, requestedId (sessionId body) = Some id -> registryGet st id = None in
  sessionId body <> SidOther ->
  (forall id s,
      requestedId (sessionId body) = Some id -> registryGet st id = Some s ->
      serves id s)
  /\ (noExactMatch ->
      forall id s before after,
        activeSessions st = before ++ id :: after ->
        objects st !! id = Some s ->
        hasPending s = true ->
        (forall k sk, k ∈ before -> objects st !! k = Some sk -> hasPending sk = false) ->
        serves id s)
  /\ (noExactMatch ->
      (forall k sk, k ∈ activeSessions st -> objects st !! k = Some sk ->
                    hasPending sk = false) ->
      n8nResponse st body llmReply audio = (st, [Respond 404])).
Proof.
  intros serves noExactMatch Hsid.
  assert (Hfall : noExactMatch ->
            resolveSession st (requestedId (sessionId body))
            = firstPending (objects st) (activeSessions st)).
  { intros Hno. unfold resolveSession.
    destruct (requestedId (sessionId body)) as [id|]; [|done].
    by rewrite (Hno id eq_refl). }
  split; [|split].
  - intros id s Hid Hget. apply n8nResponse_resolved; [done|].
    unfold resolveSession. by rewrite Hid, Hget.
  - intros Hno id s before after Hids Hs Hp Hbefore.
    apply n8nResponse_resolved; [done|].
    rewrite (Hfall Hno). apply firstPending_spec. by exists before, after.
  - intros Hno Hnone.
    assert (Hres : resolveSession st (requestedId (sessionId body)) = None).
    { rewrite (Hfall Hno). by apply firstPending_none. }
    unfold n8nResponse. destruct (sessionId body); try done; by rewrite Hres.
Qed.

Lemma callback_resolution_witness :
  snd (n8nResponse sampleState
         {| sessionId := SidText " sockA "; status := None; summary := None |} None None)
  = [Respond 200; Emit "sockA" (AiResponse doneReply true); TextToSpeech doneReply;
     Emit "sockA" (Status "Listening...")]
  /\ snd (n8nResponse sampleState
            {| sessionId := SidText "gone"; status := None; summary := None |} None None)
     = [Respond 200; Emit "sockB" (AiResponse doneReply true); TextToSpeech doneReply;
        Emit "sockB" (Status "Listening...")]
  /\ snd (n8nResponse sampleState
            {| sessionId := SidAbsent; status := None; summary := None |} None None)
     = [Respond 200; Emit "sockB" (AiResponse doneReply true); TextToSpeech doneReply;
        Emit "sockB" (Status "Listening...")]
  /\ n8nResponse (registryDelete "sockB" sampleState)
       {| sessionId := SidText "gone"; status := None; summary := None |} None None
     = (registryDelete "sockB" sampleState, [Respond 404]).
Proof.
  assert (Hscan : forall k sk,
            k ∈ ["sockA"] -> objects sampleState !! k = Some sk -> hasPending sk = false).
  { intros k sk Hin Hk. apply list_elem_of_singleton in Hin. subst k.
    vm_compute in Hk. injection Hk as <-. reflexivity. }
  destruct (callback_resolution sampleState
              {| sessionId := SidText " sockA "; status := None; summary := None |}
              None None) as (HA & _ & _); [discriminate|].
  destruct (callback_resolution sampleState
              {| sessionId := SidText "gone"; status := None; summary := None |}
              None None) as (_ & HB & _); [discriminate|].
  destruct (callback_resolution sampleState
              {| sessionId := SidAbsent; status := None; summary := None |}
              None None) as (_ & HC & _); [discriminate|].
  destruct (callback_resolution (registryDelete "sockB" sampleState)
              {| sessionId := SidText "gone"; status := None; summary := None |}
              None None) as (_ & _ & HD); [discriminate|].
  split; [|split; [|split]].
  - rewrite (HA "sockA" (idleSession 1700000020000));
      [vm_compute; reflexivity | reflexivity | vm_compute; reflexivity].
  - rewrite (HB ltac:(intros id [= <-]; vm_compute; reflexivity)
               "sockB" (waitingSession 1700000030000) ["sockA"] []);
      [vm_compute; reflexivity | reflexivity | vm_compute; reflexivity | reflexivity
      | exact Hscan].
  - rewrite (HC ltac:(intros id [=])
               "sockB" (waitingSession 1700000030000) ["sockA"] []);
      [vm_compute; reflexivity | reflexivity | vm_compute; reflexivity | reflexivity
      | exact Hscan].
  - apply HD; [intros id [= <-]; vm_compute; reflexivity|].
    intros k sk Hin Hk. apply list_elem_of_singleton in Hin. subst k.
    vm_compute in Hk. injection Hk as <-. reflexivity.
Defined.

(** C7. When the callback resolves to a session whose id is not among the
    connected sockets, the handler acknowledges the request, sets the pending
    action of that session object to null and does nothing else: nothing is
    emitted, neither provider is called, the conversation history and the
    registry are as before. *)
Theorem callback_after_disconnect (st : State) (body : CallbackBody)
    (llmReply audio : option string) (id : string) (s : Session) :
  sessionId body <> SidOther ->
  resolveSession st (requestedId (sessionId body)) = Some (id, s) ->
  id ∉ sockets st ->
  let st' := fst (n8nResponse st body llmReply audio) in
  snd (n8nResponse st body llmReply audio) = [Respond 200]
  /\ (exists s', objects st' !! id = Some s'
        /\ pendingWorkspaceAction s' = None
        /\ conversationHistory s' = conversationHistory s)
  /\ (forall k, k <> id -> objects st' !! k = objects st !! k)
  /\ activeSessions st' = activeSessions st
  /\ sockets st' = sockets st.
Proof.
  intros Hsid Hres Hsock. rewrite (n8nResponse_resolved _ _ _ _ _ _ Hsid Hres).
  destruct (decide (id ∈ sockets st)); [done|]. cbn.
  split; [done|]. split; [eexists; split; [apply lookup_insert_eq|done]|].
  split; [intros k Hk; by apply lookup_insert_ne|done].
Qed.

Lemma callback_after_disconnect_witness :
  snd (n8nResponse (fst (onDisconnect sampleState "sockB" 1700000040000))
         {| sessionId := SidText "sockB"; status := Some "success";
            summary := Some "Meeting booked" |} (Some "I booked it.") (Some "UklGRg"))
  = [Respond 200].
Proof.
  apply (callback_after_disconnect (fst (onDisconnect sampleState "sockB" 1700000040000))
           {| sessionId := SidText "sockB"; status := Some "success";
              summary := Some "Meeting booked" |} (Some "I booked it.") (Some "UklGRg")
           "sockB" (Server.setDisconnectedAt 1700000040000 (waitingSession 1700000030000))).
  - discriminate.
  - vm_compute. reflexivity.
  - compute_done.
Defined.

(** C9, as the code has it. When the callback resolves to a session whose
    socket is connected, the handler acknowledges the request, appends the
    reply to the conversation history as an assistant entry, emits it,
    requests its synthesis (emitting the audio if there is one), and ends by
    setting the pending action to null.  The reply depends on the body.  With
    status success and a non-empty summary, the summary is first appended as a
    user entry wrapped in the first-person instruction, the generation provider
    is asked once with that history, and the reply is its answer, or the
    summary itself when the call fails.  With status error the reply is a fixed
    apology, and in every other case a fixed confirmation; in these two cases
    the provider is not asked and the summary is not used. *)
Theorem callback_reply (st : State) (body : CallbackBody)
    (llmReply audio : option string) (id : string) (s : Session) :
  sessionId body <> SidOther ->
  resolveSession st (requestedId (sessionId body)) = Some (id, s) ->
  id ∈ sockets st ->
  let st' := fst (n8nResponse st body llmReply audio) in
  exists responseText entries calls s',
    snd (n8nResponse st body llmReply audio)
      = [Respond 200] ++ calls
        ++ [Emit id (AiResponse responseText true); TextToSpeech responseText]
        ++ match audio with Some a => [Emit id (AudioResponse a)] | None => [] end
        ++ [Emit id (Status "Listening...")]
    /\ objects st' !! id = Some s'
    /\ pendingWorkspaceAction s' = None
    /\ conversationHistory s' = conversationHistory s ++ entries
    /\ ((exists sm,
           status body = Some "success" /\ summary body = Some sm /\ sm <> ""
           /\ entries = [ {| role := user; content := systemMessage sm |};
                          {| role := assistant; content := responseText |} ]
           /\ calls = [GenerateResponse
                         (conversationHistory s
                          ++ [ {| role := user; content := systemMessage sm |} ])]
           /\ responseText = match llmReply with Some r => r | None => sm end)
        \/ (isSuccessWithSummary body = false /\ status body = Some "error"
            /\ entries = [ {| role := assistant; content := errorReply |} ]
            /\ calls = [] /\ responseText = errorReply)
        \/ (isSuccessWithSummary body = false /\ status body <> Some "error"
            /\ entries = [ {| role := assistant; content := doneReply |} ]
            /\ calls = [] /\ responseText = doneReply)).
Proof.
  intros Hsid Hres Hsock st'. subst st'.
  rewrite (n8nResponse_resolved _ _ _ _ _ _ Hsid Hres).
  destruct (decide (id ∈ sockets st)) as [_|]; [|done].
  unfold summarise.
  destruct (isSuccessWithSummary body) eqn:Hs.
  - unfold isSuccessWithSummary in Hs.
    destruct (status body) as [stt|] eqn:Hst; [|done].
    destruct (summary body) as [sm|] eqn:Hsm; [|done].
    apply andb_prop in Hs as [Hs1 Hs2]. apply String.eqb_eq in Hs1. subst stt.
    exists (default sm llmReply), [ {| role := user; content := systemMessage sm |};
                                  {| role := assistant; content := default sm llmReply |} ].
    eexists. eexists. cbn [fst snd].
    split; [reflexivity|]. split; [apply lookup_insert_eq|]. split; [done|].
    split; [cbn; by rewrite <- app_assoc|].
    left. exists sm. split; [done|]. split; [done|].
    split; [by intros ->|]. split; [done|]. split; [done|]. by destruct llmReply.
  - destruct (isError body) eqn:He.
    + exists errorReply, [ {| role := assistant; content := errorReply |} ], [].
      eexists. cbn [fst snd].
      split; [reflexivity|]. split; [apply lookup_insert_eq|]. split; [done|].
      split; [done|]. right; left. repeat split; try done.
      unfold isError in He. destruct (status body); [|done].
      apply String.eqb_eq in He. by subst.
    + exists doneReply, [ {| role := assistant; content := doneReply |} ], [].
      eexists. cbn [fst snd].
      split; [reflexivity|]. split; [apply lookup_insert_eq|]. split; [done|].
      split; [done|]. right; right. repeat split; try done.
      unfold isError in He. intros Hst. rewrite Hst in He. done.
Qed.

Lemma callback_reply_witness :
  snd (n8nResponse sampleState
         {| sessionId := SidText "sockB"; status := Some "success";
            summary := Some "Meeting booked" |} None (Some "UklGRg"))
  = [ Respond 200;
      GenerateResponse
        (conversationHistory (waitingSession 1700000030000)
         ++ [ {| role := user; content := systemMessage "Meeting booked" |} ]);
      Emit "sockB" (AiResponse "Meeting booked" true);
      TextToSpeech "Meeting booked";
      Emit "sockB" (AudioResponse "UklGRg");
      Emit "sockB" (Status "Listening...") ].
Proof.
  destruct (callback_reply sampleState
              {| sessionId := SidText "sockB"; status := Some "success";
                 summary := Some "Meeting booked" |} None (Some "UklGRg")
              "sockB" (waitingSession 1700000030000))
    as (r & es & cs & s' & Heff & _);
    [discriminate | vm_compute; reflexivity | compute_done |].
  vm_compute. reflexivity.
Defined.

(** C9, as stated, fails for a result that reports an error: its text does
    not enter the conversation history and the generation provider is not
    asked; the reply is a fixed sentence. *)
Lemma error_result_not_summarised :
  snd (n8nResponse sampleState
         {| sessionId := SidText "sockB"; status := Some "error";
            summary := Some "Mailbox unavailable" |} (Some "I could not reach it.")
         (Some "UklGRg"))
  = [ Respond 200;
      Emit "sockB" (AiResponse errorReply true);
      TextToSpeech errorReply;
      Emit "sockB" (AudioResponse "UklGRg");
      Emit "sockB" (Status "Listening...") ]
  /\ conversationHistory <$>
       (objects (fst (n8nResponse sampleState
                        {| sessionId := SidText "sockB"; status := Some "error";
                           summary := Some "Mailbox unavailable" |}
                        (Some "I could not reach it.") (Some "UklGRg"))) !! "sockB")
     = Some (conversationHistory (waitingSession 1700000030000)
             ++ [ {| role := assistant; content := errorReply |} ]).
Proof. split; vm_compute; reflexivity. Qed.

Lemma elem_of_registryDelete (st : State) (id k : string) :
  k ∈ activeSessions (registryDelete id st) <-> k ∈ activeSessions st /\ k <> id.
Proof.
  unfold registryDelete; cbn. rewrite !list_elem_of_In, filter_In.
  rewrite negb_true_iff, String.eqb_neq. done.
Qed.

Lemma elem_of_cleanup (st : State) (now : Z) (k : string) :
  k ∈ activeSessions (fst (cleanup st now))
  <-> k ∈ activeSessions st /\ cleanedId st now k = false.
Proof.
  unfold cleanup; cbn. rewrite !list_elem_of_In, filter_In.
  by rewrite negb_true_iff.
Qed.

(** C8, as the code has it. For a registered session: on disconnect it stays
    registered, with the time of the disconnect recorded, when it has a pending
    action, and is removed from the registry when it has none.  A run of the
    cleanup removes a session with a recorded disconnect time exactly when more
    than 60 seconds have passed since; and it removes a session with no
    recorded disconnect time when no call is active and its last activity is
    more than 30 minutes old.  (Clock readings are not zero.) *)
Theorem disconnect_then_cleanup (st : State) (id : string) (s : Session) (now : Z) :
  objects st !! id = Some s ->
  id ∈ activeSessions st ->
  (hasPending s = true ->
     id ∈ activeSessions (fst (onDisconnect st id now))
     /\ objects (fst (onDisconnect st id now)) !! id = Some (setDisconnectedAt now s))
  /\ (hasPending s = false -> id ∉ activeSessions (fst (onDisconnect st id now)))
  /\ (forall t, disconnectedAt s = Some t -> t <> 0 ->
        (60 * 1000 < now - t -> id ∉ activeSessions (fst (cleanup st now)))
        /\ (now - t <= 60 * 1000 -> id ∈ activeSessions (fst (cleanup st now))))
  /\ (disconnectedAt s = None -> isCallActive s = false -> lastActivity s <> 0 ->
      30 * 60 * 1000 < now - lastActivity s ->
      id ∉ activeSessions (fst (cleanup st now))).
Proof.
  intros Hobj Hin. split; [|split; [|split]].
  - intros Hp. unfold onDisconnect. rewrite Hobj, Hp. cbn.
    split; [done|apply lookup_insert_eq].
  - intros Hp. unfold onDisconnect. rewrite Hobj, Hp. cbn [fst].
    rewrite elem_of_registryDelete. by intros [_ ?].
  - intros t Ht Hnz. rewrite elem_of_cleanup. unfold cleanedId, cleaned.
    rewrite Hobj, Ht. cbn. unfold JS.truthyNumber.
    apply Z.eqb_neq in Hnz. rewrite Hnz. cbn. split.
    + intros Hlt [_ H]. apply Z.ltb_ge in H. lia.
    + intros Hle. split; [done|]. apply Z.ltb_ge. lia.
  - intros Hd Hc Hl Hold. rewrite elem_of_cleanup. unfold cleanedId, cleaned.
    rewrite Hobj, Hd, Hc. cbn. unfold JS.truthyNumber.
    apply Z.eqb_neq in Hl. rewrite Hl. cbn.
    intros [_ H]. apply Z.ltb_ge in H. lia.
Qed.

Lemma disconnect_then_cleanup_witness :
  ("sockB" ∈ activeSessions (fst (onDisconnect sampleState "sockB" 1700000040000)))
  /\ ("sockA" ∉ activeSessions (fst (onDisconnect sampleState "sockA" 1700000040000)))
  /\ ("sockB" ∉ activeSessions
                  (fst (cleanup (fst (onDisconnect sampleState "sockB" 1700000040000)) 1700000100001)))
  /\ ("sockA" ∉ activeSessions (fst (cleanup sampleState 1700001820001))).
Proof.
  split; [|split; [|split]].
  - apply (disconnect_then_cleanup sampleState "sockB" (waitingSession 1700000030000) 1700000040000);
      [vm_compute; reflexivity | compute_done | reflexivity].
  - apply (disconnect_then_cleanup sampleState "sockA" (idleSession 1700000020000) 1700000040000);
      [vm_compute; reflexivity | compute_done | reflexivity].
  - apply (disconnect_then_cleanup (fst (onDisconnect sampleState "sockB" 1700000040000)) "sockB"
             (setDisconnectedAt 1700000040000 (waitingSession 1700000030000)) 1700000100001)
      with (t := 1700000040000);
      [vm_compute; reflexivity | compute_done | reflexivity | lia | lia].
  - apply (disconnect_then_cleanup sampleState "sockA" (idleSession 1700000020000) 1700001820001);
      [vm_compute; reflexivity | compute_done | reflexivity | reflexivity
      | cbn; lia | cbn; lia].
Defined.

(** C8, as stated, fails for a session in its grace period: the cleanup does
    not test its last activity.  A session whose call ended 30 s after a
    reference time, with a result still pending, survives the cleanup 1800 s
    after that time, disconnects at 1850 s and is still registered after the
    cleanup at 1860 s, with no active call and a last activity more than 30
    minutes old. *)
Lemma idle_session_in_grace_period_survives :
  activeSessions
    (fst (cleanup
            (fst (onDisconnect (fst (cleanup sampleState 1700001800000)) "sockB" 1700001850000))
            1700001860000))
  = ["sockB"]
  /\ (isCallActive <$>
        objects (fst (onDisconnect (fst (cleanup sampleState 1700001800000)) "sockB" 1700001850000))
          !! "sockB") = Some false
  /\ (lastActivity <$>
        objects (fst (onDisconnect (fst (cleanup sampleState 1700001800000)) "sockB" 1700001850000))
          !! "sockB") = Some 1700000030000
  /\ 30 * 60 * 1000 < 1700001860000 - 1700000030000.
Proof. repeat split; vm_compute; reflexivity. Qed.

End ServerFacts.

(** ** The segmenter *)

Section SegmenterFacts.

Lemma append_cons c s t : String c s +:+ t = String c (s +:+ t).
Proof. reflexivity. Qed.

Lemma append_nil_r s : s +:+ "" = s.
Proof. induction s as [|c s IH]; [done|]. by rewrite append_cons, IH. Qed.

Lemma append_assoc s t u : (s +:+ t) +:+ u = s +:+ (t +:+ u).
Proof. induction s as [|c s IH]; [done|]. by rewrite !append_cons, IH. Qed.

Lemma concat_app (l k : list string) :
  String.concat "" (l ++ k) = String.concat "" l +:+ String.concat "" k.
Proof.
  induction l as [|x l IH]; [done|].
  destruct l as [|y l].
  - cbn [app String.concat]. destruct k as [|z k]; [|done].
    change (String.concat "" []) with "". by rewrite append_nil_r.
  - change (String.concat "" ((x :: y :: l) ++ k))
      with (x +:+ "" +:+ String.concat "" ((y :: l) ++ k)).
    rewrite IH. change (String.concat "" (x :: y :: l))
      with (x +:+ "" +:+ String.concat "" (y :: l)).
    change ("" +:+ ?a) with a. by rewrite append_assoc.
Qed.

Lemma concat_cons (x : string) (l : list string) :
  String.concat "" (x :: l) = x +:+ String.concat "" l.
Proof. apply (concat_app [x] l). Qed.

(** The sentences and the remainder of a text are the text, cut. *)
Lemma segments_concat s : forall cur,
  String.concat "" (fst (SentenceDetector.segments cur s))
    +:+ snd (SentenceDetector.segments cur s) = cur +:+ s.
Proof.
  induction s as [|c r IH]; intros cur; cbn [SentenceDetector.segments].
  { cbn. by rewrite append_nil_r. }
  assert (Hstep : (cur +:+ String c "") +:+ r = cur +:+ String c r)
    by (by rewrite append_assoc).
  destruct (JS.isTerminal c).
  - destruct r as [|d r'].
    + reflexivity.
    + destruct (JS.isTerminal d).
      * by rewrite IH.
      * cbn [fst snd]. rewrite concat_cons, append_assoc, (IH ""). exact Hstep.
  - by rewrite IH.
Qed.

(** C4. For every sequence of chunks, the sentences returned by the successive
    calls of [addChunk] on a fresh detector, concatenated in order and followed
    by the final value of [getRemainder], are the concatenation of the chunks. *)
Theorem segmenter_round_trip (chunks : list string) :
  String.concat "" (fst (SentenceDetector.feed newDetector chunks))
    +:+ getRemainder (snd (SentenceDetector.feed newDetector chunks))
  = String.concat "" chunks.
Proof.
  change (String.concat "" chunks) with (newDetector +:+ String.concat "" chunks).
  generalize (newDetector : string) as buffer.
  induction chunks as [|chunk rest IH]; intros buffer.
  { cbn. rewrite append_nil_r. reflexivity. }
  cbn [SentenceDetector.feed]. unfold SentenceDetector.addChunk.
  specialize (IH (snd (SentenceDetector.segments "" (buffer +:+ chunk)))).
  destruct (SentenceDetector.feed _ rest) as [more final]. cbn [fst snd] in *.
  rewrite concat_app, append_assoc, IH, <- append_assoc.
  rewrite (segments_concat (buffer +:+ chunk) "").
  change ("" +:+ buffer +:+ chunk) with (buffer +:+ chunk).
  by rewrite concat_cons, append_assoc.
Qed.

End SegmenterFacts.

(** ** The synthesis worker *)

Section WorkerFacts.
Import Tts.

Lemma audioEvents_app (l k : list Server.ClientEvent) :
  audioEvents (l ++ k) = audioEvents l ++ audioEvents k.
Proof. apply omap_app. Qed.

Lemma filter_own_request (sentence : string) :
  List.filter (fun r => negb (String.eqb r sentence)) [sentence] = [].
Proof. cbn. by rewrite String.eqb_refl. Qed.

(** Both invariants hold at the start and are kept by every step. *)
Lemma invariants_initial : oneInFlight initial /\ fifo initial.
Proof. repeat split; cbn; done. Qed.

Lemma invariants_step s l s' :
  step s l = Some s' ->
  oneInFlight s /\ fifo s -> oneInFlight s' /\ fifo s'.
Proof.
  unfold oneInFlight, fifo, queue.
  intros Hstep [Hone (Hq & Ha & Hs)].
  destruct l as [item| | | |audio]; cbn [step] in Hstep.
  - injection Hstep as <-; cbn. rewrite Hq, app_assoc. done.
  - injection Hstep as <-; cbn. done.
  - injection Hstep as <-; cbn. done.
  - destruct (worker s) eqn:Hw; try done.
    unfold AsyncQueue.next in Hstep.
    destruct (AsyncQueue.items (ttsQueue s)) as [|sentence rest] eqn:Hqu.
    + destruct (AsyncQueue.closed (ttsQueue s)); [|done]. injection Hstep as <-; cbn.
      rewrite ?Hqu, ?Hw in *. done.
    + injection Hstep as <-. unfold receive.
      assert (Hpush : pushed s = (taken s ++ [sentence]) ++ rest)
        by (rewrite ?Hqu in *; by rewrite Hq, <- app_assoc).
      destruct (aborted s); [|destruct (negb (JS.truthyString sentence))]; cbn.
      * repeat split; try done. by apply sublist_inserts_r.
      * repeat split; try done. by apply sublist_inserts_r.
      * rewrite Hone. repeat split; try done.
        -- rewrite audioEvents_app, Ha.
           destruct (sentenceCount s); cbn; by rewrite app_nil_r.
        -- by exists (taken s).
  - destruct (worker s) as [|sentence|] eqn:Hw; try done.
    injection Hstep as <-. unfold resumeAfterSynthesis.
    destruct Hs as (before & Ht & Hsub).
    rewrite Hone, filter_own_request.
    destruct audio as [a|]; [destruct (aborted s)|]; cbn.
    + repeat split; try done. rewrite Ht. by apply sublist_inserts_r.
    + repeat split; try done.
      * rewrite audioEvents_app, Ha, fmap_app. done.
      * rewrite Ht, fmap_app. by apply sublist_app.
    + repeat split; try done. rewrite Ht. by apply sublist_inserts_r.
Qed.

Lemma invariants_run ls : forall s s',
  run s ls = Some s' -> oneInFlight s /\ fifo s -> oneInFlight s' /\ fifo s'.
Proof.
  induction ls as [|l ls IH]; intros s s' Hrun Hinv; cbn [run] in Hrun.
  - by injection Hrun as <-.
  - destruct (step s l) as [s1|] eqn:Hstep; [|done].
    eapply IH; [exact Hrun|]. eapply invariants_step; eauto.
Qed.

(** C5. In every state that the queue, the worker and the provider reach
    during a turn: at most one synthesis request is in flight, and while it is,
    the worker does not take the next item; the items the worker has received
    are the first items pushed, in the order pushed; and the audio sent to the
    socket is, in order, the audio of received sentences in the order
    received. *)
Theorem synthesis_in_order (ls : list Label) (s : Sys) :
  run initial ls = Some s ->
  (length (inFlight s) <= 1)%nat
  /\ (inFlight s <> [] -> step s Resume = None)
  /\ taken s `prefix_of` pushed s
  /\ (spoken s).*1 `sublist_of` taken s
  /\ audioEvents (emitted s) = (spoken s).*2.
Proof.
  intros Hrun.
  destruct (invariants_run _ _ _ Hrun invariants_initial) as [Hone (Hq & Ha & Hs)].
  unfold oneInFlight in Hone.
  split; [|split; [|split; [|split]]].
  - destruct (worker s); rewrite Hone; cbn; lia.
  - intros Hne. cbn [step]. destruct (worker s); try done.
  - exists (queue s). done.
  - destruct (worker s); try done.
    destruct Hs as (before & -> & Hsub). by apply sublist_inserts_r.
  - done.
Qed.

Lemma synthesis_in_order_witness :
  (length (inFlight (default initial (run initial
      [Push "It is sunny."; Push "Enjoy!"; Resume; Answer (Some "audio-1"); Resume])))
   <= 1)%nat.
Proof.
  apply (synthesis_in_order
           [Push "It is sunny."; Push "Enjoy!"; Resume; Answer (Some "audio-1"); Resume]).
  vm_compute. reflexivity.
Defined.

(** Once the worker has returned, nothing more is received, requested or
    sent; the queue only grows. *)
Lemma returned_is_final ls : forall s s',
  worker s = Returned -> run s ls = Some s' ->
  worker s' = Returned /\ taken s' = taken s /\ spoken s' = spoken s
  /\ emitted s' = emitted s /\ inFlight s' = inFlight s
  /\ exists more, queue s' = queue s ++ more.
Proof.
  induction ls as [|l ls IH]; intros s s' Hw Hrun; cbn [run] in Hrun.
  { injection Hrun as <-. repeat split; try done. exists []. by rewrite app_nil_r. }
  destruct (step s l) as [s1|] eqn:Hstep; [|done].
  assert (H1 : worker s1 = Returned /\ taken s1 = taken s /\ spoken s1 = spoken s
               /\ emitted s1 = emitted s /\ inFlight s1 = inFlight s
               /\ exists more, queue s1 = queue s ++ more).
  { unfold queue. destruct l; cbn [step] in Hstep; rewrite ?Hw in Hstep; try done;
      injection Hstep as <-; cbn; repeat split; try done;
      first [by eexists | exists []; by rewrite app_nil_r]. }
  destruct H1 as (Hw1 & Ht1 & Hs1 & He1 & Hi1 & more1 & Hq1).
  destruct (IH s1 s' Hw1 Hrun) as (Hw2 & Ht2 & Hs2 & He2 & Hi2 & more2 & Hq2).
  repeat split; try congruence.
  exists (more1 ++ more2). by rewrite Hq2, Hq1, app_assoc.
Qed.

(** In any run of a turn, an item that is falsy and was received by the worker
    is the last item the worker received, and the worker has returned. *)
Lemma falsy_item_is_last_received (ls : list Label) : forall s s',
  (forall pre x post, taken s = pre ++ x :: post -> JS.truthyString x = false ->
     post = [] /\ worker s = Returned) ->
  run s ls = Some s' ->
  forall pre x post, taken s' = pre ++ x :: post -> JS.truthyString x = false ->
    post = [] /\ worker s' = Returned.
Proof.
  induction ls as [|l ls IH]; intros s s' Inv Hrun; cbn [run] in Hrun.
  { by injection Hrun as <-. }
  destruct (step s l) as [s1|] eqn:Hstep; [|done].
  apply (IH s1 s'); [|exact Hrun]. clear IH Hrun s'.
  intros pre x post Ht Hx.
  destruct l as [item| | | |audio]; cbn [step] in Hstep.
  - injection Hstep as <-. cbn in *. eauto.
  - injection Hstep as <-. cbn in *. eauto.
  - injection Hstep as <-. cbn in *. eauto.
  - destruct (worker s) eqn:Hw; try done.
    destruct (AsyncQueue.next (ttsQueue s)) as [sentence rest| |]; [| |done].
    + injection Hstep as <-.
      assert (Htaken : taken (receive s sentence rest) = taken s ++ [sentence])
        by (unfold receive; by repeat case_match).
      rewrite Htaken in Ht.
      destruct post as [|y post].
      * split; [done|]. apply (app_inj_tail (taken s) pre sentence x) in Ht as [_ <-].
        unfold receive. rewrite Hx. by destruct (aborted s).
      * exfalso. change (pre ++ x :: y :: post) with (pre ++ (x :: y :: post)) in Ht.
        rewrite (app_removelast_last y (l := y :: post)) in Ht by done.
        rewrite app_comm_cons, app_assoc in Ht.
        apply app_inj_tail in Ht as [Ht _].
        destruct (Inv _ _ _ Ht Hx) as [_ Hret]. congruence.
    + injection Hstep as <-. cbn in *. destruct (Inv _ _ _ Ht Hx). done.
  - destruct (worker s) as [|sentence|] eqn:Hw; try done.
    injection Hstep as <-.
    assert (Htaken : taken (resumeAfterSynthesis s sentence audio) = taken s)
      by (unfold resumeAfterSynthesis; by repeat case_match).
    rewrite Htaken in Ht. destruct (Inv _ _ _ Ht Hx) as [_ Hret]. congruence.
Qed.

(** C10. When the worker, not aborted, receives a falsy item (the empty
    string), it returns: whatever happens afterwards, it receives no further
    item, no synthesis is requested and nothing is sent to the socket, and the
    items behind the falsy one stay in the queue, closed or not. *)
Theorem falsy_item_stops_worker (s : Sys) (item : string) (rest : list string)
    (ls : list Label) (s' : Sys) :
  worker s = Waiting ->
  queue s = item :: rest ->
  JS.truthyString item = false ->
  run s (Resume :: ls) = Some s' ->
  worker s' = Returned
  /\ taken s' = taken s ++ [item]
  /\ spoken s' = spoken s
  /\ emitted s' = emitted s
  /\ inFlight s' = inFlight s
  /\ (exists more, queue s' = rest ++ more)
  /\ step s' Resume = None
  /\ (forall audio, step s' (Answer audio) = None).
Proof.
  intros Hw Hq Hfalsy Hrun. cbn [run step] in Hrun.
  unfold queue in Hq. unfold AsyncQueue.next in Hrun. rewrite Hw, Hq in Hrun.
  set (q1 := {| AsyncQueue.items := rest;
                AsyncQueue.closed := AsyncQueue.closed (ttsQueue s) |}) in Hrun.
  assert (Hrec : worker (receive s item q1) = Returned
                 /\ taken (receive s item q1) = taken s ++ [item]
                 /\ spoken (receive s item q1) = spoken s
                 /\ emitted (receive s item q1) = emitted s
                 /\ inFlight (receive s item q1) = inFlight s
                 /\ queue (receive s item q1) = rest).
  { unfold receive. rewrite Hfalsy. destruct (aborted s); cbn; done. }
  destruct Hrec as (Hw1 & Ht1 & Hs1 & He1 & Hi1 & Hq1).
  destruct (returned_is_final _ _ _ Hw1 Hrun) as (Hw2 & Ht2 & Hs2 & He2 & Hi2 & more & Hq2).
  split; [done|]. split; [congruence|]. split; [congruence|]. split; [congruence|].
  split; [congruence|]. split; [exists more; congruence|].
  cbn [step]. rewrite Hw2. done.
Qed.

Lemma falsy_item_stops_worker_witness :
  queue (default initial (run initial emptyItemNext)) = [""; "World."]
  /\ (spoken <$> run initial (emptyItemNext ++ [Resume; Push "Again."; Close]))
     = Some [("Hello.", "audio-1")]
  /\ (queue <$> run initial (emptyItemNext ++ [Resume; Push "Again."; Close]))
     = Some ["World."; "Again."].
Proof.
  split; [reflexivity|].
  destruct (falsy_item_stops_worker
              (default initial (run initial emptyItemNext)) "" ["World."]
              [Push "Again."; Close]
              (default initial
                 (run initial (emptyItemNext ++ [Resume; Push "Again."; Close]))))
    as (_ & _ & Hs & _); [reflexivity | reflexivity | reflexivity | reflexivity |].
  split; [|reflexivity].
  change (run initial (emptyItemNext ++ [Resume; Push "Again."; Close]))
    with (Some (default initial
                  (run initial (emptyItemNext ++ [Resume; Push "Again."; Close])))).
  cbn [fmap option_fmap option_map]. rewrite Hs. reflexivity.
Defined.

End WorkerFacts.

(** ** The turn and the tool call *)

Section TurnFacts.
Import Server Turn.
Context `{Segmenter}.

Lemma calendarStream_yields :
  Llm.streamResponse Llm.openai Llm.calendarStream ""
  = ["Let me check that for you."; Llm.calendarPayload].
Proof. vm_compute. reflexivity. Qed.

(** The text of the stream is not taken for a tool call, and neither is the
    payload: parsed, it has a member [__tool_calls] and none called
    [__tool_call]. *)
Lemma calendarPayload_parsed :
  JS.includes Llm.calendarPayload "__tool_call" = true
  /\ Json.parse Llm.calendarPayload
     = Some (Json.widen
               (Json.JObject
                  [("__tool_calls", Json.JArray [Llm.completed Llm.calendarCall])]))
  /\ toolCallIn Llm.calendarPayload = None
  /\ toolCallIn "Let me check that for you." = None.
Proof. repeat split; vm_compute; reflexivity. Qed.

(** C1, on the code. A stream of the generation provider that says a sentence
    and then completes a call of the workspace tool yields the sentence and the
    payload of the call; the turn, not aborted, does not recognise the payload:
    it hands it to the segmenter, records no pending action, acknowledges
    nothing and dispatches nothing, and appends the generated text, payload
    included, to the conversation history. *)
Theorem tool_call_payload_reaches_segmenter (socketId : string) (session : Session)
    (userMessage : string) (tts : string -> option string) (random : nat) (now : Z) :
  let stream := Llm.streamResponse Llm.openai Llm.calendarStream "" in
  let result :=
    handleUserMessage socketId session userMessage stream false None tts random now in
  stream = ["Let me check that for you."; Llm.calendarPayload]
  /\ pendingWorkspaceAction (fst result) = pendingWorkspaceAction session
  /\ (exists before,
        snd result
          = before ++ [CloseQueue; AwaitWorker; Emit socketId (Status "Listening...")]
        /\ AddChunk Llm.calendarPayload ∈ before
        /\ forall e, e ∈ before ->
             match e with
             | TextToSpeech _ | SendGoogleWorkspaceAction _ _ => False
             | _ => True
             end)
  /\ (exists tail,
        conversationHistory (fst result)
          = conversationHistory session
            ++ [ {| role := user; content := userMessage |};
                 {| role := assistant;
                    content := "Let me check that for you." +:+ Llm.calendarPayload
                               +:+ tail |} ]).
Proof.
  intros stream result. subst result stream.
  destruct calendarPayload_parsed as (_ & _ & Hpay & Htext).
  rewrite calendarStream_yields. split; [reflexivity|].
  unfold handleUserMessage. cbn [consume isAborted]. rewrite Htext.
  destruct (addChunk newDetector "Let me check that for you.") as [d1 ss1].
  cbn [consume isAborted]. rewrite Hpay.
  destruct (addChunk d1 Llm.calendarPayload) as [d2 ss2].
  cbn [consume isAborted fullResponse toolCallDetected detectorState effects
         suspensions leftEarly andb negb].
  rewrite andb_true_r. cbn [fst snd].
  split; [reflexivity|]. split.
  - match goal with
    | |- exists _, (?x ++ ?r ++ _) ++ _ = _ /\ _ => exists (x ++ r)
    end.
    split; [by rewrite <- !app_assoc|]. split.
    + rewrite !elem_of_app. left. right. left. apply elem_of_cons. left. reflexivity.
    + intros e He. rewrite !elem_of_app in He.
      repeat match goal with
             | H : _ \/ _ |- _ => destruct H
             | H : _ ∈ _ :: _ |- _ => apply elem_of_cons in H
             | H : _ ∈ [] |- _ => by apply not_elem_of_nil in H
             | H : _ ∈ List.flat_map _ _ |- _ =>
                 apply list_elem_of_In, in_flat_map in H; destruct H as (? & _ & H);
                 apply list_elem_of_In in H
             | H : _ ∈ (if ?b then _ else _) |- _ => destruct b
             end; subst; exact I.
  - cbn [conversationHistory pushMessage setHistory].
    destruct (JS.truthyString (getRemainder d2)).
    + exists (getRemainder d2). rewrite <- !app_assoc. reflexivity.
    + exists "". rewrite <- !app_assoc, append_nil_r. reflexivity.
Qed.

End TurnFacts.

(** The handling the turn has in store for a call it recognises: a chunk
    whose member is named [__tool_call] records the pending action, speaks an
    acknowledgment, dispatches the request and appends the acknowledgment to
    the history.  The stream of the provider never yields such a chunk. *)
Lemma singular_member_is_handled :
  @Turn.handleUserMessage sentenceDetector "sockA" (Server.idleSession 1700000020000)
    "What is on my calendar tomorrow?"
    [ "Let me check.";
      Json.stringify (Json.JObject [("__tool_call", Llm.completed Llm.calendarCall)]) ]
    false None (fun _ => Some "UklGRg") 2 1700000050000
  = (Server.pushMessage Server.assistant "Sure thing, one second."
       (Server.setPending
          (Some {| Server.toolCallId := Some (Json.widen (Json.JString "call_1"));
                   Server.args :=
                     Json.widen
                       (Json.JObject
                          [("action", Json.JString "calendar");
                           ("request", Json.JString "What is on my calendar tomorrow")]);
                   Server.timestamp := 1700000050000 |})
          (Server.pushMessage Server.user "What is on my calendar tomorrow?"
             (Server.idleSession 1700000020000))),
     [ Server.Emit "sockA" (Server.Status "AI is thinking...");
       Server.StreamResponse
         [ {| Server.role := Server.user;
              Server.content := "What is on my calendar tomorrow?" |} ];
       Server.AddChunk "Let me check.";
       Server.Emit "sockA" (Server.AiResponse "Let me check." true);
       Server.Push "Let me check.";
       Server.CloseQueue; Server.AwaitWorker;
       Server.Emit "sockA" (Server.AiResponse "Sure thing, one second." true);
       Server.Emit "sockA" (Server.Status "Processing your request...");
       Server.TextToSpeech "Sure thing, one second.";
       Server.Emit "sockA" (Server.AudioResponse "UklGRg");
       Server.SendGoogleWorkspaceAction
         (Json.widen
            (Json.JObject
               [("action", Json.JString "calendar");
                ("request", Json.JString "What is on my calendar tomorrow")]))
         "sockA";
       Server.Emit "sockA" (Server.Status "Listening...") ]).
Proof. vm_compute. reflexivity. Qed.

(** The segmenter on the tokens of a short reply. *)
Lemma segmenter_scenario :
  SentenceDetector.feed "" ["It is"; " sunny."; " Enjoy!"] = (["It is sunny."], " Enjoy!").
Proof. vm_compute. reflexivity. Qed.

(** ** Reading back what [JSON.stringify] wrote *)

Section JsonFacts.
Import Json.

Lemma length_append s t : String.length (s +:+ t) = (String.length s + String.length t)%nat.
Proof. induction s as [|c s IH]; [done|]. rewrite append_cons. cbn. by rewrite IH. Qed.

Lemma units_cons c s : units (String c s) = N_of_ascii c :: units s.
Proof. reflexivity. Qed.

Lemma units_app s t : units (s +:+ t) = units s ++ units t.
Proof.
  induction s as [|c s IH]; [reflexivity|].
  rewrite append_cons, !units_cons, IH. reflexivity.
Qed.

Lemma length_units s : length (units s) = String.length s.
Proof. induction s as [|c s IH]; [reflexivity|]. rewrite units_cons. cbn. by rewrite IH. Qed.

(** An escaped code unit reads back as the code unit. *)
Lemma parseString_escapeChar c t :
  parseString (units (escapeChar c) ++ t)
  = match parseString t with
    | Some (u, r) => Some (N_of_ascii c :: u, r)
    | None => None
    end.
Proof.
  destruct c as [[] [] [] [] [] [] [] []]; reflexivity.
Qed.

Lemma parseString_escape s rest :
  parseString (units (escape s) ++ 34%N :: rest) = Some (units s, rest).
Proof.
  induction s as [|c s IH]; [reflexivity|].
  cbn [escape]. rewrite units_app, <- app_assoc, parseString_escapeChar, IH. reflexivity.
Qed.

Lemma units_quoted s rest :
  units (quoted s) ++ rest = 34%N :: units (escape s) ++ 34%N :: rest.
Proof.
  unfold quoted. rewrite units_cons, units_app. cbn [app].
  rewrite <- app_assoc. reflexivity.
Qed.

(** A value that starts with a quote is a string. *)
Lemma parseValue_string f r :
  parseValue (S f) (34%N :: r)
  = match parseString r with
    | Some (t, r') => Some (JString t, r')
    | None => None
    end.
Proof. reflexivity. Qed.

Lemma parseValue_quoted f s rest :
  parseValue (S f) (units (quoted s) ++ rest) = Some (JString (units s), rest).
Proof. by rewrite units_quoted, parseValue_string, parseString_escape. Qed.

Lemma append_nil_l s : "" +:+ s = s.
Proof. reflexivity. Qed.

Lemma concat_comma_cons (x y : string) (l : list string) :
  String.concat "," (x :: y :: l) = x +:+ "," +:+ String.concat "," (y :: l).
Proof. reflexivity. Qed.

Lemma parseMembers_key f r :
  parseMembers (S f) (34%N :: r)
  = match parseString r with
    | Some (k, r1) =>
        match skipWs r1 with
        | 58%N :: r2 =>
            match parseValue f r2 with
            | Some (v, r3) =>
                match skipWs r3 with
                | 44%N :: r4 =>
                    match parseMembers f r4 with
                    | Some (ms, r5) => Some ((k, v) :: ms, r5)
                    | None => None
                    end
                | 125%N :: r4 => Some ([(k, v)], r4)
                | _ => None
                end
            | None => None
            end
        | _ => None
        end
    | None => None
    end.
Proof. reflexivity. Qed.

(** One member, read by [parseMembers]. *)
Lemma parseMembers_member f k t :
  parseMembers (S f) (units (quoted k) ++ 58%N :: t)
  = match parseValue f t with
    | Some (v0, r3) =>
        match skipWs r3 with
        | 44%N :: r4 =>
            match parseMembers f r4 with
            | Some (ms, r5) => Some ((units k, v0) :: ms, r5)
            | None => None
            end
        | 125%N :: r4 => Some ([(units k, v0)], r4)
        | _ => None
        end
    | None => None
    end.
Proof. rewrite units_quoted, parseMembers_key, parseString_escape. reflexivity. Qed.

(** The text of the members of an object whose values are strings. *)
Lemma units_member (k v : string) (rest : text) :
  units (quoted k +:+ ":" +:+ stringify (JString v)) ++ rest
  = units (quoted k) ++ 58%N :: units (quoted v) ++ rest.
Proof. cbn [stringify]. rewrite !units_app, <- !app_assoc. reflexivity. Qed.

(** The members of an object whose values are strings read back, given fuel
    for each of them. *)
Lemma parseMembers_strings (ms : list (string * string)) : forall f rest,
  ms <> [] ->
  (length ms <= f)%nat ->
  parseMembers (S f)
    (units (String.concat ","
              (List.map (fun kv : string * document =>
                           quoted (fst kv) +:+ ":" +:+ stringify (snd kv))
                 (List.map (fun kv : string * string => (fst kv, JString (snd kv))) ms)))
     ++ 125%N :: rest)
  = Some (List.map (fun kv : string * string => (units (fst kv), JString (units (snd kv)))) ms,
          rest).
Proof.
  induction ms as [|[k v] ms IH]; intros f rest Hne Hf; [done|].
  destruct f as [|f]; [cbn in Hf; lia|].
  destruct ms as [|[k2 v2] ms].
  - cbn [List.map String.concat fst snd].
    rewrite units_member, parseMembers_member, parseValue_quoted. reflexivity.
  - change (List.map (fun kv : string * string => (fst kv, @JString string (snd kv)))
              ((k, v) :: (k2, v2) :: ms))
      with ((k, @JString string v)
              :: List.map (fun kv : string * string => (fst kv, @JString string (snd kv)))
                   ((k2, v2) :: ms)).
    set (tail := List.map (fun kv : string * string => (fst kv, @JString string (snd kv)))
                   ((k2, v2) :: ms)) in *.
    change (List.map (fun kv : string * document =>
                        quoted (fst kv) +:+ ":" +:+ stringify (snd kv))
              ((k, JString v) :: tail))
      with ((quoted k +:+ ":" +:+ stringify (JString v))
              :: List.map (fun kv : string * document =>
                             quoted (fst kv) +:+ ":" +:+ stringify (snd kv)) tail).
    assert (Htail : exists y l,
               List.map (fun kv : string * document =>
                           quoted (fst kv) +:+ ":" +:+ stringify (snd kv)) tail = y :: l)
      by (subst tail; cbn [List.map]; eauto).
    destruct Htail as (y & l & Htail).
    specialize (IH f rest). rewrite Htail in IH |- *.
    rewrite concat_comma_cons, units_app, <- app_assoc, units_member,
      parseMembers_member, parseValue_quoted.
    rewrite units_app, <- app_assoc.
    change (units "," ++ ?r) with (44%N :: r).
    change (skipWs (44%N :: ?r)) with (44%N :: r). cbv iota.
    rewrite IH; [reflexivity | done | cbn in Hf |- *; lia].
Qed.

Lemma stringify_object (ms : list (string * document)) :
  stringify (JObject ms)
  = "{" +:+ String.concat ","
              (List.map (fun kv => quoted (fst kv) +:+ ":" +:+ stringify (snd kv)) ms)
        +:+ "}".
Proof. reflexivity. Qed.

Lemma stringify_array (items : list document) :
  stringify (JArray items) = "[" +:+ String.concat "," (List.map stringify items) +:+ "]".
Proof. reflexivity. Qed.

(** An object whose first member follows the brace at once. *)
Lemma parseValue_object f r :
  parseValue (S f) (123%N :: 34%N :: r)
  = match parseMembers f (34%N :: r) with
    | Some (ms, r') => Some (JObject ms, r')
    | None => None
    end.
Proof. reflexivity. Qed.

(** An object with string values reads back. *)
Lemma parseValue_stringObject (ms : list (string * string)) f rest :
  ms <> [] ->
  (length ms + 1 <= f)%nat ->
  parseValue (S f)
    (units (stringify (JObject (List.map (fun kv : string * string =>
                                            (fst kv, JString (snd kv))) ms))) ++ rest)
  = Some (JObject (List.map (fun kv : string * string =>
                               (units (fst kv), JString (units (snd kv)))) ms), rest).
Proof.
  intros Hne Hf. destruct f as [|f]; [lia|].
  pose proof (parseMembers_strings ms f rest Hne ltac:(lia)) as Hms.
  rewrite stringify_object, !units_app, <- !app_assoc.
  change (units "{" ++ ?r) with (123%N :: r).
  change (units "}" ++ rest) with (125%N :: rest).
  destruct ms as [|[k v] ms]; [done|].
  assert (Hhead : exists r,
             units (String.concat ","
                      (List.map (fun kv : string * document =>
                                   quoted (fst kv) +:+ ":" +:+ stringify (snd kv))
                         (List.map (fun kv : string * string => (fst kv, JString (snd kv)))
                            ((k, v) :: ms))))
             ++ 125%N :: rest = 34%N :: r).
  { destruct ms as [|[k2 v2] ms]; cbn [List.map String.concat fst snd];
      rewrite ?units_app, <- ?app_assoc, units_quoted; eauto. }
  destruct Hhead as (r & Hhead). rewrite Hhead in Hms |- *.
  rewrite parseValue_object, Hms. reflexivity.
Qed.

Lemma parseElements_step f s :
  parseElements (S f) s
  = match parseValue f s with
    | Some (v, r) =>
        match skipWs r with
        | 44%N :: r' =>
            match parseElements f r' with
            | Some (vs, r'') => Some (v :: vs, r'')
            | None => None
            end
        | 93%N :: r' => Some ([v], r')
        | _ => None
        end
    | None => None
    end.
Proof. reflexivity. Qed.

Lemma widen_completed (tc : Llm.ToolCall) :
  widen (Llm.completed tc)
  = JObject (List.map (fun kv : string * string => (units (fst kv), JString (units (snd kv))))
               (Llm.completedMembers tc)).
Proof. unfold Llm.completed. cbn [widen]. rewrite List.map_map. reflexivity. Qed.

(** The elements of an array of completed tool calls read back. *)
Lemma parseElements_completed (tcs : list Llm.ToolCall) : forall f rest,
  tcs <> [] ->
  (length tcs + 5 <= f)%nat ->
  parseElements (S f)
    (units (String.concat "," (List.map stringify (List.map Llm.completed tcs)))
     ++ 93%N :: rest)
  = Some (List.map (fun tc => widen (Llm.completed tc)) tcs, rest).
Proof.
  assert (Hone : forall tc f rest, (5 <= f)%nat ->
            parseValue (S f) (units (stringify (Llm.completed tc)) ++ rest)
            = Some (widen (Llm.completed tc), rest)).
  { intros tc f rest Hf. rewrite widen_completed. unfold Llm.completed.
    apply parseValue_stringObject.
    - unfold Llm.completedMembers. done.
    - unfold Llm.completedMembers. destruct (Llm.name tc); cbn; lia. }
  induction tcs as [|tc tcs IH]; intros f rest Hne Hf; [done|].
  destruct f as [|f]; [lia|].
  rewrite parseElements_step.
  destruct tcs as [|tc2 tcs].
  - cbn [List.map String.concat]. rewrite Hone by (cbn in Hf; lia). reflexivity.
  - change (List.map Llm.completed (tc :: tc2 :: tcs))
      with (Llm.completed tc :: List.map Llm.completed (tc2 :: tcs)).
    set (tail := List.map Llm.completed (tc2 :: tcs)) in *.
    change (List.map stringify (Llm.completed tc :: tail))
      with (stringify (Llm.completed tc) :: List.map stringify tail).
    assert (Htail : exists y l, List.map stringify tail = y :: l)
      by (subst tail; cbn [List.map]; eauto).
    destruct Htail as (y & l & Htail).
    specialize (IH f rest). rewrite Htail in IH |- *.
    rewrite concat_comma_cons, !units_app, <- !app_assoc, Hone by (cbn in Hf; lia).
    change (units "," ++ ?r) with (44%N :: r).
    change (skipWs (44%N :: ?r)) with (44%N :: r). cbv iota.
    rewrite IH; [reflexivity | done | cbn in Hf |- *; lia].
Qed.

Lemma length_concat_comma (l : list string) :
  Forall (fun x => (1 <= String.length x)%nat) l ->
  (length l <= String.length (String.concat "," l))%nat.
Proof.
  induction 1 as [|x l Hx Hl IH]; [done|]. cbn beta in Hx.
  destruct l as [|y l].
  { cbn [length String.concat]. exact Hx. }
  rewrite concat_comma_cons, !length_append.
  generalize dependent (String.concat "," (y :: l)). intros c IH.
  change (String.length ",") with 1%nat. cbn [length] in *. lia.
Qed.

Lemma parseValue_array f r :
  parseValue (S f) (91%N :: 123%N :: r)
  = match parseElements f (123%N :: r) with
    | Some (vs, r') => Some (JArray vs, r')
    | None => None
    end.
Proof. reflexivity. Qed.

(** The payload of a finished stream reads back as an object with the one
    member [__tool_calls]. *)
Lemma parse_toolCallsPayload (m : list (nat * Llm.ToolCall)) :
  parse (Llm.toolCallsPayload m)
  = Some (widen
            (JObject
               [("__tool_calls",
                 JArray (List.map (fun kv => Llm.completed (snd kv)) m))])).
Proof.
  unfold Llm.toolCallsPayload.
  rewrite <- (List.map_map snd Llm.completed m).
  set (tcs := List.map snd m).
  unfold parse, read. rewrite length_units.
  set (text := stringify _).
  assert (Hlen : (length tcs + 19 <= String.length text)%nat).
  { subst text. rewrite stringify_object. cbn [List.map String.concat fst snd].
    rewrite stringify_array, !length_append.
    assert (length (List.map stringify (List.map Llm.completed tcs))
            <= String.length (String.concat "," (List.map stringify (List.map Llm.completed tcs))))%nat
      as Hc.
    { apply length_concat_comma, Forall_forall. intros x Hx.
      apply list_elem_of_In, in_map_iff in Hx as (v & <- & Hv).
      apply in_map_iff in Hv as (tc & <- & _).
      unfold Llm.completed. rewrite stringify_object, length_append. cbn. lia. }
    rewrite !length_map in Hc.
    replace (String.length (quoted "__tool_calls")) with 14%nat by (vm_compute; reflexivity).
    change (String.length "{") with 1%nat. change (String.length "}") with 1%nat.
    change (String.length "[") with 1%nat. change (String.length "]") with 1%nat.
    change (String.length ":") with 1%nat. lia. }
  destruct (2 * String.length text + 2)%nat as [|[|[|[|f]]]] eqn:Hfuel; [lia|lia|lia|lia|].
  assert (Hf : (length tcs + 5 <= f)%nat) by lia.
  assert (Hparse : parseValue (S (S (S (S f)))) (units text)
                   = Some (JObject
                             [(units "__tool_calls",
                               JArray (List.map (fun tc => widen (Llm.completed tc)) tcs))],
                           [])).
  { subst text. rewrite stringify_object. cbn [List.map String.concat fst snd].
    rewrite stringify_array, !units_app, <- !app_assoc.
    change (units "{" ++ ?r) with (123%N :: r).
    rewrite units_quoted, parseValue_object, <- units_quoted.
    change (units ":" ++ ?r) with (58%N :: r).
    rewrite parseMembers_member.
    change (units "[" ++ ?r) with (91%N :: r).
    change (units "]" ++ units "}") with [93%N; 125%N].
    destruct tcs as [|tc tcs'] eqn:Htcs.
    - reflexivity.
    - rewrite <- Htcs in *.
      assert (Hhead : exists r,
                 units (String.concat "," (List.map stringify (List.map Llm.completed tcs)))
                 ++ [93%N; 125%N] = 123%N :: r).
      { rewrite Htcs. destruct tcs' as [|tc2 tcs'']; cbn [List.map String.concat];
          unfold Llm.completed at 1; rewrite stringify_object, ?units_app, <- ?app_assoc;
          change (units "{" ++ ?r) with (123%N :: r); eauto. }
      destruct Hhead as (r & Hhead).
      pose proof (parseElements_completed tcs f [125%N] ltac:(by rewrite Htcs) Hf) as Hel.
      rewrite Hhead in Hel |- *. rewrite parseValue_array, Hel. reflexivity. }
  rewrite Hparse. cbn [skipWs widen List.map fst snd].
  rewrite List.map_map. reflexivity.
Qed.

(** No payload of the provider's stream is taken for a tool call by the turn:
    it has no member [__tool_call]. *)
Lemma toolCallsPayload_not_recognised (m : list (nat * Llm.ToolCall)) :
  Turn.toolCallIn (Llm.toolCallsPayload m) = None.
Proof.
  unfold Turn.toolCallIn. rewrite parse_toolCallsPayload.
  destruct (JS.includes _ _); reflexivity.
Qed.

End JsonFacts.

(** ** The turn on any stream of the provider *)

Section GeneralTurnFacts.
Import Server Turn.
Context `{Segmenter}.

(** Chunks that are not recognised leave [toolCallDetected] as it is and add
    no dispatch to the log. *)
Lemma consume_unrecognised socketId abortAt chunks :
  Forall (fun chunk => toolCallIn chunk = None) chunks ->
  forall k full call d log,
    toolCallDetected (consume socketId abortAt chunks k full call d log) = call
    /\ (forallb (fun e => negb (isDispatch e)) log = true ->
        forallb (fun e => negb (isDispatch e))
          (effects (consume socketId abortAt chunks k full call d log)) = true).
Proof.
  induction 1 as [|chunk chunks Hc _ IH]; intros k full call d log; [done|].
  cbn [consume]. destruct (isAborted abortAt k); [done|]. rewrite Hc.
  destruct (addChunk d chunk) as [d1 sentences].
  destruct (IH (S k) (full +:+ chunk) call d1
              (log ++ [AddChunk chunk]
               ++ List.flat_map
                    (fun sentence => [Emit socketId (AiResponse sentence true); Push sentence])
                    sentences)) as [IH1 IH2].
  split; [exact IH1|]. intros Hlog. apply IH2.
  rewrite forallb_app, Hlog. cbn [forallb isDispatch negb andb].
  clear. induction sentences as [|x l IHl]; [done|]. exact IHl.
Qed.

(** What the provider's stream yields is not recognised, as long as the text
    it carries is not itself the JSON text of a tool call. *)
Lemma streamOpenAIResponse_unrecognised (chunks : list Llm.StreamChunk) :
  (forall chunk text, chunk ∈ chunks -> Llm.content chunk = Some text ->
     toolCallIn text = None) ->
  forall toolCalls,
    Forall (fun y => toolCallIn y = None) (Llm.streamOpenAIResponse toolCalls chunks).
Proof.
  induction chunks as [|chunk chunks IH]; intros Htext toolCalls; [constructor|].
  cbn [Llm.streamOpenAIResponse]. rewrite !Forall_app. split; [|split].
  - destruct (Llm.content chunk) as [text|] eqn:Hc; cbn; [|done].
    destruct (JS.truthyString text); [|done].
    constructor; [|done]. apply (Htext chunk text); [by left|done].
  - destruct (Llm.finish_reason chunk) as [reason|]; [|done].
    destruct (_ && _); [|done].
    constructor; [|done]. apply toolCallsPayload_not_recognised.
  - apply IH. intros c t Hin. apply Htext. by right.
Qed.

(** X30. Whatever the provider streams, tool calls included, and whatever the
    schedule of the turn: no pending action is recorded and no request is
    dispatched, as long as the text of the stream is not itself the JSON text
    of a tool call. *)
Lemma provider_tool_call_never_dispatched (socketId : string) (session : Session)
    (userMessage : string) (chunks : list Llm.StreamChunk) (streamFails : bool)
    (abortAt : option nat) (tts : string -> option string) (random : nat) (now : Z) :
  (forall chunk text, chunk ∈ chunks -> Llm.content chunk = Some text ->
     toolCallIn text = None) ->
  let result :=
    handleUserMessage socketId session userMessage
      (Llm.streamResponse Llm.openai chunks "") streamFails abortAt tts random now in
  pendingWorkspaceAction (fst result) = pendingWorkspaceAction session
  /\ forallb (fun e => negb (isDispatch e)) (snd result) = true.
Proof.
  intros Htext result. subst result. unfold handleUserMessage, Llm.streamResponse.
  pose proof (streamOpenAIResponse_unrecognised chunks Htext []) as Hyields.
  set (start := [Emit socketId (Status "AI is thinking..."); StreamResponse _]).
  destruct (consume_unrecognised socketId abortAt _ Hyields 0%nat "" None newDetector start)
    as [Hcall Hlog].
  specialize (Hlog eq_refl). rewrite Hcall.
  destruct (streamFails && _).
  - cbn [fst snd]. split; [done|]. by rewrite forallb_app, Hlog.
  - destruct (isAborted abortAt (S _)); cbn [fst snd]; (split; [done|]);
      rewrite ?forallb_app, Hlog; cbn [andb]; by destruct (JS.truthyString _ && _).
Qed.

End GeneralTurnFacts.

(** A run of the above: the stream that calls the calendar tool. *)

Section GeneralTurnRuns.
Import Server Turn.

Lemma provider_tool_call_never_dispatched_witness :
  pendingWorkspaceAction
    (fst (handleUserMessage "sockA" (idleSession 1700000020000)
            "What is on my calendar tomorrow?"
            (Llm.streamResponse Llm.openai Llm.calendarStream "") false None
            (fun _ => Some "UklGRg") 2 1700000050000))
  = None.
Proof.
  apply (provider_tool_call_never_dispatched "sockA" (idleSession 1700000020000)
           "What is on my calendar tomorrow?" Llm.calendarStream false None
           (fun _ => Some "UklGRg") 2 1700000050000).
  intros chunk text Hin Hcontent.
  repeat (apply elem_of_cons in Hin as [->|Hin];
          [cbn in Hcontent;
           first [discriminate | injection Hcontent as <-; vm_compute; reflexivity]|]).
  by apply not_elem_of_nil in Hin.
Defined.

End GeneralTurnRuns.

(** ** The audio stream *)

Section AudioFacts.
Import Audio.

Lemma bufferChunk_length buffer chunk :
  (length buffer <= 20)%nat -> (length (bufferChunk buffer chunk) <= 20)%nat.
Proof.
  intros Hb. unfold bufferChunk.
  destruct (Nat.ltb_spec 20 (length (buffer ++ [chunk]))) as [Hlt|Hle]; [|done].
  rewrite length_app in Hlt. cbn in Hlt.
  destruct buffer as [|x buffer]; cbn in *; [lia|]. rewrite length_app. cbn. lia.
Qed.

Lemma bufferChunk_lastN (l : list string) chunk :
  bufferChunk (lastN 20 l) chunk = lastN 20 (l ++ [chunk]).
Proof.
  unfold bufferChunk, lastN. rewrite !length_app, length_drop. cbn [length].
  destruct (Nat.ltb_spec 20 (length l - (length l - 20) + 1)) as [Hlt|Hle].
  - replace (length l + 1 - 20)%nat with (S (length l - 20)) by lia.
    rewrite <- (drop_app_le l [chunk]) by lia.
    change (S (length l - 20)) with (1 + (length l - 20))%nat.
    rewrite Nat.add_comm, <- drop_drop. by destruct (drop _ _).
  - replace (length l - 20)%nat with 0%nat by lia.
    replace (length l + 1 - 20)%nat with 0%nat by lia. done.
Qed.

Lemma receiveAll_app st arrivals more :
  receiveAll st (arrivals ++ more)
  = (fst (receiveAll (fst (receiveAll st arrivals)) more),
     snd (receiveAll st arrivals) ++ snd (receiveAll (fst (receiveAll st arrivals)) more)).
Proof.
  revert st. induction arrivals as [|a arrivals IH]; intros st.
  { cbn. by destruct (receiveAll st more). }
  cbn [app receiveAll].
  destruct (audioStream st (audioData a) (listening a) (readyState a)) as [st1 sent].
  rewrite IH. destruct (receiveAll st1 arrivals) as [st2 s2]. cbn [fst snd].
  destruct (receiveAll st2 more). cbn. by rewrite app_assoc.
Qed.

Lemma buffer_bounded arrivals : forall st,
  (length (audioBuffer st) <= 20)%nat ->
  (length (audioBuffer (fst (receiveAll st arrivals))) <= 20)%nat.
Proof.
  induction arrivals as [|a arrivals IH]; intros st Hb; [done|].
  cbn [receiveAll].
  destruct (audioStream st (audioData a) (listening a) (readyState a)) as [st1 sent] eqn:Hs.
  specialize (IH st1). destruct (receiveAll st1 arrivals) as [st2 more]. cbn [fst] in *.
  apply IH. unfold audioStream in Hs.
  repeat case_match; simplify_eq; cbn; try done; try lia.
  by apply bufferChunk_length.
Qed.

(** X1. From the start of a call on, whatever arrives and whatever the state
    of the transcription socket, the audio buffer never holds more than 20
    chunks. *)
Theorem audio_buffer_never_exceeds_20 (arrivals : list Arrival) :
  (length (audioBuffer (fst (receiveAll reset arrivals))) <= 20)%nat.
Proof. apply buffer_bounded. cbn. lia. Qed.

Lemma connecting_buffers (chunks : list string) : forall seen,
  receiveAll {| audioChunkCount := length seen; audioBuffer := lastN 20 seen;
                deepgramReady := false |} (List.map connecting chunks)
  = ({| audioChunkCount := length (seen ++ chunks);
        audioBuffer := lastN 20 (seen ++ chunks); deepgramReady := false |}, []).
Proof.
  induction chunks as [|c chunks IH]; intros seen.
  { cbn. by rewrite app_nil_r. }
  cbn [List.map receiveAll connecting audioData listening readyState].
  unfold audioStream. cbn [Nat.eqb audioChunkCount audioBuffer deepgramReady].
  rewrite bufferChunk_lastN.
  specialize (IH (seen ++ [c])). rewrite length_app in IH. cbn [length] in IH.
  rewrite Nat.add_1_r in IH. rewrite IH, <- app_assoc. done.
Qed.

(** X2. Audio that arrives from the start of a call while the transcription
    socket is connecting is held and nothing is sent; the buffer holds the 20
    most recent chunks, in arrival order.  The first chunk that finds the
    socket open is sent after the held chunks, in arrival order, and leaves the
    buffer empty. *)
Theorem connecting_audio_is_flushed_in_order (chunks : list string) (first : string) :
  receiveAll reset (List.map connecting chunks)
    = ({| audioChunkCount := length chunks; audioBuffer := lastN 20 chunks;
          deepgramReady := false |}, [])
  /\ snd (receiveAll reset (List.map connecting chunks ++ [open first]))
     = lastN 20 chunks ++ [first]
  /\ audioBuffer (fst (receiveAll reset (List.map connecting chunks ++ [open first]))) = [].
Proof.
  pose proof (connecting_buffers chunks []) as Hc. cbn [app length] in Hc.
  change (lastN 20 []) with (@nil string) in Hc. fold reset in Hc.
  split; [exact Hc|].
  rewrite receiveAll_app, Hc. cbn [fst snd app receiveAll open audioData listening readyState].
  unfold audioStream. cbn [Nat.eqb audioChunkCount audioBuffer deepgramReady negb andb].
  destruct (lastN 20 chunks) as [|x l] eqn:Hl; cbn; rewrite ?app_nil_r; done.
Qed.

Lemma bufferChunk_sublist buffer chunk :
  bufferChunk buffer chunk `sublist_of` buffer ++ [chunk].
Proof.
  unfold bufferChunk. destruct (Nat.ltb _ _); [|done].
  destruct (buffer ++ [chunk]) as [|x l]; [done|]. cbn. by apply sublist_cons.
Qed.

Lemma sent_in_order arrivals : forall st,
  snd (receiveAll st arrivals)
    `sublist_of` (if deepgramReady st then [] else audioBuffer st)
                 ++ List.map audioData arrivals.
Proof.
  induction arrivals as [|a arrivals IH]; intros st.
  { cbn. apply sublist_nil_l. }
  cbn [receiveAll List.map].
  destruct (audioStream st (audioData a) (listening a) (readyState a)) as [st1 sent] eqn:Hs.
  specialize (IH st1). destruct (receiveAll st1 arrivals) as [st2 more]. cbn [fst snd] in *.
  unfold audioStream in Hs.
  destruct (listening a); [destruct (Nat.eqb (readyState a) 1)|].
  - destruct (negb (Nat.eqb (length (audioBuffer st)) 0) && negb (deepgramReady st)) eqn:Hf.
    + injection Hs as <- <-. cbn in IH.
      apply andb_prop in Hf as [_ Hr]. apply negb_true_iff in Hr. rewrite Hr.
      rewrite <- app_assoc. apply sublist_app; [done|]. by apply sublist_skip.
    + injection Hs as <- <-. cbn in IH.
      assert (Hpre : (if deepgramReady st then [] else audioBuffer st) = []).
      { destruct (deepgramReady st); [done|]. cbn in Hf. rewrite andb_true_r in Hf.
        apply negb_false_iff, Nat.eqb_eq in Hf. by destruct (audioBuffer st). }
      rewrite Hpre in *. cbn. by apply sublist_skip.
  - injection Hs as <- <-. cbn in IH. cbn [app].
    etransitivity; [exact IH|].
    destruct (deepgramReady st).
    + cbn. by apply sublist_cons.
    + change (audioData a :: List.map audioData arrivals)
        with ([audioData a] ++ List.map audioData arrivals).
      rewrite app_assoc. apply sublist_app; [apply bufferChunk_sublist|done].
  - injection Hs as <- <-. cbn in IH. cbn [app].
    etransitivity; [exact IH|]. apply sublist_app; [done|]. by apply sublist_cons.
Qed.

(** X3. Whatever arrives during a call, the chunks handed to the transcription
    service are chunks that arrived, each at most once and in arrival order. *)
Theorem audio_is_sent_in_arrival_order (arrivals : list Arrival) :
  snd (receiveAll reset arrivals) `sublist_of` List.map audioData arrivals.
Proof. apply (sent_in_order arrivals reset). Qed.

(** X4. Once the buffer has been flushed in a call, the handler sends the
    chunks that find the socket open and no others: a chunk that arrives while
    the socket is not open goes to the buffer and is not sent later in that
    call. *)
Theorem buffered_audio_after_flush_is_never_sent (st : AudioState)
    (arrivals : list Arrival) :
  deepgramReady st = true ->
  snd (receiveAll st arrivals)
  = List.map audioData
      (List.filter (fun a => listening a && Nat.eqb (readyState a) 1) arrivals)
  /\ deepgramReady (fst (receiveAll st arrivals)) = true.
Proof.
  revert st. induction arrivals as [|a arrivals IH]; intros st Hr; [done|].
  cbn [receiveAll List.filter].
  destruct (audioStream st (audioData a) (listening a) (readyState a)) as [st1 sent] eqn:Hs.
  assert (H1 : deepgramReady st1 = true
               /\ sent = if listening a && Nat.eqb (readyState a) 1
                         then [audioData a] else []).
  { unfold audioStream in Hs. rewrite Hr, andb_false_r in Hs.
    destruct (listening a); [destruct (Nat.eqb (readyState a) 1)|];
      injection Hs as <- <-; done. }
  destruct H1 as [Hr1 ->]. specialize (IH st1 Hr1).
  destruct (receiveAll st1 arrivals) as [st2 more]. cbn [fst snd] in *.
  destruct IH as [-> ->]. by destruct (listening a && Nat.eqb (readyState a) 1).
Qed.

Lemma buffered_audio_after_flush_is_never_sent_witness :
  snd (receiveAll reset [connecting "AAAA"; open "BBBB"; connecting "CCCC"; open "DDDD"])
  = ["AAAA"; "BBBB"; "DDDD"]
  /\ snd (receiveAll (fst (receiveAll reset [connecting "AAAA"; open "BBBB"]))
            [connecting "CCCC"; open "DDDD"])
     = ["DDDD"].
Proof.
  split; [reflexivity|].
  apply (buffered_audio_after_flush_is_never_sent
           (fst (receiveAll reset [connecting "AAAA"; open "BBBB"]))
           [connecting "CCCC"; open "DDDD"]).
  reflexivity.
Defined.

End AudioFacts.

(** ** More on the synthesis worker *)

Section WorkerMoreFacts.
Import Tts.

Lemma aborted_step s l s' :
  aborted s = true -> step s l = Some s' ->
  aborted s' = true
  /\ emitted s' = emitted s
  /\ sentenceCount s' = sentenceCount s
  /\ spoken s' = spoken s.
Proof.
  intros Ha Hstep. destruct l as [item| | | |audio]; cbn [step] in Hstep.
  - by injection Hstep as <-.
  - by injection Hstep as <-.
  - by injection Hstep as <-.
  - destruct (worker s); try done.
    destruct (AsyncQueue.next (ttsQueue s)) as [sentence rest| |]; [| |done];
      injection Hstep as <-; [|done]. unfold receive. by rewrite Ha.
  - destruct (worker s) as [|sentence|]; try done.
    injection Hstep as <-. unfold resumeAfterSynthesis. rewrite Ha.
    by destruct audio.
Qed.

(** X5. Once the pipeline controller is aborted, the worker sends nothing
    more to the socket and requests no further synthesis, whatever is pushed
    or answered afterwards. *)
Theorem aborted_worker_sends_nothing (s : Sys) (ls : list Label) (s' : Sys) :
  aborted s = true ->
  run s ls = Some s' ->
  emitted s' = emitted s
  /\ sentenceCount s' = sentenceCount s
  /\ spoken s' = spoken s.
Proof.
  revert s. induction ls as [|l ls IH]; intros s Ha Hrun; cbn [run] in Hrun.
  { by injection Hrun as <-. }
  destruct (step s l) as [s1|] eqn:Hstep; [|done].
  destruct (aborted_step _ _ _ Ha Hstep) as (Ha1 & He & Hc & Hs).
  destruct (IH s1 Ha1 Hrun) as (He' & Hc' & Hs'). repeat split; congruence.
Qed.

Lemma aborted_worker_sends_nothing_witness :
  (emitted <$> run initial
     [Push "One."; Push "Two."; Resume; Abort; Answer (Some "audio-1"); Push "Three."; Close])
  = Some [Server.Status "AI is speaking..."].
Proof.
  destruct (aborted_worker_sends_nothing
              (default initial (run initial [Push "One."; Push "Two."; Resume; Abort]))
              [Answer (Some "audio-1"); Push "Three."; Close]
              (default initial
                 (run initial [Push "One."; Push "Two."; Resume; Abort;
                               Answer (Some "audio-1"); Push "Three."; Close])))
    as (He & _); [reflexivity | reflexivity |].
  change (run initial [Push "One."; Push "Two."; Resume; Abort;
                       Answer (Some "audio-1"); Push "Three."; Close])
    with (Some (default initial
                  (run initial [Push "One."; Push "Two."; Resume; Abort;
                                Answer (Some "audio-1"); Push "Three."; Close]))).
  cbn [fmap option_fmap option_map]. rewrite He. reflexivity.
Defined.

Lemma socket_output_step s l s' :
  step s l = Some s' ->
  (emitted s = (if Nat.eqb (sentenceCount s) 0 then []
                else [Server.Status "AI is speaking..."])
               ++ List.map Server.AudioResponse (spoken s).*2
   /\ (sentenceCount s = 0%nat -> spoken s = [] /\ forall x, worker s <> Synthesizing x)) ->
  emitted s' = (if Nat.eqb (sentenceCount s') 0 then []
                else [Server.Status "AI is speaking..."])
               ++ List.map Server.AudioResponse (spoken s').*2
  /\ (sentenceCount s' = 0%nat -> spoken s' = [] /\ forall x, worker s' <> Synthesizing x).
Proof.
  intros Hstep [He H0]. destruct l as [item| | | |audio]; cbn [step] in Hstep.
  - by injection Hstep as <-.
  - by injection Hstep as <-.
  - by injection Hstep as <-.
  - destruct (worker s) eqn:Hw; try done.
    destruct (AsyncQueue.next (ttsQueue s)) as [sentence rest| |]; [| |done];
      injection Hstep as <-.
    + unfold receive.
      destruct (aborted s); [|destruct (negb (JS.truthyString sentence))]; cbn.
      * split; [done|]. intros Hc. split; [by apply H0|done].
      * split; [done|]. intros Hc. split; [by apply H0|done].
      * split; [|done]. rewrite He.
        destruct (sentenceCount s) as [|n]; cbn.
        -- destruct (H0 eq_refl) as [-> _]. done.
        -- by rewrite app_nil_r.
    + cbn. split; [done|]. intros Hc. split; [by apply H0|done].
  - destruct (worker s) as [|sentence|] eqn:Hw; try done.
    injection Hstep as <-. unfold resumeAfterSynthesis.
    assert (Hn : Nat.eqb (sentenceCount s) 0 = false).
    { apply Nat.eqb_neq. intros Hc. destruct (H0 Hc) as [_ Hno]. by apply (Hno sentence). }
    destruct audio as [a|]; [destruct (aborted s)|]; cbn; rewrite ?Hn in *.
    + split; [done|]. intros Hc. rewrite Hc in Hn. done.
    + split; [|intros Hc; rewrite Hc in Hn; done].
      rewrite He, fmap_app, map_app, app_assoc. done.
    + split; [done|]. intros Hc. rewrite Hc in Hn. done.
Qed.

(** X6. In every state of a turn, what the worker has sent to the socket is
    the status [AI is speaking...] once, sent when it starts on its first
    sentence, followed by the audio of the sentences spoken, in that order, and
    nothing else. *)
Theorem worker_socket_output (ls : list Label) (s : Sys) :
  run initial ls = Some s ->
  emitted s = (if Nat.eqb (sentenceCount s) 0 then []
               else [Server.Status "AI is speaking..."])
              ++ List.map Server.AudioResponse (spoken s).*2.
Proof.
  assert (Hgen : forall ls s0 s,
            run s0 ls = Some s ->
            (emitted s0 = (if Nat.eqb (sentenceCount s0) 0 then []
                           else [Server.Status "AI is speaking..."])
                          ++ List.map Server.AudioResponse (spoken s0).*2
             /\ (sentenceCount s0 = 0%nat ->
                 spoken s0 = [] /\ forall x, worker s0 <> Synthesizing x)) ->
            emitted s = (if Nat.eqb (sentenceCount s) 0 then []
                         else [Server.Status "AI is speaking..."])
                        ++ List.map Server.AudioResponse (spoken s).*2).
  { clear. induction ls as [|l ls IH]; intros s0 s Hrun Hinv; cbn [run] in Hrun.
    - injection Hrun as <-. by destruct Hinv.
    - destruct (step s0 l) as [s1|] eqn:Hstep; [|done].
      apply (IH s1 s Hrun). by apply (socket_output_step s0 l). }
  intros Hrun. apply (Hgen ls initial s Hrun). cbn. done.
Qed.

Lemma worker_socket_output_witness :
  (emitted <$> run initial
     [Push "One."; Push "Two."; Resume; Answer (Some "audio-1"); Resume; Answer None])
  = Some [Server.Status "AI is speaking..."; Server.AudioResponse "audio-1"].
Proof.
  pose proof (worker_socket_output
                [Push "One."; Push "Two."; Resume; Answer (Some "audio-1"); Resume; Answer None]
                (default initial
                   (run initial [Push "One."; Push "Two."; Resume; Answer (Some "audio-1");
                                 Resume; Answer None]))
                eq_refl) as He.
  change (run initial [Push "One."; Push "Two."; Resume; Answer (Some "audio-1");
                       Resume; Answer None])
    with (Some (default initial
                  (run initial [Push "One."; Push "Two."; Resume; Answer (Some "audio-1");
                                Resume; Answer None]))).
  cbn [fmap option_fmap option_map]. rewrite He. reflexivity.
Defined.

Lemma drained_step s l s' :
  step s l = Some s' ->
  (aborted s = false -> Forall (fun x => JS.truthyString x = true) (taken s) ->
   sentenceCount s = length (taken s)
   /\ (worker s = Returned -> AsyncQueue.closed (ttsQueue s) = true)) ->
  aborted s' = false -> Forall (fun x => JS.truthyString x = true) (taken s') ->
  sentenceCount s' = length (taken s')
  /\ (worker s' = Returned -> AsyncQueue.closed (ttsQueue s') = true).
Proof.
  intros Hstep Hinv Ha' Ht'. destruct l as [item| | | |audio]; cbn [step] in Hstep.
  - injection Hstep as <-. cbn in *. by apply Hinv.
  - injection Hstep as <-. cbn in *. split; [by apply Hinv|done].
  - injection Hstep as <-. cbn in *. done.
  - destruct (worker s) eqn:Hw; try done.
    unfold AsyncQueue.next in Hstep.
    destruct (AsyncQueue.items (ttsQueue s)) as [|sentence rest] eqn:Hq.
    + destruct (AsyncQueue.closed (ttsQueue s)) eqn:Hc; [|done].
      injection Hstep as <-. cbn in *. split; [by apply Hinv|done].
    + injection Hstep as <-. unfold receive in *.
      destruct (aborted s) eqn:Ha; [cbn in Ha'; done|].
      assert (Htaken : Forall (fun x => JS.truthyString x = true) (taken s ++ [sentence])).
      { by destruct (negb (JS.truthyString sentence)). }
      apply Forall_app in Htaken as [Ht Hs]. rewrite Forall_singleton in Hs.
      rewrite Hs. cbn. destruct (Hinv eq_refl Ht) as [Hcount _].
      rewrite length_app, Hcount. cbn. split; [lia|done].
  - destruct (worker s) as [|sentence|] eqn:Hw; try done.
    injection Hstep as <-. unfold resumeAfterSynthesis in *.
    destruct audio as [a|]; [destruct (aborted s) eqn:Ha|]; cbn in *; try done.
    + split; [by apply Hinv|done].
    + split; [by apply Hinv|done].
Qed.

(** X7. In a turn that is not aborted and whose queued items are all
    non-empty, the worker requests one synthesis for each item it receives,
    and it returns only after the queue has been closed. *)
Theorem worker_returns_only_when_closed (ls : list Label) (s : Sys) :
  run initial ls = Some s ->
  aborted s = false ->
  Forall (fun x => JS.truthyString x = true) (taken s) ->
  sentenceCount s = length (taken s)
  /\ (worker s = Returned -> AsyncQueue.closed (ttsQueue s) = true).
Proof.
  assert (Hgen : forall ls s0 s,
            run s0 ls = Some s ->
            (aborted s0 = false -> Forall (fun x => JS.truthyString x = true) (taken s0) ->
             sentenceCount s0 = length (taken s0)
             /\ (worker s0 = Returned -> AsyncQueue.closed (ttsQueue s0) = true)) ->
            aborted s = false -> Forall (fun x => JS.truthyString x = true) (taken s) ->
            sentenceCount s = length (taken s)
            /\ (worker s = Returned -> AsyncQueue.closed (ttsQueue s) = true)).
  { clear. induction ls as [|l ls IH]; intros s0 s Hrun Hinv; cbn [run] in Hrun.
    - by injection Hrun as <-.
    - destruct (step s0 l) as [s1|] eqn:Hstep; [|done].
      apply (IH s1 s Hrun). by apply (drained_step s0 l). }
  intros Hrun. apply (Hgen ls initial s Hrun). cbn. done.
Qed.

Lemma worker_returns_only_when_closed_witness :
  (sentenceCount <$> run initial
     [Push "One."; Resume; Push "Two."; Answer None; Resume; Answer (Some "audio-2");
      Close; Resume])
  = Some 2%nat.
Proof.
  destruct (worker_returns_only_when_closed
              [Push "One."; Resume; Push "Two."; Answer None; Resume;
               Answer (Some "audio-2"); Close; Resume]
              (default initial
                 (run initial [Push "One."; Resume; Push "Two."; Answer None; Resume;
                               Answer (Some "audio-2"); Close; Resume])))
    as [Hc _]; [reflexivity | reflexivity | |].
  - repeat constructor.
  - change (run initial [Push "One."; Resume; Push "Two."; Answer None; Resume;
                         Answer (Some "audio-2"); Close; Resume])
      with (Some (default initial
                    (run initial [Push "One."; Resume; Push "Two."; Answer None; Resume;
                                  Answer (Some "audio-2"); Close; Resume]))).
    cbn [fmap option_fmap option_map]. rewrite Hc. reflexivity.
Defined.

End WorkerMoreFacts.

(** ** The stream of the provider *)

Section StreamFacts.
Import Llm Deltas.

Lemma absorb_keys (m : list (nat * ToolCall)) (tc : ToolCallDelta) :
  NoDup m.*1 -> NoDup (absorb m tc).*1.
Proof.
  assert (Hset : forall key v m, (mapSet key v m).*1 = m.*1
                                 \/ ((mapSet key v m).*1 = m.*1 ++ [key] /\ key ∉ m.*1)).
  { clear. intros key v. induction m as [|[k w] rest IH]; cbn.
    - right. split; [done|]. apply not_elem_of_nil.
    - destruct (Nat.eqb k key) eqn:Hk; cbn; [by left|].
      apply Nat.eqb_neq in Hk.
      destruct IH as [-> | [-> Hnot]]; [by left|]. right. split; [done|].
      rewrite not_elem_of_cons. split; [congruence|done]. }
  assert (Happ : forall key more m, (appendArgs key more m).*1 = m.*1).
  { clear. intros key more. induction m as [|[k w] rest IH]; cbn; [done|].
    destruct (Nat.eqb k key); cbn; [done|]. by rewrite IH. }
  intros Hm. unfold absorb.
  set (i := default 0%nat (index tc)).
  set (v := {| callId := default "" (id tc); name := functionName tc; argsBuffer := "" |}).
  assert (Hm1 : NoDup (if truthyOptString (id tc) then mapSet i v m else m).*1).
  { destruct (truthyOptString (id tc)); [|done].
    destruct (Hset i v m) as [-> | [-> Hnot]]; [done|].
    apply NoDup_app. split; [done|]. split; [|apply NoDup_singleton].
    intros x Hx Hx'. apply list_elem_of_singleton in Hx'. by subst. }
  destruct (truthyOptString (functionArguments tc)); [|done]. by rewrite Happ.
Qed.

(** X8. Everything the stream yields is either the non-empty text of one of
    its chunks or the payload of a non-empty map of tool calls in which no two
    calls stand for the same index, whatever deltas the provider sends. *)
Theorem stream_yields_text_or_distinct_calls (chunks : list StreamChunk) :
  Forall (fun y =>
            (exists chunk, chunk ∈ chunks /\ content chunk = Some y
                           /\ JS.truthyString y = true)
            \/ (exists m, m <> [] /\ NoDup m.*1 /\ y = toolCallsPayload m))
    (streamOpenAIResponse [] chunks).
Proof.
  assert (Hfold : forall deltas m, NoDup m.*1 -> NoDup (List.fold_left absorb deltas m).*1).
  { induction deltas as [|tc deltas IH]; intros m Hm; [done|].
    cbn [List.fold_left]. apply IH. by apply absorb_keys. }
  assert (Hgen : forall chunks m,
            NoDup m.*1 ->
            Forall (fun y =>
                      (exists chunk, chunk ∈ chunks /\ content chunk = Some y
                                     /\ JS.truthyString y = true)
                      \/ (exists m, m <> [] /\ NoDup m.*1 /\ y = toolCallsPayload m))
              (streamOpenAIResponse m chunks)).
  { clear chunks. induction chunks as [|chunk chunks IH]; intros m Hm; [constructor|].
    cbn [streamOpenAIResponse].
    set (m1 := match tool_calls chunk with
               | Some tcs => List.fold_left absorb tcs m
               | None => m
               end).
    assert (Hm1 : NoDup m1.*1).
    { subst m1. destruct (tool_calls chunk); [by apply Hfold|done]. }
    rewrite !Forall_app. split; [|split].
    - destruct (content chunk) as [text|] eqn:Hc; cbn [truthyOptString]; [|constructor].
      destruct (JS.truthyString text) eqn:Ht; [|constructor].
      constructor; [|constructor]. left. exists chunk.
      split; [by left|]. by split.
    - destruct (finish_reason chunk) as [reason|]; [|constructor].
      destruct (String.eqb reason "tool_calls"); cbn [andb]; [|constructor].
      clearbody m1. destruct m1 as [|kv more]; cbn [length Nat.eqb negb]; [constructor|].
      constructor; [|constructor]. right. exists (kv :: more). by split.
    - eapply Forall_impl; [apply (IH m1 Hm1)|].
      intros y [(c & Hin & Hc & Ht)|Hpay]; [|by right].
      left. exists c. split; [by right|]. by split. }
  apply Hgen. constructor.
Qed.

Lemma absorb_without_id (tc : ToolCallDelta) :
  truthyOptString (id tc) = false -> absorb [] tc = [].
Proof.
  intros Hid. unfold absorb. rewrite Hid.
  destruct (truthyOptString (functionArguments tc)); reflexivity.
Qed.

(** X9. Text deltas pass through in order and tool-call deltas are never
    yielded as they arrive: a stream in which no delta carries a call id
    yields its non-empty text deltas and nothing else, also when it finishes
    with [tool_calls]. *)
Theorem stream_without_call_id_yields_text (chunks : list StreamChunk) :
  Forall (fun chunk =>
            Forall (fun tc => truthyOptString (id tc) = false) (deltasOf chunk)) chunks ->
  streamOpenAIResponse [] chunks = List.flat_map textOf chunks.
Proof.
  induction 1 as [|chunk chunks Hc _ IH]; [done|].
  cbn [streamOpenAIResponse List.flat_map].
  assert (Hm : match tool_calls chunk with
               | Some tcs => List.fold_left absorb tcs []
               | None => []
               end = []).
  { unfold deltasOf in Hc. destruct (tool_calls chunk) as [tcs|]; [|done].
    cbn in Hc. induction Hc as [|tc tcs Htc _ IHtc]; [done|].
    cbn [List.fold_left]. by rewrite absorb_without_id. }
  rewrite Hm, IH. unfold textOf.
  destruct (finish_reason chunk) as [reason|]; [|done].
  cbn [length Nat.eqb negb]. by rewrite andb_false_r.
Qed.

Lemma stream_without_call_id_yields_text_witness :
  streamOpenAIResponse []
    [ {| content := Some "Hello"; tool_calls := None; finish_reason := None |};
      fragment 0 "{}";
      {| content := Some ""; tool_calls := None; finish_reason := None |};
      {| content := Some " there."; tool_calls := None; finish_reason := None |};
      finish ]
  = ["Hello"; " there."].
Proof.
  rewrite (stream_without_call_id_yields_text _); [reflexivity|].
  repeat constructor.
Defined.

Lemma fragments_extend (i : nat) (call : ToolCall) (pieces : list string)
    (rest : list StreamChunk) :
  streamOpenAIResponse [(i, call)] (List.map (fragment i) pieces ++ rest)
  = streamOpenAIResponse
      [(i, {| callId := callId call; name := name call;
              argsBuffer := argsBuffer call +:+ String.concat "" pieces |})] rest.
Proof.
  revert call. induction pieces as [|piece pieces IH]; intros call.
  - cbn [List.map app String.concat]. rewrite append_nil_r. by destruct call.
  - cbn [List.map app]. cbn [streamOpenAIResponse fragment tool_calls content finish_reason
                               truthyOptString List.fold_left app].
    unfold absorb.
    cbn [id index functionArguments functionName truthyOptString default option_rect
           from_option].
    destruct (JS.truthyString piece) eqn:Hp.
    + cbn [appendArgs]. rewrite Nat.eqb_refl, IH. cbn [callId name argsBuffer].
      rewrite concat_cons, append_assoc. reflexivity.
    + rewrite IH. destruct piece as [|c piece]; [|done].
      rewrite concat_cons. cbn [callId name argsBuffer]. by rewrite append_nil_l.
Qed.

Lemma opening_starts (i : nat) (cid : string) (fname first : option string)
    (rest : list StreamChunk) :
  JS.truthyString cid = true ->
  streamOpenAIResponse [] (opening i cid fname first :: rest)
  = streamOpenAIResponse
      [(i, {| callId := cid; name := fname; argsBuffer := default "" first |})] rest.
Proof.
  intros Hcid.
  cbn [streamOpenAIResponse opening tool_calls content finish_reason truthyOptString
         List.fold_left app].
  unfold absorb.
  cbn [id index functionArguments functionName truthyOptString default option_rect
         from_option mapSet].
  rewrite Hcid. destruct first as [[|c f]|]; cbn; rewrite ?Nat.eqb_refl; reflexivity.
Qed.

(** X10. However the provider cuts the arguments of a call into pieces, the
    stream yields at its end one payload, in which the call carries its id, its
    name and the pieces joined in arrival order; the payload is JSON text that
    reads back as an object with the one member [__tool_calls]. *)
Theorem arguments_are_reassembled (i : nat) (cid : string) (fname first : option string)
    (pieces : list string) :
  JS.truthyString cid = true ->
  let call := {| callId := cid; name := fname;
                 argsBuffer := default "" first +:+ String.concat "" pieces |} in
  let yields :=
    streamOpenAIResponse []
      (opening i cid fname first :: List.map (fragment i) pieces ++ [finish]) in
  yields = [toolCallsPayload [(i, call)]]
  /\ (Json.parse <$> yields)
     = [Some (Json.widen
                (Json.JObject [("__tool_calls", Json.JArray [completed call])]))].
Proof.
  intros Hcid call yields.
  assert (Hy : yields = [toolCallsPayload [(i, call)]]).
  { subst yields call. rewrite (opening_starts _ _ _ _ _ Hcid), fragments_extend.
    reflexivity. }
  split; [exact Hy|]. rewrite Hy. cbn [fmap list_fmap].
  by rewrite parse_toolCallsPayload.
Qed.

Lemma arguments_are_reassembled_witness :
  streamOpenAIResponse []
    (opening 0 "call_1" (Some "google_workspace_action") (Some "")
     :: List.map (fragment 0)
          ["{" +:+ Json.quoted "action" +:+ ":" +:+ Json.quoted "calendar" +:+ ",";
           Json.quoted "request" +:+ ":" +:+ Json.quoted "What is on my calendar tomorrow"
           +:+ "}"]
     ++ [finish])
  = [calendarPayload].
Proof.
  destruct (arguments_are_reassembled 0 "call_1" (Some "google_workspace_action") (Some "")
              ["{" +:+ Json.quoted "action" +:+ ":" +:+ Json.quoted "calendar" +:+ ",";
               Json.quoted "request" +:+ ":"
               +:+ Json.quoted "What is on my calendar tomorrow" +:+ "}"]
              eq_refl) as [Hy _].
  rewrite Hy. vm_compute. reflexivity.
Defined.

End StreamFacts.

(** ** More on the turn *)

Section TurnMoreFacts.
Import Server Turn TurnLog.
Context `{Segmenter}.

Lemma pushes_app (l1 l2 : list Effect) : pushes (l1 ++ l2) = pushes l1 ++ pushes l2.
Proof. apply flat_map_app. Qed.

Lemma responses_app (l1 l2 : list Effect) :
  responses (l1 ++ l2) = responses l1 ++ responses l2.
Proof. apply flat_map_app. Qed.

Lemma sentences_log (socketId : string) (sentences : list string) :
  let log := List.flat_map
               (fun sentence => [Emit socketId (AiResponse sentence true); Push sentence])
               sentences in
  forallb isStreaming log = true /\ pushes log = sentences /\ responses log = sentences.
Proof.
  induction sentences as [|x l (IH1 & IH2 & IH3)]; [done|].
  cbn. split; [exact IH1|]. split; f_equal; assumption.
Qed.

(** The loop over the stream only extends the log, by streaming effects in
    which every queued item follows its [ai-response]. *)
Lemma consume_log socketId abortAt chunks :
  forall k full call d log,
  exists ext,
    effects (consume socketId abortAt chunks k full call d log) = log ++ ext
    /\ forallb isStreaming ext = true
    /\ pushes ext = responses ext.
Proof.
  induction chunks as [|chunk chunks IH]; intros k full call d log.
  { exists []. cbn. by rewrite app_nil_r. }
  cbn [consume]. destruct (isAborted abortAt k).
  { exists []. cbn. by rewrite app_nil_r. }
  destruct (toolCallIn chunk); [apply IH|].
  destruct (addChunk d chunk) as [d1 sentences].
  destruct (sentences_log socketId sentences) as (Hs1 & Hs2 & Hs3).
  set (said := List.flat_map
                 (fun sentence => [Emit socketId (AiResponse sentence true); Push sentence])
                 sentences) in *.
  destruct (IH (S k) (full +:+ chunk) call d1 (log ++ [AddChunk chunk] ++ said))
    as (ext & Hext & Hext1 & Hext2).
  exists ([AddChunk chunk] ++ said ++ ext). rewrite Hext.
  split; [by rewrite <- !app_assoc|].
  rewrite !forallb_app, !pushes_app, !responses_app, Hs1, Hs2, Hs3, Hext1, Hext2.
  split; reflexivity.
Qed.

Lemma streaming_not_dispatch (l : list Effect) :
  forallb isStreaming l = true ->
  List.filter isDispatch l = [] /\ forallb (fun e => negb (isQueueEnd e)) l = true.
Proof.
  induction l as [|e l IH]; [done|]. cbn [forallb]. intros [He Hl]%andb_true_iff.
  destruct (IH Hl) as [IH1 IH2]. cbn [List.filter forallb]. rewrite IH1, IH2.
  by destruct e.
Qed.


(** X11. Whatever the stream, the schedule of the abort flag and the
    providers do, a turn changes the session object only by appending to its
    history the user message and then at most one assistant entry, and by
    setting [pendingWorkspaceAction] to an action stamped with the current
    time; the other properties keep their values. *)
Theorem turn_appends_to_history (socketId : string) (session : Session)
    (userMessage : string) (stream : list string) (streamFails : bool)
    (abortAt : option nat) (tts : string -> option string) (random : nat) (now : Z) :
  let after :=
    fst (handleUserMessage socketId session userMessage stream streamFails abortAt tts
           random now) in
  (exists tail,
     conversationHistory after
     = conversationHistory session ++ {| role := user; content := userMessage |} :: tail
     /\ (tail = [] \/ exists text, tail = [{| role := assistant; content := text |}]))
  /\ (pendingWorkspaceAction after = pendingWorkspaceAction session
      \/ exists action, pendingWorkspaceAction after = Some action /\ timestamp action = now)
  /\ deepgram after = deepgram session
  /\ isCallActive after = isCallActive session
  /\ lastActivity after = lastActivity session
  /\ disconnectedAt after = disconnectedAt session.
Proof.
  intros after. subst after. unfold handleUserMessage.
  set (c := consume _ _ _ _ _ _ _ _).
  assert (Hplain : forall full : string,
            let s := pushMessage assistant full (pushMessage user userMessage session) in
            (exists tail,
               conversationHistory s
               = conversationHistory session
                 ++ {| role := user; content := userMessage |} :: tail
               /\ (tail = [] \/ exists text, tail = [{| role := assistant; content := text |}]))
            /\ (pendingWorkspaceAction s = pendingWorkspaceAction session
                \/ exists action, pendingWorkspaceAction s = Some action
                                  /\ timestamp action = now)
            /\ deepgram s = deepgram session
            /\ isCallActive s = isCallActive session
            /\ lastActivity s = lastActivity session
            /\ disconnectedAt s = disconnectedAt session).
  { intros full s. subst s. cbn. split; [|by repeat split; try left].
    exists [{| role := assistant; content := full |}].
    split; [by rewrite <- app_assoc|]. right. by eexists. }
  assert (Hnone :
            let s := pushMessage user userMessage session in
            (exists tail,
               conversationHistory s
               = conversationHistory session
                 ++ {| role := user; content := userMessage |} :: tail
               /\ (tail = [] \/ exists text, tail = [{| role := assistant; content := text |}]))
            /\ (pendingWorkspaceAction s = pendingWorkspaceAction session
                \/ exists action, pendingWorkspaceAction s = Some action
                                  /\ timestamp action = now)
            /\ deepgram s = deepgram session
            /\ isCallActive s = isCallActive session
            /\ lastActivity s = lastActivity session
            /\ disconnectedAt s = disconnectedAt session).
  { cbn. split; [|by repeat split; try left]. exists []. split; [done|by left]. }
  destruct (streamFails && negb (leftEarly c)); [exact Hnone|].
  destruct (toolCallDetected c) as [call|].
  - destruct (negb (isAborted abortAt (S (suspensions c))) && isWorkspaceAction call) eqn:Hgo.
    + destruct (parseProperty (Json.property call "arguments")) as [args|]; [|exact Hnone].
      cbn. split; [|split; [|done]].
      * exists [{| role := assistant; content := nth random acknowledgments "" |}].
        split; [by rewrite <- app_assoc|]. right. by eexists.
      * right. by eexists.
    + destruct (isAborted abortAt (S (suspensions c))); [exact Hnone|apply Hplain].
  - destruct (isAborted abortAt (S (suspensions c))); [exact Hnone|apply Hplain].
Qed.

(** X12. In every turn the queue is closed and the worker awaited exactly
    once; every item queued before that was sent to the client as
    [ai-response] first, in the same order, and nothing is handed to the
    detector or the queue afterwards. *)
Theorem queue_closed_once (socketId : string) (session : Session)
    (userMessage : string) (stream : list string) (streamFails : bool)
    (abortAt : option nat) (tts : string -> option string) (random : nat) (now : Z) :
  exists before after,
    snd (handleUserMessage socketId session userMessage stream streamFails abortAt tts
           random now)
    = before ++ [CloseQueue; AwaitWorker] ++ after
    /\ forallb (fun e => negb (isQueueEnd e)) (before ++ after) = true
    /\ forallb (fun e => negb (feedsQueue e)) after = true
    /\ pushes before = responses before.
Proof.
  unfold handleUserMessage.
  set (start := [Emit socketId (Status "AI is thinking..."); StreamResponse _]).
  destruct (consume_log socketId abortAt stream 0%nat "" None newDetector start)
    as (ext & Hlog & Hstreaming & Hpaired).
  destruct (streaming_not_dispatch ext Hstreaming) as [_ Hends].
  set (c := consume _ _ _ _ _ _ _ _) in *. rewrite Hlog.
  set (remainder := getRemainder (detectorState c)).
  set (flush := JS.truthyString remainder && negb (isAborted abortAt (suspensions c))).
  set (flushed := if flush then [Emit socketId (AiResponse remainder true); Push remainder]
                  else []).
  assert (Hflushed : forallb (fun e => negb (isQueueEnd e)) flushed = true
                     /\ pushes flushed = responses flushed).
  { subst flushed. by destruct flush. }
  destruct Hflushed as [Hf1 Hf2].
  assert (Hbefore : forall l, forallb (fun e => negb (isQueueEnd e)) l = true ->
                      pushes l = responses l ->
                      forallb (fun e => negb (isQueueEnd e)) ((start ++ ext) ++ l) = true
                      /\ pushes ((start ++ ext) ++ l) = responses ((start ++ ext) ++ l)).
  { intros l Hl1 Hl2.
    rewrite !forallb_app, !pushes_app, !responses_app, Hends, Hl1, Hpaired, Hl2. done. }
  destruct (streamFails && negb (leftEarly c)).
  { exists (start ++ ext), (failureEffects socketId). cbn [snd].
    destruct (Hbefore [] eq_refl eq_refl) as [Hb1 Hb2]. rewrite app_nil_r in Hb1, Hb2.
    split; [done|]. rewrite forallb_app, Hb1. done. }
  destruct (Hbefore flushed Hf1 Hf2) as [Hb1 Hb2].
  assert (Hshape : forall (s : Session) (after : list Effect),
            forallb (fun e => negb (isQueueEnd e)) after = true ->
            forallb (fun e => negb (feedsQueue e)) after = true ->
            exists before after',
              snd (s, ((start ++ ext) ++ flushed ++ [CloseQueue; AwaitWorker]) ++ after)
              = before ++ [CloseQueue; AwaitWorker] ++ after'
              /\ forallb (fun e => negb (isQueueEnd e)) (before ++ after') = true
              /\ forallb (fun e => negb (feedsQueue e)) after' = true
              /\ pushes before = responses before).
  { intros s after Ha1 Ha2. exists ((start ++ ext) ++ flushed), after. cbn [snd].
    split; [by rewrite <- !app_assoc|]. rewrite forallb_app, Hb1, Ha1. done. }
  assert (Hfinish :
            exists before after',
              snd (if isAborted abortAt (S (suspensions c))
                   then (pushMessage user userMessage session,
                         (start ++ ext) ++ flushed ++ [CloseQueue; AwaitWorker])
                   else (pushMessage assistant
                           (if flush then fullResponse c +:+ remainder else fullResponse c)
                           (pushMessage user userMessage session),
                         ((start ++ ext) ++ flushed ++ [CloseQueue; AwaitWorker])
                         ++ [Emit socketId (Status "Listening...")]))
              = before ++ [CloseQueue; AwaitWorker] ++ after'
              /\ forallb (fun e => negb (isQueueEnd e)) (before ++ after') = true
              /\ forallb (fun e => negb (feedsQueue e)) after' = true
              /\ pushes before = responses before).
  { destruct (isAborted abortAt (S (suspensions c))); [|by apply Hshape].
    rewrite <- (app_nil_r (_ ++ flushed ++ _)). by apply Hshape. }
  destruct (toolCallDetected c) as [call|]; [|exact Hfinish].
  destruct (negb (isAborted abortAt (S (suspensions c))) && isWorkspaceAction call);
    [|exact Hfinish].
  destruct (parseProperty (Json.property call "arguments")) as [args|].
  - apply Hshape; by destruct (tts _).
  - apply Hshape; by destruct (tts _).
Qed.

Lemma consume_joined socketId (a : nat) chunks :
  forall k full call d log,
    (a <= S (k + length chunks))%nat ->
    isAborted (Some a)
      (S (suspensions (consume socketId (Some a) chunks k full call d log))) = true.
Proof.
  induction chunks as [|chunk chunks IH]; intros k full call d log Ha.
  { cbn in *. apply Nat.leb_le. lia. }
  cbn [consume]. destruct (isAborted (Some a) k) eqn:Hk.
  { cbn in *. apply Nat.leb_le. apply Nat.leb_le in Hk. lia. }
  cbn [length] in Ha.
  destruct (toolCallIn chunk); [apply IH; lia|].
  destruct (addChunk d chunk) as [d1 sentences]. apply IH. lia.
Qed.

(** X13. A turn whose controller is aborted before the worker has been
    awaited, by a barge-in at any point up to then, ends silently once the
    stream has ended without error: the history keeps the user message with
    no assistant entry, no pending action is recorded, and after the effects
    of streaming the turn only closes the queue and awaits the worker: it
    sends no status, speaks nothing and dispatches nothing. *)
Theorem interrupted_turn_ends_silently (socketId : string) (session : Session)
    (userMessage : string) (stream : list string) (a : nat)
    (tts : string -> option string) (random : nat) (now : Z) :
  (a <= S (length stream))%nat ->
  let result :=
    handleUserMessage socketId session userMessage stream false (Some a) tts random now in
  fst result = pushMessage user userMessage session
  /\ exists streamed,
       snd result
       = [ Emit socketId (Status "AI is thinking...");
           StreamResponse (conversationHistory session
                           ++ [{| role := user; content := userMessage |}]) ]
         ++ streamed ++ [CloseQueue; AwaitWorker]
       /\ forallb isStreaming streamed = true.
Proof.
  intros Ha result. subst result. unfold handleUserMessage.
  set (start := [Emit socketId (Status "AI is thinking..."); StreamResponse _]).
  destruct (consume_log socketId (Some a) stream 0%nat "" None newDetector start)
    as (ext & Hlog & Hstreaming & _).
  pose proof (consume_joined socketId a stream 0%nat "" None newDetector start Ha) as Hj.
  set (c := consume _ _ _ _ _ _ _ _) in *. rewrite Hlog, Hj.
  cbn [andb negb fst snd].
  set (remainder := getRemainder (detectorState c)).
  set (flushed := if JS.truthyString remainder && negb (isAborted (Some a) (suspensions c))
                  then [Emit socketId (AiResponse remainder true); Push remainder]
                  else []).
  assert (Hflushed : forallb isStreaming flushed = true).
  { subst flushed. by destruct (_ && _). }
  assert (Hgoal : (pushMessage user userMessage session,
                   (start ++ ext) ++ flushed ++ [CloseQueue; AwaitWorker]).1
                  = pushMessage user userMessage session
                  /\ exists streamed,
                       (pushMessage user userMessage session,
                        (start ++ ext) ++ flushed ++ [CloseQueue; AwaitWorker]).2
                       = start ++ streamed ++ [CloseQueue; AwaitWorker]
                       /\ forallb isStreaming streamed = true).
  { split; [reflexivity|]. exists (ext ++ flushed). cbn [snd].
    split; [by rewrite <- !app_assoc|]. by rewrite forallb_app, Hstreaming, Hflushed. }
  destruct (toolCallDetected c); exact Hgoal.
Qed.

(** The loop over a stream that is never interrupted, up to the last chunk it
    takes for a tool call. *)
Lemma consume_detects socketId chunks :
  forall k full call d log,
    toolCallDetected (consume socketId None chunks k full call d log)
    = match last (omap toolCallIn chunks) with Some found => Some found | None => call end
    /\ leftEarly (consume socketId None chunks k full call d log) = false.
Proof.
  induction chunks as [|chunk chunks IH]; intros k full call d log; [done|].
  cbn [consume isAborted omap list_omap].
  destruct (toolCallIn chunk) as [found|].
  - destruct (IH (S k) full (Some found) d log) as [-> ->]. split; [|done].
    rewrite last_cons. by destruct (last _).
  - destruct (addChunk d chunk) as [d1 sentences]. apply IH.
Qed.

(** The whole of a turn that is not interrupted and ends on a call of the
    workspace tool whose arguments parse. *)
Lemma recognised_call_log (socketId : string) (session : Session)
    (userMessage : string) (stream : list string) (call args : Json.value)
    (tts : string -> option string) (random : nat) (now : Z) :
  last (omap toolCallIn stream) = Some call ->
  isWorkspaceAction call = true ->
  parseProperty (Json.property call "arguments") = Some args ->
  let acknowledgment := nth random acknowledgments "" in
  exists before,
    handleUserMessage socketId session userMessage stream false None tts random now
    = (pushMessage assistant acknowledgment
         (setPending (Some {| toolCallId := Json.property call "id"; args := args;
                              timestamp := now |})
            (pushMessage user userMessage session)),
       before
       ++ [ Emit socketId (AiResponse acknowledgment true);
            Emit socketId (Status "Processing your request...");
            TextToSpeech acknowledgment ]
       ++ match tts acknowledgment with
          | Some sound => [Emit socketId (AudioResponse sound)]
          | None => []
          end
       ++ [ SendGoogleWorkspaceAction args socketId;
            Emit socketId (Status "Listening...") ])
    /\ List.filter isDispatch before = [].
Proof.
  intros Hlast Hname Hargs acknowledgment. unfold handleUserMessage.
  set (start := [Emit socketId (Status "AI is thinking..."); StreamResponse _]).
  destruct (consume_log socketId None stream 0%nat "" None newDetector start)
    as (ext & Hlog & Hstreaming & _).
  destruct (streaming_not_dispatch ext Hstreaming) as [Hnone _].
  destruct (consume_detects socketId stream 0%nat "" None newDetector start)
    as [Hcall Hleft].
  rewrite Hlast in Hcall.
  set (c := consume _ _ _ _ _ _ _ _) in *.
  rewrite Hlog, Hcall. cbn beta iota. rewrite Hname, Hargs.
  cbn [andb negb isAborted fst snd]. fold acknowledgment.
  set (remainder := getRemainder (detectorState c)).
  set (flushed := if JS.truthyString remainder && true
                  then [Emit socketId (AiResponse remainder true); Push remainder]
                  else []).
  assert (Hflushed : List.filter isDispatch flushed = []).
  { subst flushed. by destruct (_ && _). }
  exists ((start ++ ext) ++ flushed ++ [CloseQueue; AwaitWorker]).
  split; [reflexivity|].
  by rewrite !List.filter_app, Hnone, Hflushed.
Qed.

(** X14. In a turn that is not interrupted and whose stream ends without error,
    when the last chunk taken for a tool call names [google_workspace_action]
    and its arguments parse: the pending action holds the id of the call, the
    parsed arguments and the current time; the history gets the user message
    and the acknowledgment, not the generated text; and the request is
    dispatched once, with the parsed arguments and the socket id, after the
    acknowledgment was sent for synthesis, whether or not the synthesis
    succeeded. *)
Theorem recognised_call_is_dispatched (socketId : string) (session : Session)
    (userMessage : string) (stream : list string) (call args : Json.value)
    (tts : string -> option string) (random : nat) (now : Z) :
  last (omap toolCallIn stream) = Some call ->
  isWorkspaceAction call = true ->
  parseProperty (Json.property call "arguments") = Some args ->
  let result :=
    handleUserMessage socketId session userMessage stream false None tts random now in
  let acknowledgment := nth random acknowledgments "" in
  fst result
  = pushMessage assistant acknowledgment
      (setPending (Some {| toolCallId := Json.property call "id"; args := args;
                           timestamp := now |})
         (pushMessage user userMessage session))
  /\ List.filter isDispatch (snd result) = [SendGoogleWorkspaceAction args socketId]
  /\ exists before audio,
       snd result
       = before ++ [TextToSpeech acknowledgment] ++ audio
         ++ [SendGoogleWorkspaceAction args socketId;
             Emit socketId (Status "Listening...")]
       /\ audio = match tts acknowledgment with
                  | Some sound => [Emit socketId (AudioResponse sound)]
                  | None => []
                  end.
Proof.
  intros Hlast Hname Hargs result acknowledgment. subst result.
  destruct (recognised_call_log socketId session userMessage stream call args tts random now
              Hlast Hname Hargs) as (before & -> & Hbefore).
  fold acknowledgment. cbn [fst snd]. split; [reflexivity|]. split.
  - rewrite !List.filter_app, Hbefore. by destruct (tts acknowledgment).
  - eexists (before ++ [Emit socketId (AiResponse acknowledgment true);
                        Emit socketId (Status "Processing your request...")]), _.
    split; [|reflexivity]. rewrite <- !app_assoc. reflexivity.
Qed.

(** X15. In such a turn, when the arguments of the call are not JSON text,
    the turn records no pending action, dispatches nothing and appends no
    assistant entry: it sends a fixed apology and asks for its synthesis, and
    when that fails too it reports an error to the client. *)
Theorem malformed_arguments_are_apologised (socketId : string) (session : Session)
    (userMessage : string) (stream : list string) (call : Json.value)
    (tts : string -> option string) (random : nat) (now : Z) :
  last (omap toolCallIn stream) = Some call ->
  isWorkspaceAction call = true ->
  parseProperty (Json.property call "arguments") = None ->
  let result :=
    handleUserMessage socketId session userMessage stream false None tts random now in
  fst result = pushMessage user userMessage session
  /\ List.filter isDispatch (snd result) = []
  /\ exists before,
       snd result
       = before
         ++ [CloseQueue; AwaitWorker;
             Emit socketId (AiResponse errorMsg true); TextToSpeech errorMsg]
         ++ match tts errorMsg with
            | Some sound => [ Emit socketId (AudioResponse sound);
                              Emit socketId (Status "Listening...") ]
            | None => failureEffects socketId
            end.
Proof.
  intros Hlast Hname Hargs result. subst result. unfold handleUserMessage.
  set (start := [Emit socketId (Status "AI is thinking..."); StreamResponse _]).
  destruct (consume_log socketId None stream 0%nat "" None newDetector start)
    as (ext & Hlog & Hstreaming & _).
  destruct (streaming_not_dispatch ext Hstreaming) as [Hnone _].
  destruct (consume_detects socketId stream 0%nat "" None newDetector start)
    as [Hcall Hleft].
  rewrite Hlast in Hcall.
  set (c := consume _ _ _ _ _ _ _ _) in *.
  rewrite Hlog, Hcall. cbn beta iota. rewrite Hname, Hargs.
  cbn [andb negb isAborted fst snd].
  split; [reflexivity|].
  set (remainder := getRemainder (detectorState c)).
  set (flushed := if JS.truthyString remainder && true
                  then [Emit socketId (AiResponse remainder true); Push remainder]
                  else []).
  assert (Hflushed : List.filter isDispatch flushed = []).
  { subst flushed. by destruct (_ && _). }
  split.
  - rewrite !List.filter_app, Hnone, Hflushed. by destruct (tts errorMsg).
  - exists ((start ++ ext) ++ flushed). rewrite <- !app_assoc. reflexivity.
Qed.

(** The loop over a stream that is never interrupted and in which no chunk is
    taken for a tool call. *)
Lemma consume_plain socketId chunks :
  Forall (fun chunk => toolCallIn chunk = None) chunks ->
  forall k full call d log,
    let c := consume socketId None chunks k full call d log in
    fullResponse c = full +:+ String.concat "" chunks
    /\ detectorState c = fed d chunks
    /\ toolCallDetected c = call.
Proof.
  induction 1 as [|chunk chunks Hc _ IH]; intros k full call d log.
  { cbn. by rewrite append_nil_r. }
  cbn [consume isAborted fed]. rewrite Hc.
  destruct (addChunk d chunk) as [d1 sentences]. cbn [fst].
  destruct (IH (S k) (full +:+ chunk) call d1
              (log ++ [AddChunk chunk]
               ++ List.flat_map
                    (fun sentence => [Emit socketId (AiResponse sentence true); Push sentence])
                    sentences)) as (-> & -> & ->).
  by rewrite concat_cons, append_assoc.
Qed.

(** X16. In a turn that is not interrupted, whose stream ends without error
    and holds no chunk taken for a tool call, the assistant entry appended to
    the history is the chunks of the stream joined in order, followed by what
    the detector returns as its remainder at the end of the stream. *)
Theorem assistant_entry_is_stream_and_remainder (socketId : string) (session : Session)
    (userMessage : string) (stream : list string)
    (tts : string -> option string) (random : nat) (now : Z) :
  Forall (fun chunk => toolCallIn chunk = None) stream ->
  conversationHistory
    (fst (handleUserMessage socketId session userMessage stream false None tts random now))
  = conversationHistory session
    ++ [ {| role := user; content := userMessage |};
         {| role := assistant;
            content := String.concat "" stream
                       +:+ getRemainder (fed newDetector stream) |} ].
Proof.
  intros Hplain. unfold handleUserMessage.
  set (start := [Emit socketId (Status "AI is thinking..."); StreamResponse _]).
  destruct (consume_plain socketId stream Hplain 0%nat "" None newDetector start)
    as (Hfull & Hdet & Hcall).
  set (c := consume _ _ _ _ _ _ _ _) in *.
  rewrite Hcall, Hfull, Hdet, append_nil_l. cbn [andb negb isAborted fst].
  cbn [pushMessage setHistory conversationHistory]. rewrite <- app_assoc.
  cbn [app]. do 3 f_equal. rewrite andb_true_r.
  destruct (getRemainder (fed newDetector stream)) as [|ch rem]; [|done].
  cbn [JS.truthyString]. by rewrite append_nil_r.
Qed.


End TurnMoreFacts.

(** Runs of the above. *)

Section TurnRuns.
Import Server Turn TurnLog.

Lemma interrupted_turn_ends_silently_witness :
  fst (handleUserMessage "sockA" (idleSession 1700000020000) "What time is it?"
         ["It is"; " noon."; " Anything else?"] false (Some 2%nat)
         (fun _ => Some "UklGRg") 0 1700000050000)
  = pushMessage user "What time is it?" (idleSession 1700000020000).
Proof.
  apply (interrupted_turn_ends_silently "sockA" (idleSession 1700000020000)
           "What time is it?" ["It is"; " noon."; " Anything else?"] 2
           (fun _ => Some "UklGRg") 0 1700000050000).
  cbn. lia.
Defined.

Lemma recognised_call_is_dispatched_witness :
  List.filter isDispatch
    (snd (handleUserMessage "sockA" (idleSession 1700000020000)
            "What is on my calendar tomorrow?"
            [ "Let me check.";
              Json.stringify
                (Json.JObject [("__tool_call", Llm.completed Llm.calendarCall)]) ]
            false None (fun _ => None) 2 1700000050000))
  = [ SendGoogleWorkspaceAction
        (Json.widen
           (Json.JObject [("action", Json.JString "calendar");
                       ("request", Json.JString "What is on my calendar tomorrow")]))
        "sockA" ].
Proof.
  apply (recognised_call_is_dispatched "sockA" (idleSession 1700000020000)
           "What is on my calendar tomorrow?"
           [ "Let me check.";
             Json.stringify
               (Json.JObject [("__tool_call", Llm.completed Llm.calendarCall)]) ]
           (Json.widen (Llm.completed Llm.calendarCall))
           (Json.widen
           (Json.JObject [("action", Json.JString "calendar");
                          ("request", Json.JString "What is on my calendar tomorrow")]))
           (fun _ => None) 2 1700000050000);
    vm_compute; reflexivity.
Defined.

Lemma malformed_arguments_are_apologised_witness :
  fst (handleUserMessage "sockA" (idleSession 1700000020000)
         "What is on my calendar tomorrow?"
         [ Json.stringify
             (Json.JObject
                [("__tool_call",
                  Json.JObject [("id", Json.JString "call_1");
                                ("name", Json.JString "google_workspace_action");
                                ("arguments", Json.JString "{action: calendar")])]) ]
         false None (fun _ => None) 2 1700000050000)
  = pushMessage user "What is on my calendar tomorrow?" (idleSession 1700000020000).
Proof.
  apply (malformed_arguments_are_apologised "sockA" (idleSession 1700000020000)
           "What is on my calendar tomorrow?"
           [ Json.stringify
               (Json.JObject
                  [("__tool_call",
                    Json.JObject [("id", Json.JString "call_1");
                                  ("name", Json.JString "google_workspace_action");
                                  ("arguments", Json.JString "{action: calendar")])]) ]
           (Json.widen
              (Json.JObject [("id", Json.JString "call_1");
                             ("name", Json.JString "google_workspace_action");
                             ("arguments", Json.JString "{action: calendar")]))
           (fun _ => None) 2 1700000050000);
    vm_compute; reflexivity.
Defined.

Lemma assistant_entry_is_stream_and_remainder_witness :
  conversationHistory
    (fst (handleUserMessage "sockA" (idleSession 1700000020000) "How is the weather?"
            ["It is"; " sunny."; " Enjoy!"] false None (fun _ => Some "UklGRg") 0
            1700000050000))
  = [ {| role := user; content := "How is the weather?" |};
      {| role := assistant; content := "It is sunny. Enjoy! Enjoy!" |} ].
Proof.
  rewrite (assistant_entry_is_stream_and_remainder "sockA" (idleSession 1700000020000)
             "How is the weather?" ["It is"; " sunny."; " Enjoy!"]
             (fun _ => Some "UklGRg") 0 1700000050000).
  - vm_compute. reflexivity.
  - repeat constructor.
Defined.

(** Arguments with an escape above 255 and a number with a fraction are
    read as [JSON.parse] reads them, and the call is dispatched with them. *)
Lemma escaped_arguments_are_dispatched :
  Json.parse Llm.escapedArguments
  = Some (Json.JObject
            [ (Json.units "action", Json.JString (Json.units "gmail"));
              (Json.units "request",
               Json.JString (Json.units "Send John" ++ [8217%N] ++ Json.units "s report"));
              (Json.units "priority",
               Json.JNumber (Double.Finite false 6755399441055744 (-52))) ])
  /\ Double.toString (Double.Finite false 6755399441055744 (-52)) = "1.5"
  /\ List.filter isDispatch
       (snd (handleUserMessage "sockA" (idleSession 1700000020000)
               "Send the report to John."
               [ Json.stringify
                   (Json.JObject [("__tool_call", Llm.completed Llm.escapedCall)]) ]
               false None (fun _ => None) 2 1700000050000))
     = [ SendGoogleWorkspaceAction
           (Json.JObject
              [ (Json.units "action", Json.JString (Json.units "gmail"));
                (Json.units "request",
                 Json.JString (Json.units "Send John" ++ [8217%N] ++ Json.units "s report"));
                (Json.units "priority",
                 Json.JNumber (Double.Finite false 6755399441055744 (-52))) ])
           "sockA" ].
Proof. vm_compute. done. Qed.

End TurnRuns.

(** ** More on the registry, the callback and the start of a call *)

Section ServerMoreFacts.
Import Server Call.

Lemma resolveSession_registered (st : State) (sid : option string) id s :
  resolveSession st sid = Some (id, s) ->
  id ∈ activeSessions st /\ objects st !! id = Some s.
Proof.
  assert (Hfirst : firstPending (objects st) (activeSessions st) = Some (id, s) ->
                   id ∈ activeSessions st /\ objects st !! id = Some s).
  { intros (before & after & -> & Hs & _)%firstPending_spec. split; [|done].
    apply elem_of_app. right. by left. }
  unfold resolveSession, registryGet. destruct sid as [k|]; [|done].
  destruct (decide (k ∈ activeSessions st)) as [Hin|]; [|done].
  destruct (objects st !! k) as [sk|] eqn:Hk; [|done].
  by intros [= <- <-].
Qed.

Lemma summarise_extends (body : CallbackBody) (llmReply : option string) (s : Session) :
  conversationHistory s `prefix_of` conversationHistory (summarise body llmReply s).1.2
  /\ forallb (fun e => negb (isRespond e)) (summarise body llmReply s).2 = true.
Proof.
  unfold summarise.
  destruct (isSuccessWithSummary body); [|destruct (isError body)]; cbn.
  - split; [|done]. rewrite <- app_assoc. by apply prefix_app_r.
  - split; [|done]. by apply prefix_app_r.
  - split; [|done]. by apply prefix_app_r.
Qed.

(** X17. A callback changes at most one session object, that of a registered
    session: it clears its pending action and only ever extends its history,
    which it leaves as it is when the socket of the session is gone.  It
    registers and removes no session, and it answers the request exactly
    once, before anything else, with 200, 404 or 500. *)
Theorem callback_touches_one_session (st : State) (body : CallbackBody)
    (llmReply audio : option string) :
  let result := n8nResponse st body llmReply audio in
  activeSessions (fst result) = activeSessions st
  /\ sockets (fst result) = sockets st
  /\ (exists code rest,
        snd result = Respond code :: rest
        /\ forallb (fun e => negb (isRespond e)) rest = true
        /\ (code = 200 \/ code = 404 \/ code = 500))
  /\ (fst result = st
      \/ exists id before after,
           id ∈ activeSessions st
           /\ objects st !! id = Some before
           /\ objects (fst result) = <[id := after]> (objects st)
           /\ pendingWorkspaceAction after = None
           /\ conversationHistory before `prefix_of` conversationHistory after
           /\ (id ∉ sockets st -> conversationHistory after = conversationHistory before)).
Proof.
  intros result. subst result.
  assert (Hcases : sessionId body = SidOther \/ sessionId body <> SidOther).
  { destruct (sessionId body); [by right|by right|by left]. }
  destruct Hcases as [Hsid|Hsid].
  { unfold n8nResponse. rewrite Hsid. cbn.
    split; [done|]. split; [done|]. split; [|by left].
    exists 500, []. split; [done|]. split; [done|]. right. by right. }
  destruct (resolveSession st (requestedId (sessionId body))) as [[id s]|] eqn:Hres.
  - rewrite (n8nResponse_resolved st body llmReply audio id s Hsid Hres).
    apply resolveSession_registered in Hres as [Hin Hobj].
    destruct (summarise_extends body llmReply s) as [Hprefix Hcalls].
    destruct (summarise body llmReply s) as [[responseText session1] calls].
    cbn [fst snd] in Hprefix, Hcalls.
    destruct (decide (id ∈ sockets st)) as [Hsock|Hsock];
      cbn [fst snd updateObject activeSessions sockets objects].
    + split; [done|]. split; [done|]. split.
      * eexists 200, _. split; [reflexivity|]. split; [|by left].
        rewrite !forallb_app, Hcalls. by destruct audio.
      * right. exists id, s, (setPending None session1).
        split; [done|]. split; [done|]. split; [done|]. split; [done|]. by split.
    + split; [done|]. split; [done|]. split.
      * exists 200, []. split; [done|]. split; [done|]. by left.
      * right. exists id, s, (setPending None s).
        split; [done|]. split; [done|]. split; [done|]. split; [done|]. by split.
  - assert (Hnot : n8nResponse st body llmReply audio = (st, [Respond 404])).
    { unfold n8nResponse. destruct (sessionId body); [| |done]; by rewrite Hres. }
    rewrite Hnot. cbn [fst snd].
    split; [done|]. split; [done|]. split; [|by left].
    exists 404, []. split; [done|]. split; [done|]. right. by left.
Qed.

Lemma cleaned_later (now later : Z) (s : Session) :
  now <= later -> cleaned now s = true -> cleaned later s = true.
Proof.
  unfold cleaned. intros Hle.
  destruct (truthyOptNumber (disconnectedAt s)).
  - rewrite !Z.ltb_lt. lia.
  - rewrite !andb_true_iff, !Z.ltb_lt. intros [? ?]. split; [done|lia].
Qed.

Lemma filter_sublist (f g : string -> bool) (l : list string) :
  (forall x, f x = true -> g x = true) ->
  List.filter f l `sublist_of` List.filter g l.
Proof.
  intros Hfg. induction l as [|x l IH]; [done|]. cbn [List.filter].
  destruct (f x) eqn:Hf.
  - rewrite (Hfg x Hf). by apply sublist_skip.
  - destruct (g x); [by apply sublist_cons|done].
Qed.

(** X18. The sweep only removes keys from the registry: it keeps the order of
    the others and changes no session object and no socket; and a sweep at
    a later time removes every session that a sweep at an earlier time would
    remove. *)
Theorem cleanup_removes_more_later (st : State) (now later : Z) :
  now <= later ->
  activeSessions (fst (cleanup st later)) `sublist_of` activeSessions (fst (cleanup st now))
  /\ activeSessions (fst (cleanup st now)) `sublist_of` activeSessions st
  /\ objects (fst (cleanup st now)) = objects st
  /\ sockets (fst (cleanup st now)) = sockets st.
Proof.
  intros Hle. unfold cleanup. cbn [fst activeSessions objects sockets].
  split; [|split; [|done]].
  - apply filter_sublist. intros id. rewrite !negb_true_iff. unfold cleanedId.
    destruct (objects st !! id) as [s|]; [|done].
    destruct (cleaned later s) eqn:Hlater; [done|]. intros _.
    destruct (cleaned now s) eqn:Hnow; [|done].
    by rewrite (cleaned_later now later s Hle Hnow) in Hlater.
  - generalize (fun id => negb (cleanedId st now id)) as keep. intros keep.
    induction (activeSessions st) as [|x l IH]; [done|].
    cbn [List.filter]. destruct (keep x); [by apply sublist_skip|by apply sublist_cons].
Qed.

Lemma cleanup_removes_more_later_witness :
  activeSessions (fst (cleanup sampleState 1700003600000))
  `sublist_of` activeSessions (fst (cleanup sampleState 1700000080000)).
Proof.
  apply (cleanup_removes_more_later sampleState 1700000080000 1700003600000). lia.
Defined.

(** X19. A session that the sweep removes while its socket is still connected
    is no longer found by the callback route under its id, whatever its
    handlers have done to its object since: a callback that names it is
    answered with 404 or resolved to another session, sends nothing to its
    socket and leaves its object, with its pending action, as it is. *)
Theorem evicted_session_misses_callback (st : State) (now : Z) (id : string)
    (s current : Session) (body : CallbackBody) (llmReply audio : option string) :
  objects st !! id = Some s ->
  cleaned now s = true ->
  sessionId body = SidText id ->
  JS.trim id = id ->
  let st1 := updateObject id current (fst (cleanup st now)) in
  let result := n8nResponse st1 body llmReply audio in
  (id ∉ activeSessions st1)
  /\ objects (fst result) !! id = Some current
  /\ sentTo id (snd result) = []
  /\ (snd result = [Respond 404]
      \/ exists other session,
           other <> id
           /\ firstPending (objects st1) (activeSessions st1) = Some (other, session)).
Proof.
  intros Hobj Hcleaned Hsid Htrim st1 result.
  assert (Hout : id ∉ activeSessions st1).
  { subst st1. cbn [updateObject activeSessions]. rewrite elem_of_cleanup.
    intros [_ Hkeep]. unfold cleanedId in Hkeep. by rewrite Hobj, Hcleaned in Hkeep. }
  split; [exact Hout|].
  assert (Hcurrent : objects st1 !! id = Some current).
  { subst st1. cbn [updateObject objects]. by rewrite lookup_insert_eq. }
  assert (Hres : resolveSession st1 (requestedId (sessionId body))
                 = firstPending (objects st1) (activeSessions st1)).
  { rewrite Hsid. cbn [requestedId]. rewrite Htrim. unfold resolveSession, registryGet.
    by destruct (decide (id ∈ activeSessions st1)). }
  destruct (firstPending (objects st1) (activeSessions st1)) as [[other so]|] eqn:Hfirst.
  - assert (Hother : other <> id).
    { intros ->. apply resolveSession_registered in Hres as [Hin _]. by apply Hout. }
    subst result.
    assert (Hne : sessionId body <> SidOther) by (by rewrite Hsid).
    rewrite (n8nResponse_resolved st1 body llmReply audio other so Hne Hres).
    assert (Heqb : String.eqb other id = false) by by apply String.eqb_neq.
    destruct (summarise_extends body llmReply so) as [_ Hcalls].
    assert (Hsilent : sentTo id (summarise body llmReply so).2 = []).
    { unfold summarise. by destruct (isSuccessWithSummary body), (isError body). }
    destruct (summarise body llmReply so) as [[responseText session1] calls].
    cbn [snd] in Hsilent.
    destruct (decide (other ∈ sockets st1)); cbn [fst snd updateObject objects].
    + split; [by rewrite lookup_insert_ne|]. split; [|right; by exists other, so].
      unfold sentTo in *. rewrite !flat_map_app, Hsilent. cbn. rewrite Heqb.
      destruct audio; cbn; by rewrite ?Heqb.
    + split; [by rewrite lookup_insert_ne|]. split; [done|]. right. by exists other, so.
  - subst result. unfold n8nResponse. rewrite Hsid in *. rewrite Hres.
    cbn [fst snd]. split; [done|]. split; [done|]. by left.
Qed.

Lemma evicted_session_misses_callback_witness :
  snd (n8nResponse
         (updateObject "sockA" (waitingSession 1700002000000)
            (fst (cleanup sampleState 1700001900000)))
         {| sessionId := SidText "sockA"; status := Some "success";
            summary := Some "You have two meetings tomorrow." |}
         (Some "You have two meetings tomorrow.") (Some "UklGRg"))
  = [Respond 404]
  \/ exists other session,
       other <> "sockA"
       /\ firstPending
            (objects (updateObject "sockA" (waitingSession 1700002000000)
                        (fst (cleanup sampleState 1700001900000))))
            (activeSessions (updateObject "sockA" (waitingSession 1700002000000)
                               (fst (cleanup sampleState 1700001900000))))
          = Some (other, session).
Proof.
  apply (evicted_session_misses_callback sampleState 1700001900000 "sockA"
           (idleSession 1700000020000) (waitingSession 1700002000000)
           {| sessionId := SidText "sockA"; status := Some "success";
              summary := Some "You have two meetings tomorrow." |}
           (Some "You have two meetings tomorrow.") (Some "UklGRg"));
    vm_compute; reflexivity.
Defined.

(** X20. The session object as [call-start] leaves it is exempt from the idle
    sweep, also when the start fails: the handler sets [isCallActive] before
    anything can fail, no failure resets it, and it leaves [lastActivity] and
    [disconnectedAt] alone.  So when no disconnect time is recorded, no sweep
    at any time would remove that object, and any number of sweeps in a row
    leave the session registered, however old its last activity.  The
    exemption lasts as long as the object: after a [call-end], a sweep more
    than 30 minutes later removes the session. *)
Theorem call_start_exempts_from_idle_sweep (st : State) (id : string) (s : Session)
    (w : Startup) (times : list Z) :
  id ∈ activeSessions st ->
  truthyOptNumber (disconnectedAt s) = false ->
  let started := fst (onCallStart s id w) in
  let st' := updateObject id started st in
  isCallActive started = true
  /\ lastActivity started = lastActivity s
  /\ disconnectedAt started = disconnectedAt s
  /\ (forall now, cleaned now started = false)
  /\ id ∈ activeSessions (sweeps st' times)
  /\ objects (sweeps st' times) !! id = Some started
  /\ (forall ended now,
        ended <> 0 -> 30 * 60 * 1000 < now - ended ->
        id ∉ activeSessions (fst (cleanup (fst (onCallEnd (sweeps st' times) id ended)) now))).
Proof.
  intros Hin Hdis started st'.
  assert (Hs : isCallActive started = true /\ lastActivity started = lastActivity s
               /\ disconnectedAt started = disconnectedAt s).
  { subst started. unfold onCallStart.
    destruct (constructed w), (connected w), (Llm.truthyOptString (prerecordedGreeting w));
      done. }
  destruct Hs as (Hactive & Hlast & Hsame).
  assert (Hkeep : forall now, cleaned now started = false).
  { intros now. unfold cleaned. by rewrite Hsame, Hdis, Hactive. }
  assert (Hswept : forall times st0,
            id ∈ activeSessions st0 -> objects st0 !! id = Some started ->
            id ∈ activeSessions (sweeps st0 times)
            /\ objects (sweeps st0 times) !! id = Some started).
  { clear -Hkeep. induction times as [|now times IH]; intros st0 Hin Hobj; [done|].
    cbn [sweeps List.fold_left]. apply IH; [|done].
    apply elem_of_cleanup. split; [done|]. unfold cleanedId. by rewrite Hobj. }
  destruct (Hswept times st') as [Hreg Hobj];
    [done | subst st'; cbn [updateObject objects]; apply lookup_insert_eq |].
  repeat split; try done.
  intros ended now Hended Hlate. rewrite elem_of_cleanup. intros [_ Hclean].
  revert Hclean. unfold onCallEnd. rewrite Hobj. cbn [fst].
  unfold cleanedId. cbn [updateObject objects]. rewrite lookup_insert_eq.
  unfold cleaned. cbn [Server.disconnectedAt Server.isCallActive Server.lastActivity].
  rewrite Hsame, Hdis. cbn [negb andb].
  assert (Ht : JS.truthyNumber ended = true).
  { unfold JS.truthyNumber. apply negb_true_iff, Z.eqb_neq. done. }
  rewrite Ht. cbn [andb]. intros Hclean. apply Z.ltb_ge in Hclean. lia.
Qed.

Lemma call_start_exempts_from_idle_sweep_witness :
  "sockA" ∈ activeSessions
              (sweeps
                 (updateObject "sockA"
                    (fst (onCallStart (idleSession 1700000020000) "sockA"
                            {| constructed := true; connected := false;
                               prerecordedGreeting := None; greetingAudio := None |}))
                    sampleState)
                 [1700009000000; 1700012600000]).
Proof.
  apply (call_start_exempts_from_idle_sweep sampleState "sockA"
           (idleSession 1700000020000)
           {| constructed := true; connected := false;
              prerecordedGreeting := None; greetingAudio := None |}
           [1700009000000; 1700012600000]).
  - vm_compute. by left.
  - reflexivity.
Defined.

(** X21. A call started on a connection keeps the history of the calls before
    it: [call-start] only appends, the greeting when the recognition service
    is connected and nothing otherwise, and it greets also when the synthesis
    of the greeting fails afterwards. *)
Theorem call_start_keeps_history (s : Session) (id : string) (w : Startup) :
  conversationHistory (fst (onCallStart s id w))
  = conversationHistory s
    ++ (if constructed w && connected w
        then [{| role := assistant; content := greetingText |}] else [])
  /\ pendingWorkspaceAction (fst (onCallStart s id w)) = pendingWorkspaceAction s
  /\ sentTo id (snd (onCallStart s id w))
     = (if constructed w && connected w
        then [Status "Connected - Start speaking!"; AiResponse greetingText false]
             ++ (if Llm.truthyOptString (prerecordedGreeting w)
                 then [AudioResponse (default "" (prerecordedGreeting w))]
                 else match greetingAudio w with
                      | Some audio => [AudioResponse audio]
                      | None => [ErrorEvent "Failed to start call"]
                      end)
        else [ErrorEvent "Failed to start call"]).
Proof.
  unfold onCallStart, sentTo.
  destruct (constructed w), (connected w); cbn [negb andb fst snd];
    try (cbn; rewrite ?app_nil_r, ?String.eqb_refl; done).
  destruct (Llm.truthyOptString (prerecordedGreeting w)); [|destruct (greetingAudio w)];
    cbn; rewrite ?String.eqb_refl; done.
Qed.

End ServerMoreFacts.

(** ** More on the transcript handler *)

Section TriggerMoreFacts.
Import Trigger.

Lemma locked_step st e :
  isProcessing st = true ->
  isFired (snd (step st e)) = false
  /\ (snd (step st e) = Ignored -> isProcessing (fst (step st e)) = true).
Proof.
  intros Hlock. destruct e as [d now|q]; cbn [step]; [|done].
  unfold onTranscript. rewrite Hlock.
  destruct (bargeInDetected st d); cbn [fst snd]; done.
Qed.

Lemma fired_locks st e now x p :
  snd (step st e) = Fired now x p -> isProcessing (fst (step st e)) = true.
Proof.
  destruct e as [d t|q]; cbn [step]; [|done].
  unfold onTranscript.
  destruct (bargeInDetected st d); [done|].
  destruct (isProcessing st); [done|].
  destruct (_ || _); [done|]. destruct (_ && _); done.
Qed.

Lemma locked_run es :
  forall st mid t x p post,
    isProcessing st = true ->
    outcomes st es = mid ++ Fired t x p :: post ->
    exists o, o ∈ mid /\ (o = Interrupted \/ exists q cleared, o = Finished q cleared).
Proof.
  induction es as [|e es IH]; intros st mid t x p post Hlock Hout.
  { destruct mid; discriminate. }
  rewrite outcomes_cons in Hout.
  destruct (locked_step st e Hlock) as [Hnot Hkeep].
  destruct mid as [|o mid]; cbn [app] in Hout.
  { injection Hout as Ho _. by rewrite Ho in Hnot. }
  injection Hout as Ho Hrest.
  destruct o as [t' x' p'| | |q cleared].
  - by rewrite Ho in Hnot.
  - exists Interrupted. split; [by left|by left].
  - destruct (IH _ mid t x p post (Hkeep Ho) Hrest) as (o & Hin & Ho').
    exists o. split; [by right|done].
  - exists (Finished q cleared). split; [by left|]. right. by eexists _, _.
Qed.

(** X22. The lock [isProcessing] is released only by the [finally] callback
    of a turn and by a barge-in: between any two triggers of the callback of
    a call, there is the [finally] callback of some turn, which need not be
    the turn the first trigger started, or a barge-in. *)
Theorem one_turn_at_a_time (es : list Event) (pre mid post : list Outcome)
    (t1 t2 : Z) (x1 x2 : string) (p1 p2 : nat) :
  outcomes initial es = pre ++ Fired t1 x1 p1 :: mid ++ Fired t2 x2 p2 :: post ->
  exists o, o ∈ mid /\ (o = Interrupted \/ exists q cleared, o = Finished q cleared).
Proof.
  generalize initial as st. revert pre.
  induction es as [|e es IH]; intros pre st Hout.
  { destruct pre; discriminate. }
  rewrite outcomes_cons in Hout. destruct pre as [|o pre]; cbn [app] in Hout.
  - injection Hout as Ho Hrest.
    apply (locked_run es (fst (step st e)) mid t2 x2 p2 post); [|done].
    by apply (fired_locks st e t1 x1 p1).
  - injection Hout as _ Hrest. by apply (IH pre (fst (step st e))).
Qed.

Lemma one_turn_at_a_time_witness :
  exists o, o ∈ [Interrupted]
            /\ (o = Interrupted \/ exists q cleared, o = Finished q cleared).
Proof.
  apply (one_turn_at_a_time bargeInRun [] [Interrupted] []
           1700000001000 1700000001200 "Hello there." "wait stop please" 0 1).
  vm_compute. reflexivity.
Defined.

Lemma shielded_step st e (p : nat) :
  (p < nextPipeline st)%nat -> currentPipeline st <> Some p -> isAborted st p = false ->
  (p < nextPipeline (fst (step st e)))%nat
  /\ currentPipeline (fst (step st e)) <> Some p
  /\ isAborted (fst (step st e)) p = false.
Proof.
  intros Hp Hcur Hflag. destruct e as [d now|q]; cbn [step]; [|done].
  unfold onTranscript.
  destruct (bargeInDetected st d); cbn [fst].
  { cbn. split; [done|]. split; [done|].
    destruct (currentPipeline st) as [c|]; [|done].
    unfold isAborted in *. cbn. rewrite lookup_insert_ne; [done|congruence]. }
  destruct (isProcessing st); [done|].
  destruct (_ || _); [done|]. destruct (_ && _); [|done].
  cbn. split; [lia|]. split; [intros [= ?]; lia|].
  unfold isAborted in *. cbn. rewrite lookup_insert_ne; [done|lia].
Qed.

(** X23. Once the [finally] callback of any turn has run, no turn started
    before it can be aborted any more, whatever transcripts follow: the
    callback uninstalls the current controller, also when it belongs to a
    newer turn than the one that ended. *)
Theorem finished_turn_shields_earlier_turns (st : CallState) (p q : nat)
    (es : list Event) :
  (p < nextPipeline st)%nat ->
  isAborted st p = false ->
  isAborted (fst (run (turnFinished st q) es)) p = false.
Proof.
  intros Hp Hflag.
  assert (Hgen : forall es st0,
            (p < nextPipeline st0)%nat -> currentPipeline st0 <> Some p ->
            isAborted st0 p = false ->
            isAborted (fst (run st0 es)) p = false).
  { clear. induction es as [|e es IH]; intros st0 Hp Hcur Hflag; [done|].
    rewrite run_cons. cbn [fst].
    destruct (shielded_step st0 e p Hp Hcur Hflag) as (Hp' & Hcur' & Hflag').
    by apply IH. }
  apply Hgen; done.
Qed.

Lemma finished_turn_shields_earlier_turns_witness :
  isAborted
    (fst (run (turnFinished (fst (run initial bargeInRun)) 0)
            [ Transcript (interimEvent "no, listen to me") 1700000001500;
              Transcript (finalEvent "no, listen to me") 1700000001900 ]))
    1
  = false.
Proof.
  apply (finished_turn_shields_earlier_turns (fst (run initial bargeInRun)) 1 0).
  - vm_compute. lia.
  - vm_compute. reflexivity.
Defined.

(** X24. A transcript whose text is empty or only spaces does nothing in any
    state: it starts no turn and it interrupts none. *)
Theorem blank_transcript_does_nothing (st : CallState) (d : TranscriptData) (now : Z) :
  JS.trim (text d) = "" ->
  snd (onTranscript st d now) = []
  /\ abortedFlags (fst (onTranscript st d now)) = abortedFlags st
  /\ currentPipeline (fst (onTranscript st d now)) = currentPipeline st
  /\ isProcessing (fst (onTranscript st d now)) = isProcessing st.
Proof.
  intros Hblank. unfold onTranscript, bargeInDetected. rewrite Hblank.
  cbn [String.length Z.of_nat Z.ltb Z.compare]. rewrite !andb_false_r. cbn [andb negb].
  destruct (isProcessing st) eqn:Hlock; [done|].
  destruct (_ || _); done.
Qed.

Lemma blank_transcript_does_nothing_witness :
  snd (onTranscript (fst (run initial [Transcript (finalEvent "Hello there.") 1700000001000]))
         (finalEvent "   ") 1700000002000)
  = [].
Proof.
  apply (blank_transcript_does_nothing
           (fst (run initial [Transcript (finalEvent "Hello there.") 1700000001000]))
           (finalEvent "   ") 1700000002000).
  reflexivity.
Defined.

End TriggerMoreFacts.

(** ** The bridge *)

Section WebhookFacts.
Import Server Turn Webhook.
Context `{Segmenter}.

Lemma requestsOf_app service post timestamp (l1 l2 : list Effect) :
  requestsOf service post timestamp (l1 ++ l2)
  = requestsOf service post timestamp l1 ++ requestsOf service post timestamp l2.
Proof. apply flat_map_app. Qed.

Lemma requestsOf_no_dispatch service post timestamp (l : list Effect) :
  List.filter isDispatch l = [] -> requestsOf service post timestamp l = [].
Proof.
  induction l as [|e l IH]; [done|]. cbn [List.filter].
  destruct e; cbn [isDispatch]; try exact IH. discriminate.
Qed.

Lemma lookupMember_app (key : string) (l1 l2 : list (string * Json.value)) :
  Json.lookupMember String.eqb key (l1 ++ l2)
  = match Json.lookupMember String.eqb key l2 with
    | Some v => Some v
    | None => Json.lookupMember String.eqb key l1
    end.
Proof.
  induction l1 as [|[k v] l1 IH]; cbn [app Json.lookupMember].
  { by destruct (Json.lookupMember String.eqb key l2). }
  rewrite IH. by destruct (Json.lookupMember String.eqb key l2).
Qed.

Lemma read_member (key key' : string) (v : option Json.value) :
  Json.lookupMember String.eqb key (member key' v)
  = if String.eqb key' key then v else None.
Proof. destruct v; cbn; by destruct (String.eqb key' key). Qed.

(** X25. The request that a dispatched call sends to the workflow engine: in
    a turn that ends on a call of the workspace tool whose arguments parse to
    anything but [null], exactly one request is posted, to the address of the
    service, with a timeout of 30 s; read back, its body names the socket of
    the turn as [sessionId] and as [userId], and its [action] and [request] are
    those of the arguments, absent when the arguments have none. *)
Theorem dispatched_request_names_the_session (service : Service)
    (post : Request -> option Json.value) (timestamp : string)
    (socketId : string) (session : Session)
    (userMessage : string) (stream : list string) (call args : Json.value)
    (tts : string -> option string) (random : nat) (now : Z) :
  last (omap toolCallIn stream) = Some call ->
  isWorkspaceAction call = true ->
  parseProperty (Json.property call "arguments") = Some args ->
  args <> Json.JNull ->
  exists request,
    requestsOf service post timestamp
      (snd (handleUserMessage socketId session userMessage stream false None tts random now))
    = [request]
    /\ url request = googleWorkspaceWebhookUrl service
    /\ timeout request = 30000
    /\ read request "sessionId" = Some (Json.JString (Json.units socketId))
    /\ read request "userId" = Some (Json.JString (Json.units socketId))
    /\ read request "action" = Json.property args "action"
    /\ read request "request" = Json.property args "request"
    /\ read request "timestamp" = Some (Json.JString (Json.units timestamp)).
Proof.
  intros Hlast Hname Hargs Hnull.
  destruct (recognised_call_log socketId session userMessage stream call args tts random now
              Hlast Hname Hargs) as (before & -> & Hbefore).
  cbn [snd]. rewrite !requestsOf_app, (requestsOf_no_dispatch _ _ _ _ Hbefore).
  assert (Haudio : requestsOf service post timestamp
                     match tts (nth random acknowledgments "") with
                     | Some sound => [Emit socketId (AudioResponse sound)]
                     | None => []
                     end = []).
  { by destruct (tts _). }
  rewrite Haudio. cbn [requestsOf List.flat_map app].
  set (request := {| url := googleWorkspaceWebhookUrl service;
                     body := [ ("sessionId", Json.JString (Json.units socketId));
                               ("userId", Json.JString (Json.units socketId)) ]
                             ++ member "action" (Json.property args "action")
                             ++ member "request" (Json.property args "request")
                             ++ [ ("timestamp", Json.JString (Json.units timestamp)) ];
                     timeout := 30000 |}).
  assert (Hsend : fst (sendGoogleWorkspaceAction service post timestamp args socketId)
                  = [request]).
  { unfold sendGoogleWorkspaceAction. by destruct args. }
  rewrite Hsend. exists request. split; [reflexivity|].
  split; [reflexivity|]. split; [reflexivity|].
  unfold read. subst request. cbn [body].
  rewrite !lookupMember_app, !read_member. cbn.
  repeat split; by destruct (Json.property args "request"), (Json.property args "action").
Qed.

(** X26. When the arguments of the call are the JSON text [null], the turn
    records the pending action and speaks its acknowledgment as for any other
    call, but the service posts nothing: reading [action] of [null] throws
    before the request is made.  No callback can follow, so the pending
    action stays. *)
Theorem null_arguments_are_acknowledged_but_not_sent (service : Service)
    (post : Request -> option Json.value) (timestamp : string)
    (socketId : string) (session : Session)
    (userMessage : string) (stream : list string) (call : Json.value)
    (tts : string -> option string) (random : nat) (now : Z) :
  last (omap toolCallIn stream) = Some call ->
  isWorkspaceAction call = true ->
  parseProperty (Json.property call "arguments") = Some Json.JNull ->
  let result :=
    handleUserMessage socketId session userMessage stream false None tts random now in
  requestsOf service post timestamp (snd result) = []
  /\ pendingWorkspaceAction (fst result)
     = Some {| toolCallId := Json.property call "id"; args := Json.JNull;
               timestamp := now |}
  /\ TextToSpeech (nth random acknowledgments "") ∈ snd result.
Proof.
  intros Hlast Hname Hargs result. subst result.
  destruct (recognised_call_log socketId session userMessage stream call Json.JNull tts
              random now Hlast Hname Hargs) as (before & -> & Hbefore).
  cbn [fst snd]. split; [|split; [reflexivity|]].
  - rewrite !requestsOf_app, (requestsOf_no_dispatch _ _ _ _ Hbefore).
    by destruct (tts _).
  - rewrite !elem_of_app. right. left. do 2 right. by left.
Qed.

End WebhookFacts.

(** Runs of the above. *)

Section WebhookRuns.
Import Server Turn Webhook.

Lemma dispatched_request_names_the_session_witness :
  exists request,
    requestsOf (create None None) (fun _ => Some (Json.JObject [])) "2023-11-14T22:14:10.000Z"
      (snd (handleUserMessage "sockA" (idleSession 1700000020000)
              "What is on my calendar tomorrow?"
              [ "Let me check.";
                Json.stringify
                  (Json.JObject [("__tool_call", Llm.completed Llm.calendarCall)]) ]
              false None (fun _ => None) 2 1700000050000))
    = [request]
    /\ url request = defaultWorkspaceUrl
    /\ timeout request = 30000
    /\ read request "sessionId" = Some (Json.widen (Json.JString "sockA"))
    /\ read request "userId" = Some (Json.widen (Json.JString "sockA"))
    /\ read request "action" = Some (Json.widen (Json.JString "calendar"))
    /\ read request "request"
       = Some (Json.widen (Json.JString "What is on my calendar tomorrow"))
    /\ read request "timestamp"
       = Some (Json.widen (Json.JString "2023-11-14T22:14:10.000Z")).
Proof.
  apply (dispatched_request_names_the_session (create None None)
           (fun _ => Some (Json.JObject [])) "2023-11-14T22:14:10.000Z"
           "sockA" (idleSession 1700000020000)
           "What is on my calendar tomorrow?"
           [ "Let me check.";
             Json.stringify
               (Json.JObject [("__tool_call", Llm.completed Llm.calendarCall)]) ]
           (Json.widen (Llm.completed Llm.calendarCall))
           (Json.widen
           (Json.JObject [("action", Json.JString "calendar");
                          ("request", Json.JString "What is on my calendar tomorrow")]))
           (fun _ => None) 2 1700000050000);
    [vm_compute; reflexivity ..|discriminate].
Defined.

Lemma null_arguments_are_acknowledged_but_not_sent_witness :
  requestsOf (create None None) (fun _ => Some (Json.JObject [])) "2023-11-14T22:14:10.000Z"
    (snd (handleUserMessage "sockA" (idleSession 1700000020000)
            "What is on my calendar tomorrow?"
            [ Json.stringify
                (Json.JObject
                   [("__tool_call",
                     Json.JObject [("id", Json.JString "call_1");
                                   ("name", Json.JString "google_workspace_action");
                                   ("arguments", Json.JString "null")])]) ]
            false None (fun _ => None) 2 1700000050000))
  = [].
Proof.
  apply (null_arguments_are_acknowledged_but_not_sent (create None None)
           (fun _ => Some (Json.JObject [])) "2023-11-14T22:14:10.000Z"
           "sockA" (idleSession 1700000020000)
           "What is on my calendar tomorrow?"
           [ Json.stringify
               (Json.JObject
                  [("__tool_call",
                    Json.JObject [("id", Json.JString "call_1");
                                  ("name", Json.JString "google_workspace_action");
                                  ("arguments", Json.JString "null")])]) ]
           (Json.widen
              (Json.JObject [("id", Json.JString "call_1");
                             ("name", Json.JString "google_workspace_action");
                             ("arguments", Json.JString "null")]))
           (fun _ => None) 2 1700000050000);
    vm_compute; reflexivity.
Defined.

End WebhookRuns.

(** ** Subscriptions *)

Section BillingFacts.
Import Billing.

(** X27. Who has access: [getSubscriptionStatus] reports a subscription
    exactly for a user whose row has the status [active], or the status
    [trialing] with no trial end recorded or one that is not in the past;
    and it writes to the table only to mark a trial that has ended as
    [expired]. *)
Theorem access_decision (userId : string) (selected : option Row) (now : Z) :
  let report := fst (getSubscriptionStatus userId selected now) in
  let writes := snd (getSubscriptionStatus userId selected now) in
  (hasSubscription report = true
   <-> exists row,
         selected = Some row
         /\ (status row = Some "active"
             \/ (status row = Some "trialing"
                 /\ forall trialEnd, trial_ends_at row = Some trialEnd -> now <= trialEnd)))
  /\ writes = (if trialExpired report then [Update userId (statusOnly "expired")] else [])
  /\ (trialExpired report = true -> reportedStatus report = Some "expired").
Proof.
  intros report writes. subst report writes.
  destruct selected as [row|]; cbn [getSubscriptionStatus].
  2: { cbn. split; [|done]. split; [done|]. by intros (row & ? & _). }
  unfold statusIs.
  destruct (status row) as [s|] eqn:Hs.
  2: { cbn. split; [|done]. split; [done|].
       intros (r & [= <-] & [Hr|[Hr _]]); congruence. }
  destruct (String.eqb s "trialing") eqn:Htrial.
  - apply String.eqb_eq in Htrial as ->.
    destruct (trial_ends_at row) as [trialEnd|] eqn:Hend; cbn [andb].
    + destruct (Z.ltb trialEnd now) eqn:Hlt; cbn.
      * apply Z.ltb_lt in Hlt. split; [|done]. split; [done|].
        intros (r & [= <-] & [Hr|[_ Hr]]); [congruence|].
        specialize (Hr trialEnd Hend). lia.
      * apply Z.ltb_ge in Hlt. split; [|done]. split; [|done].
        intros _. exists row. split; [done|]. right. split; [done|].
        intros t Ht. rewrite Hend in Ht. injection Ht as <-. done.
    + cbn. split; [|done]. split; [|done]. intros _. exists row. split; [done|].
      right. split; [done|]. intros t Ht. by rewrite Hend in Ht.
  - cbn [andb fst snd hasSubscription trialExpired]. rewrite orb_false_r.
    split; [|done]. rewrite String.eqb_eq. split.
    + intros ->. exists row. split; [done|]. by left.
    + intros (r & [= <-] & [Hr|[Hr _]]); [congruence|].
      rewrite Hs in Hr. injection Hr as ->. by rewrite String.eqb_refl in Htrial.
Qed.

(** X28. A trial that has ended is marked once: when the status read reports
    the trial as expired, the row as written reports the status [expired]
    with no subscription at every later reading, and is not written again. *)
Theorem expired_trial_is_marked_once (userId : string) (row : Row) (now later : Z) :
  trialExpired (fst (getSubscriptionStatus userId (Some row) now)) = true ->
  let marked := written userId row (snd (getSubscriptionStatus userId (Some row) now)) in
  let again := getSubscriptionStatus userId (Some marked) later in
  status marked = Some "expired"
  /\ hasSubscription (fst again) = false
  /\ reportedStatus (fst again) = Some "expired"
  /\ planType (fst again) = plan_type row
  /\ snd again = [].
Proof.
  cbn [getSubscriptionStatus].
  destruct (statusIs row "trialing" && _) eqn:Hexpired; [|done].
  intros _. cbn [snd written List.fold_left apply statusOnly setStatus setSubscriptionId
                   setTrialEndsAt setCurrentPeriodEnd setCancelAtPeriodEnd].
  rewrite String.eqb_refl. cbn. done.
Qed.

Lemma expired_trial_is_marked_once_witness :
  status (written "user-1" (trialRow 1700000000000)
            (snd (getSubscriptionStatus "user-1" (Some (trialRow 1700000000000))
                    1700000050000)))
  = Some "expired".
Proof.
  apply (expired_trial_is_marked_once "user-1" (trialRow 1700000000000)
           1700000050000 1700000090000).
  reflexivity.
Defined.

(** X29. What a billing event does to a user's access, for an event whose
    subscription names the user in its metadata.  [customer.subscription.deleted],
    [invoice.payment_failed] and [invoice.payment_succeeded] write the status
    [canceled], [past_due] and [active], so that the next status read reports
    no subscription after the first two and one after the third, whatever the
    row held before.  An event of a type the service does not handle writes
    nothing.  [customer.subscription.created] and [customer.subscription.updated]
    write one update, with the times of the subscription in milliseconds, when
    the start and the end of the period are dates and the end of the trial is
    a date or falsy; when one of them is not a date, as when the subscription
    has no [current_period_start], the handler throws and nothing is
    written. *)
Theorem billing_event_sets_access (type : string) (subscription : Subscription)
    (userId : string) (row : Row) (now : Z) :
  metadataUserId subscription = Some userId ->
  JS.truthyString userId = true ->
  let sets s :=
    handleWebhook type (Some subscription) = Some [Update userId (statusOnly s)] in
  let report s :=
    fst (getSubscriptionStatus userId
           (Some (written userId row [Update userId (statusOnly s)])) now) in
  let updates := type = "customer.subscription.created"
                 \/ type = "customer.subscription.updated" in
  (type = "customer.subscription.deleted" ->
   sets "canceled"
   /\ hasSubscription (report "canceled") = false
   /\ reportedStatus (report "canceled") = Some "canceled")
  /\ (type = "invoice.payment_failed" ->
      sets "past_due"
      /\ hasSubscription (report "past_due") = false
      /\ reportedStatus (report "past_due") = Some "past_due")
  /\ (type = "invoice.payment_succeeded" ->
      sets "active"
      /\ hasSubscription (report "active") = true
      /\ reportedStatus (report "active") = Some "active")
  /\ (type ∉ [ "customer.subscription.created"; "customer.subscription.updated";
               "customer.subscription.deleted"; "invoice.payment_succeeded";
               "invoice.payment_failed" ] ->
      handleWebhook type (Some subscription) = Some [])
  /\ (updates ->
      forall periodStart periodEnd,
        dateOf (period_start subscription) = Some periodStart ->
        dateOf (period_end subscription) = Some periodEnd ->
        (truthySeconds (trial_end subscription) = true ->
         dateOf (trial_end subscription) <> None) ->
        handleWebhook type (Some subscription)
        = Some [ Update userId
                   {| setSubscriptionId := Some (subscriptionId subscription);
                      setStatus := Some (subscriptionStatus subscription);
                      setTrialEndsAt :=
                        if truthySeconds (trial_end subscription)
                        then dateOf (trial_end subscription) else None;
                      setCurrentPeriodStart := Some periodStart;
                      setCurrentPeriodEnd := Some periodEnd;
                      setCancelAtPeriodEnd := Some (cancels subscription) |} ])
  /\ (updates ->
      dateOf (period_start subscription) = None
      \/ dateOf (period_end subscription) = None
      \/ (truthySeconds (trial_end subscription) = true
          /\ dateOf (trial_end subscription) = None) ->
      handleWebhook type (Some subscription) = None).
Proof.
  intros Huser Htruthy sets report updates. subst sets report updates. cbv beta.
  assert (Hset : forall s, setStatusFor subscription s = [Update userId (statusOnly s)]).
  { intros s. unfold setStatusFor. rewrite Huser. cbn. by rewrite Htruthy. }
  assert (Hupd : type = "customer.subscription.created"
                 \/ type = "customer.subscription.updated" ->
                 handleWebhook type (Some subscription)
                 = handleSubscriptionUpdate subscription).
  { intros [-> | ->]; reflexivity. }
  assert (Hstatus : forall s,
            status (written userId row [Update userId (statusOnly s)]) = Some s).
  { intros s. cbn. by rewrite String.eqb_refl. }
  assert (Hread : forall s,
            String.eqb s "trialing" = false ->
            let r := fst (getSubscriptionStatus userId
                            (Some (written userId row [Update userId (statusOnly s)])) now) in
            hasSubscription r = String.eqb s "active" /\ reportedStatus r = Some s).
  { intros s Hs. cbn [getSubscriptionStatus]. unfold statusIs. rewrite !Hstatus, Hs.
    cbn. by rewrite orb_false_r. }
  split; [|split; [|split; [|split; [|split]]]].
  - intros ->. split; [cbn; by rewrite Hset|]. by apply (Hread "canceled").
  - intros ->. split; [cbn; by rewrite Hset|]. by apply (Hread "past_due").
  - intros ->. split; [cbn; by rewrite Hset|]. by apply (Hread "active").
  - intros Hnot. unfold handleWebhook.
    destruct (String.eqb type "customer.subscription.created") eqn:H1.
    { apply String.eqb_eq in H1. exfalso. apply Hnot. rewrite H1. by left. }
    destruct (String.eqb type "customer.subscription.updated") eqn:H2.
    { apply String.eqb_eq in H2. exfalso. apply Hnot. rewrite H2. right. by left. }
    destruct (String.eqb type "customer.subscription.deleted") eqn:H3.
    { apply String.eqb_eq in H3. exfalso. apply Hnot. rewrite H3. do 2 right. by left. }
    destruct (String.eqb type "invoice.payment_succeeded") eqn:H4.
    { apply String.eqb_eq in H4. exfalso. apply Hnot. rewrite H4. do 3 right. by left. }
    destruct (String.eqb type "invoice.payment_failed") eqn:H5.
    { apply String.eqb_eq in H5. exfalso. apply Hnot. rewrite H5. do 4 right. by left. }
    done.
  - intros Htype periodStart periodEnd Hstart Hend Htrial. rewrite (Hupd Htype).
    unfold handleSubscriptionUpdate. rewrite Huser. cbn [Llm.truthyOptString default].
    rewrite Htruthy, Hstart, Hend.
    destruct (truthySeconds (trial_end subscription)); [|done].
    destruct (dateOf (trial_end subscription)); [done|]. by destruct Htrial.
  - intros Htype Hbad. rewrite (Hupd Htype).
    unfold handleSubscriptionUpdate. rewrite Huser. cbn [Llm.truthyOptString default].
    rewrite Htruthy.
    destruct Hbad as [Hbad|[Hbad|[Ht Hbad]]].
    + rewrite Hbad.
      destruct (truthySeconds (trial_end subscription)); [|done].
      by destruct (dateOf (trial_end subscription)).
    + rewrite Hbad.
      destruct (truthySeconds (trial_end subscription));
        [destruct (dateOf (trial_end subscription)); [|done]|];
        by destruct (dateOf (period_start subscription)).
    + by rewrite Ht, Hbad.
Qed.

Lemma billing_event_sets_access_witness :
  handleWebhook "invoice.payment_failed" (Some paidSubscription)
  = Some [Update "user-1" (statusOnly "past_due")]
  /\ hasSubscription
       (fst (getSubscriptionStatus "user-1"
               (Some (written "user-1" (trialRow 1700000000000)
                        [Update "user-1" (statusOnly "past_due")]))
               1700000050000))
     = false
  /\ handleWebhook "customer.subscription.updated" (Some paidSubscription)
     = Some [ Update "user-1"
                {| setSubscriptionId := Some "sub_1"; setStatus := Some "active";
                   setTrialEndsAt := None;
                   setCurrentPeriodStart := Some 1700000000000;
                   setCurrentPeriodEnd := Some 1702592000000;
                   setCancelAtPeriodEnd := Some false |} ]
  /\ handleWebhook "customer.subscription.updated" (Some undatedSubscription) = None.
Proof.
  destruct (billing_event_sets_access "invoice.payment_failed" paidSubscription
              "user-1" (trialRow 1700000000000) 1700000050000 eq_refl eq_refl)
    as (_ & Hfailed & _).
  destruct (billing_event_sets_access "customer.subscription.updated" paidSubscription
              "user-1" (trialRow 1700000000000) 1700000050000 eq_refl eq_refl)
    as (_ & _ & _ & _ & Hupdated & _).
  destruct (billing_event_sets_access "customer.subscription.updated" undatedSubscription
              "user-1" (trialRow 1700000000000) 1700000050000 eq_refl eq_refl)
    as (_ & _ & _ & _ & _ & Hthrows).
  destruct (Hfailed eq_refl) as (Hsets & Hnone & _).
  split; [exact Hsets|]. split; [exact Hnone|]. split.
  - apply (Hupdated (or_intror eq_refl) 1700000000000 1702592000000);
      [reflexivity | reflexivity | discriminate].
  - apply (Hthrows (or_intror eq_refl)). left. reflexivity.
Defined.

End BillingFacts.
